(** * bookModifier: filename normalisation, undo ledger and directory comparison

    A shallow embedding of [bookModifier.py].  File names are ASCII strings,
    a directory is a finite set of names, the undo dictionary is an
    insertion-ordered association list, and the interactive parts
    ([input], [print], [os.rename], [os.listdir], [os.path.getsize]) are
    explicit state or parameters. *)

From Stdlib Require Import String Ascii List ZArith QArith Lia Bool.
From Corelib Require Import SpecFloat.
From stdpp Require Import base gmap sets strings pretty.
Import ListNotations.
Open Scope string_scope.

(** ** Python string operations *)

Module Str.

Definition code (c : ascii) : nat := nat_of_ascii c.

Definition between (lo hi : nat) (c : ascii) : bool :=
  (lo <=? code c)%nat && (code c <=? hi)%nat.

(** [str.lower] on one ASCII character. *)
Definition lower_char (c : ascii) : ascii :=
  if between 65 90 c then ascii_of_nat (code c + 32) else c.

(** [s.lower()] *)
Fixpoint lower (s : string) : string :=
  match s with
  | EmptyString => EmptyString
  | String c s' => String (lower_char c) (lower s')
  end.

(** [s.startswith(p)] *)
Fixpoint startswith (p s : string) : bool :=
  match p, s with
  | EmptyString, _ => true
  | String a p', String b s' => Ascii.eqb a b && startswith p' s'
  | String _ _, EmptyString => false
  end.

(** [sub in s] *)
Fixpoint contains (sub s : string) : bool :=
  startswith sub s ||
  match s with
  | EmptyString => false
  | String _ s' => contains sub s'
  end.

(** [s[n:]] for [0 <= n] *)
Fixpoint drop (n : nat) (s : string) : string :=
  match n, s with
  | O, _ => s
  | S n', String _ s' => drop n' s'
  | S _, EmptyString => EmptyString
  end.

(** [s[:n]] for [0 <= n] *)
Fixpoint take (n : nat) (s : string) : string :=
  match n, s with
  | O, _ => EmptyString
  | S n', String c s' => String c (take n' s')
  | S _, EmptyString => EmptyString
  end.

(** [s[-n:]] for [0 < n]: the last [n] characters, all of [s] when it is
    shorter. *)
Definition take_last (n : nat) (s : string) : string :=
  drop (String.length s - n) s.

(** [s[:-n]] for [0 < n]: all but the last [n] characters. *)
Definition drop_last (n : nat) (s : string) : string :=
  take (String.length s - n) s.

(** [s[-n]] for [0 < n]; [None] is Python's IndexError. *)
Definition from_end (n : nat) (s : string) : option ascii :=
  if (n <=? String.length s)%nat then String.get (String.length s - n) s
  else None.

(** [s.replace(old, new)] and [s.replace(old, new, count)].  [skip] counts
    the characters of a replaced occurrence that are still to be passed
    over.  [limit = None] replaces every occurrence.  With an empty [old]
    Python inserts [new] in front of the characters. *)
Fixpoint replace_go (old new : string) (limit : option nat) (skip : nat)
    (s : string) : string :=
  match s with
  | EmptyString =>
      match skip, limit with
      | O, Some O => EmptyString
      | O, _ => if startswith old EmptyString then new else EmptyString
      | S _, _ => EmptyString
      end
  | String c s' =>
      match skip with
      | S k => replace_go old new limit k s'
      | O =>
          match limit with
          | Some O => s
          | _ =>
              if startswith old s then
                let limit' := option_map Nat.pred limit in
                match String.length old with
                | O => new +:+ String c (replace_go old new limit' 0 s')
                | S k => new +:+ replace_go old new limit' k s'
                end
              else String c (replace_go old new limit O s')
          end
      end
  end.

Definition replace (old new s : string) : string :=
  replace_go old new None 0 s.

Definition replace_count (old new : string) (count : nat) (s : string)
    : string :=
  replace_go old new (Some count) 0 s.

(** Last character, [s[-1]]. *)
Definition last (s : string) : option ascii := from_end 1 s.

End Str.

(** ** The fragment of Python's [re] that the program uses

    Patterns are built from one-character classes, concatenation, the greedy
    and lazy repetition of a class, and one-character look-around.  Matching
    is backtracking in Python's priority order; the continuation receives the
    character before the current position (for look-behind) and the rest of
    the subject. *)

Module Re.

(** [\s] on ASCII: TAB, LF, VT, FF, CR, FS, GS, RS, US and space. *)
Definition is_space (c : ascii) : bool :=
  Str.between 9 13 c || Str.between 28 32 c.

(** [\S] *)
Definition not_space (c : ascii) : bool := negb (is_space c).

(** [\d] *)
Definition is_digit (c : ascii) : bool := Str.between 48 57 c.

(** [[A-Za-z]] *)
Definition is_alpha (c : ascii) : bool :=
  Str.between 65 90 c || Str.between 97 122 c.

(** [\w] *)
Definition is_word (c : ascii) : bool :=
  is_alpha c || is_digit c || Ascii.eqb c "_".

(** [.] : anything but a line feed *)
Definition dot (c : ascii) : bool := negb (Ascii.eqb c "010").

Inductive regex : Type :=
| Eps                                  (* the empty pattern *)
| Cls (p : ascii -> bool)              (* one character of a class *)
| Seq (r1 r2 : regex)                  (* r1 r2 *)
| Plus (p : ascii -> bool)             (* x+ *)
| PlusLazy (p : ascii -> bool)         (* x+? *)
| AtLeast (n : nat) (p : ascii -> bool)(* x{n,} *)
| Ahead (p : ascii -> bool)            (* (?=x) *)
| Behind (p : ascii -> bool).          (* (?<=x) *)

(** A literal character and a literal string. *)
Definition Lit (c : ascii) : regex := Cls (Ascii.eqb c).

Fixpoint lits (s : string) : regex :=
  match s with
  | EmptyString => Eps
  | String c s' => Seq (Lit c) (lits s')
  end.

Section Matcher.
Context {R : Type}.
(** What to do with the rest of the subject once the pattern matched. *)
Abbreviation cont := (option ascii -> string -> option R).

(** [x*], longest first. *)
Fixpoint star_greedy (p : ascii -> bool) (prev : option ascii)
    (s : string) (k : cont) : option R :=
  match s with
  | String c s' =>
      if p c then
        match star_greedy p (Some c) s' k with
        | Some r => Some r
        | None => k prev s
        end
      else k prev s
  | EmptyString => k prev s
  end.

(** [x*?], shortest first. *)
Fixpoint star_lazy (p : ascii -> bool) (prev : option ascii)
    (s : string) (k : cont) : option R :=
  match k prev s with
  | Some r => Some r
  | None =>
      match s with
      | String c s' => if p c then star_lazy p (Some c) s' k else None
      | EmptyString => None
      end
  end.

(** [n] mandatory characters of the class, then [rest]. *)
Fixpoint exactly (n : nat) (p : ascii -> bool) (prev : option ascii)
    (s : string) (rest : cont) : option R :=
  match n with
  | O => rest prev s
  | S n' =>
      match s with
      | String c s' => if p c then exactly n' p (Some c) s' rest else None
      | EmptyString => None
      end
  end.

Fixpoint exec (r : regex) (prev : option ascii) (s : string) (k : cont)
    : option R :=
  match r with
  | Eps => k prev s
  | Cls p => exactly 1 p prev s k
  | Seq r1 r2 => exec r1 prev s (fun prev' s' => exec r2 prev' s' k)
  | Plus p =>
      exactly 1 p prev s (fun prev' s' => star_greedy p prev' s' k)
  | PlusLazy p =>
      exactly 1 p prev s (fun prev' s' => star_lazy p prev' s' k)
  | AtLeast n p =>
      exactly n p prev s (fun prev' s' => star_greedy p prev' s' k)
  | Ahead p =>
      match s with
      | String c _ => if p c then k prev s else None
      | EmptyString => None
      end
  | Behind p =>
      match prev with
      | Some c => if p c then k prev s else None
      | None => None
      end
  end.
End Matcher.

(** [pattern.match] at the current position: what is left of the subject
    after the match. *)
Definition match_here (r : regex) (prev : option ascii) (s : string)
    : option string :=
  exec r prev s (fun _ rest => Some rest).

(** Number of characters a match at the current position takes. *)
Definition match_len (r : regex) (prev : option ascii) (s : string)
    : option nat :=
  match match_here r prev s with
  | Some rest => Some (String.length s - String.length rest)
  | None => None
  end.

(** [re.search]: the text before the leftmost match and the match. *)
Fixpoint search_from (r : regex) (prev : option ascii) (s : string)
    : option (string * string) :=
  match match_len r prev s with
  | Some n => Some (EmptyString, Str.take n s)
  | None =>
      match s with
      | String c s' =>
          match search_from r (Some c) s' with
          | Some (pre, m) => Some (String c pre, m)
          | None => None
          end
      | EmptyString => None
      end
  end.

Definition search (r : regex) (s : string) : option (string * string) :=
  search_from r None s.

(** Truth value of [re.search(r, s)]. *)
Definition found (r : regex) (s : string) : bool :=
  match search r s with Some _ => true | None => false end.

(** [re.findall(r, s)[0]] for a pattern without a group: the leftmost
    match. *)
Definition first_match (r : regex) (s : string) : option string :=
  option_map snd (search r s).

(** [re.sub(r, repl, s, count)]; [limit = None] is [count = 0], every
    match.  None of the program's patterns matches the empty string, and a
    match of length 0 is passed over. *)
Fixpoint sub_go (r : regex) (repl : string) (limit : option nat)
    (skip : nat) (prev : option ascii) (s : string) : string :=
  match s with
  | EmptyString => EmptyString
  | String c s' =>
      match skip with
      | S k => sub_go r repl limit k (Some c) s'
      | O =>
          match limit with
          | Some O => s
          | _ =>
              match match_len r prev s with
              | Some (S k) =>
                  repl +:+ sub_go r repl (option_map Nat.pred limit) k
                                  (Some c) s'
              | _ => String c (sub_go r repl limit O (Some c) s')
              end
          end
      end
  end.

Definition sub (r : regex) (repl s : string) : string :=
  sub_go r repl None 0 None s.

Definition sub_count (r : regex) (repl s : string) (count : nat) : string :=
  sub_go r repl (Some count) 0 None s.

End Re.

(** ** The patterns of the program *)

Module Pat.
Import Re.

(** [\s{2,}] *)
Definition multi_space : regex := AtLeast 2 is_space.
(** [\s,] (the group of [(\s,)] is not used) *)
Definition space_comma : regex := Seq (Cls is_space) (Lit ",").
(** [,\S] *)
Definition comma_nonspace : regex := Seq (Lit ",") (Cls not_space).
(** [,\d] *)
Definition comma_digit : regex := Seq (Lit ",") (Cls is_digit).
(** [,] *)
Definition comma : regex := Lit ",".
(** [[A-Za-z]_[A-Za-z]] *)
Definition letter_us_letter : regex :=
  Seq (Cls is_alpha) (Seq (Lit "_") (Cls is_alpha)).
(** [(?<=[A-Za-z])_(?=[A-Za-z])] *)
Definition us_between_letters : regex :=
  Seq (Behind is_alpha) (Seq (Lit "_") (Ahead is_alpha)).
(** [\s-\s] *)
Definition separator : regex :=
  Seq (Cls is_space) (Seq (Lit "-") (Cls is_space)).
(** [.+?\s-\s] : finds author(s) *)
Definition pattern1 : regex := Seq (PlusLazy dot) separator.
(** [_+\s.+(?=\.)] : finds a subtitle of a book *)
Definition pattern2 : regex :=
  Seq (Plus (Ascii.eqb "_"))
      (Seq (Cls is_space) (Seq (Plus dot) (Ahead (Ascii.eqb ".")))).
(** [.+(, Art)\.] *)
Definition article_tail (art : string) : regex :=
  Seq (Plus dot) (Seq (lits ", ") (Seq (lits art) (Lit "."))).
(** [,\sArt\.] *)
Definition article_dot (art : string) : regex :=
  Seq (Lit ",") (Seq (Cls is_space) (Seq (lits art) (Lit "."))).
(** [(.+)\.] and [.+\.] *)
Definition upto_dot : regex := Seq (Plus dot) (Lit ".").
(** [\.(\w+)] and [\.\w+] *)
Definition dot_word : regex := Seq (Lit ".") (Plus is_word).
(** [\s-\s(.+)\.] *)
Definition sep_title_dot : regex := Seq separator upto_dot.
(** [\.epub], [\.mobi], [\.pdf] *)
Definition dot_ext (ext : string) : regex := Seq (Lit ".") (lits ext).

(** The test that guards the comparison functions:
    [re.search(r"\.epub", b.lower()) or ... r"\.mobi" ... or ... r"\.pdf"] *)
Definition book_ext (book : string) : bool :=
  found (dot_ext "epub") (Str.lower book)
  || found (dot_ext "mobi") (Str.lower book)
  || found (dot_ext "pdf") (Str.lower book).

(** [re.sub(r"\.\w+", EMPTY, book)], EMPTY the empty string *)
Definition base_name (book : string) : string :=
  sub dot_word EmptyString book.
End Pat.

(** ** The session: directory, undo dictionary, console *)

(** Python exceptions the modelled code can raise. *)
Inductive exn : Set :=
| FileNotFoundError
| FileExistsError
| IndexError
| UnboundLocalError
| OverflowError
| EOFError.

#[global] Instance exn_eq_dec : EqDecision exn.
Proof. solve_decision. Defined.

Inductive result (A : Type) : Type :=
| Ok (a : A)
| Raise (e : exn).
Arguments Ok {A} a.
Arguments Raise {A} e.

(** One call of [os.rename(path + src, path + dst)] and whether it raised. *)
Record rename_call : Set := RenameCall {
  rc_src : string;
  rc_dst : string;
  rc_error : option exn
}.

(** [fs] is the set of file names in the working directory [path]; [undo] is
    the global dictionary [undo], in insertion order, each entry
    [(new, old)]; [stdout] holds the printed lines, oldest first; [stdin] the
    lines [input] will read; [renames] is a trace of the [os.rename] calls,
    oldest first, kept for specification only. *)
Record World : Type := mkWorld {
  fs : gset string;
  undo : list (string * string);
  stdout : list string;
  stdin : list string;
  renames : list rename_call
}.

Module Dict.
(** [d[k] = v] on an insertion-ordered dictionary. *)
Fixpoint set (k v : string) (d : list (string * string))
    : list (string * string) :=
  match d with
  | [] => [(k, v)]
  | (k', v') :: d' =>
      if String.eqb k k' then (k, v) :: d' else (k', v') :: set k v d'
  end.

(** [d.get(k)] *)
Fixpoint get (k : string) (d : list (string * string)) : option string :=
  match d with
  | [] => None
  | (k', v') :: d' => if String.eqb k k' then Some v' else get k d'
  end.
End Dict.

(** Statements: a state transformer that may raise.  The world is kept when
    an exception is raised, as the dictionary and the disk are. *)
Definition M (A : Type) : Type := World -> World * result A.

Definition ret {A} (a : A) : M A := fun w => (w, Ok a).
Definition raise {A} (e : exn) : M A := fun w => (w, Raise e).
Definition bind {A B} (m : M A) (k : A -> M B) : M B :=
  fun w =>
    match m w with
    | (w', Ok a) => k a w'
    | (w', Raise e) => (w', Raise e)
    end.

Declare Scope prog_scope.
Delimit Scope prog_scope with prog.
Notation "x <- m ;; k" := (bind m (fun x => k))
  (at level 100, m at next level, right associativity) : prog_scope.
Notation "m ;; k" := (bind m (fun _ => k))
  (at level 100, right associativity) : prog_scope.
Open Scope prog_scope.

(** A value or an exception computed without touching the world. *)
Definition lift {A} (r : result A) : M A := fun w => (w, r).

Definition nl : string := String "010" EmptyString.

(** [print(line)] *)
Definition print (line : string) : M unit :=
  fun w => (mkWorld (fs w) (undo w) (stdout w ++ [line]) (stdin w)
                    (renames w), Ok tt).

(** [input(prompt)]: the prompt is written, a line is read; end of input is
    EOFError. *)
Definition input (prompt : string) : M string :=
  fun w =>
    match stdin w with
    | line :: rest =>
        (mkWorld (fs w) (undo w) (stdout w ++ [prompt]) rest (renames w),
         Ok line)
    | [] =>
        (mkWorld (fs w) (undo w) (stdout w ++ [prompt]) [] (renames w),
         Raise EOFError)
    end.

(** [undo.clear()] *)
Definition undo_clear : M unit :=
  fun w => (mkWorld (fs w) [] (stdout w) (stdin w) (renames w), Ok tt).

(** [undo[new] = old] *)
Definition undo_set (new old : string) : M unit :=
  fun w => (mkWorld (fs w) (Dict.set new old (undo w)) (stdout w) (stdin w)
                    (renames w), Ok tt).

(** What [os.rename(path + src, path + dst)] does to the directory, as on
    Windows, the platform the program is written for (trailing backslash of
    the path, [except FileExistsError]): a missing source is
    FileNotFoundError, an existing destination other than the source itself
    is FileExistsError.  The empty name stands for the directory itself. *)
Definition rename_outcome (dir : gset string) (src dst : string)
    : result (gset string) :=
  if decide (src ∈ dir) then
    if decide (dst = src) then Ok dir
    else if decide (dst ∈ dir) then Raise FileExistsError
    else if decide (dst = EmptyString) then Raise FileExistsError
    else Ok ({[ dst ]} ∪ (dir ∖ {[ src ]}))
  else Raise FileNotFoundError.

Definition os_rename (src dst : string) : M unit :=
  fun w =>
    match rename_outcome (fs w) src dst with
    | Ok dir' =>
        (mkWorld dir' (undo w) (stdout w) (stdin w)
                 (renames w ++ [RenameCall src dst None]), Ok tt)
    | Raise e =>
        (mkWorld (fs w) (undo w) (stdout w) (stdin w)
                 (renames w ++ [RenameCall src dst (Some e)]), Raise e)
    end.

(** [try: body except e: handler] *)
Definition try_except {A} (body : M A) (e : exn) (handler : M A) : M A :=
  fun w =>
    match body w with
    | (w', Raise e') =>
        if decide (e' = e) then handler w' else (w', Raise e')
    | r => r
    end.

(** [for x in xs: body x] *)
Fixpoint for_each {A} (xs : list A) (body : A -> M unit) : M unit :=
  match xs with
  | [] => ret tt
  | x :: xs' => body x ;; for_each xs' body
  end.

(** [for x in xs: acc = body acc x], for the locals a loop updates. *)
Fixpoint for_fold {A S} (xs : list A) (acc : S) (body : S -> A -> M S)
    : M S :=
  match xs with
  | [] => ret acc
  | x :: xs' => acc' <- body acc x ;; for_fold xs' acc' body
  end.

(** [s[-1] == c], IndexError on the empty string. *)
Definition last_is (c : ascii) (s : string) : result bool :=
  match Str.last s with
  | Some c' => Ok (Ascii.eqb c' c)
  | None => Raise IndexError
  end.

(** ** The normalisation passes *)

(** The loop
    [while True: if book[-(k+1)] == " ": book = book[:-(k+1)] + book[-k:];
    spacing = True else: break].  Every turn shortens [book] by one
    character, so a fuel above its length is never used up. *)
Fixpoint strip_end_space (fuel k : nat) (book : string) (spacing : bool)
    : result (string * bool) :=
  match fuel with
  | O => Raise IndexError
  | S fuel' =>
      match Str.from_end (S k) book with
      | None => Raise IndexError
      | Some c =>
          if Ascii.eqb c " " then
            strip_end_space fuel' k
              (Str.drop_last (S k) book +:+ Str.take_last k book) true
          else Ok (book, spacing)
      end
  end.

Definition removeMultipleSpacing (path : string) (books : list string)
    : M unit :=
  undo_clear ;;
  counter <- for_fold books 0%nat (fun counter book =>
    let old := book in
    let spacing := false in
    st <- lift
      (if Str.contains ".epub" (Str.lower book)
          || Str.contains ".mobi" (Str.lower book)
       then strip_end_space (S (String.length book)) 5 book spacing
       else if Str.contains ".pdf" (Str.lower book)
       then strip_end_space (S (String.length book)) 4 book spacing
       else Ok (book, spacing)) ;;
    let '(book, spacing) := st in
    st <-
      (if Re.found Pat.multi_space book then
         let book := Re.sub Pat.multi_space " " book in
         os_rename old book ;;
         ret (book, true)
       else ret (book, spacing)) ;;
    let '(book, spacing) := st in
    if spacing : bool then
      undo_set book old ;;
      print ("Multiple and/or end spacing removed from filename: "
             +:+ path +:+ old +:+ "; new filename: " +:+ book) ;;
      ret (S counter)
    else ret counter) ;;
  print (nl +:+ "Process finished. Multiple spacing removed from "
         +:+ pretty counter +:+ " filenames.").

Definition fixCommaSpacing (path : string) (books : list string) : M unit :=
  undo_clear ;;
  counter <- for_fold books 0%nat (fun counter book =>
    let old := book in
    let changed := false in
    st <-
      (if Re.found Pat.space_comma book then
         let book := Re.sub Pat.space_comma "," book in
         os_rename old book ;;
         ret (book, true)
       else ret (book, changed)) ;;
    let '(book, changed) := st in
    st <-
      (if Re.found Pat.comma_nonspace book
          && negb (Re.found Pat.comma_digit book) then
         let book := Re.sub Pat.comma ", " book in
         os_rename old book ;;
         ret (book, true)
       else ret (book, changed)) ;;
    let '(book, changed) := st in
    if changed : bool then
      undo_set book old ;;
      print ("Comma spacing fixed in filename: " +:+ path +:+ old
             +:+ "; new filename: " +:+ book) ;;
      ret (S counter)
    else ret counter) ;;
  print (nl +:+ "Process finished. Comma spacing fixed in "
         +:+ pretty counter +:+ " filenames.").

Definition fixApostrophes (path : string) (books : list string) : M unit :=
  undo_clear ;;
  counter <- for_fold books 0%nat (fun counter book =>
    if Re.found Pat.letter_us_letter book then
      let old := book in
      let book := Re.sub Pat.us_between_letters "'" book in
      os_rename old book ;;
      undo_set book old ;;
      print (old +:+ " changed to " +:+ book) ;;
      ret (S counter)
    else ret counter) ;;
  print (nl +:+ "Process finished. Apostrophes fixed in "
         +:+ pretty counter +:+ " filenames.").

(** ** Author and subtitle rewriting *)

(** One branch of the article cascade:
    [re.search(r".+(, Art)\.", name[-window:])]. *)
Definition has_article (art : string) (window : nat) (name : string) : bool :=
  Re.found (Pat.article_tail art) (Str.take_last window name).

(** [re.sub(pattern2, EMPTY, re.sub(",\sArt\.", ".", name), 1)], EMPTY the
    empty string *)
Definition drop_article_subtitle (art name : string) : string :=
  Re.sub_count Pat.pattern2 EmptyString (Re.sub (Pat.article_dot art) "." name)
               1.

(** The name [withoutAuthors] gives to [noauthor], before the trailing
    underscore is looked at: the [if / elif / elif / else] on A, An, The. *)
Definition withoutAuthors_new (noauthor : string) : string :=
  if has_article "A" 9 noauthor then
    "A " +:+ drop_article_subtitle "A" noauthor
  else if has_article "An" 10 noauthor then
    "An " +:+ drop_article_subtitle "An" noauthor
  else if has_article "The" 11 noauthor then
    "The " +:+ drop_article_subtitle "The" noauthor
  else Re.sub_count Pat.pattern2 EmptyString noauthor 1.

Definition withoutAuthors (path : string) (books : list string) : M unit :=
  undo_clear ;;
  for_each books (fun book =>
    let old := book in
    os_rename book (Re.sub_count Pat.pattern1 EmptyString book 1) ;;
    let noauthor := Re.sub_count Pat.pattern1 EmptyString book 1 in
    os_rename noauthor (withoutAuthors_new noauthor) ;;
    let new := withoutAuthors_new noauthor in
    underscore <- lift (last_is "_" new) ;;
    new <- (if underscore : bool then
              os_rename new (Str.drop_last 1 new) ;;
              ret (Str.drop_last 1 new)
            else ret new) ;;
    undo_set new old ;;
    print (old +:+ " changed to " +:+ new)).

(** The string [withoutAuthors] computes for one file name (strip-to-title),
    without the renames. *)
Definition strip_to_title (book : string) : result string :=
  let noauthor := Re.sub_count Pat.pattern1 EmptyString book 1 in
  let new := withoutAuthors_new noauthor in
  match last_is "_" new with
  | Ok true => Ok (Str.drop_last 1 new)
  | Ok false => Ok new
  | Raise e => Raise e
  end.

(** The articles of [renameBook] in the order of its [if / elif] chain, each
    with the length of the tail of the name that is searched. *)
Definition articles : list (string * nat) :=
  [ ("A", 9); ("An", 10); ("The", 11);
    ("El", 10); ("La", 10); ("Los", 11); ("Las", 11); ("Un", 10);
    ("Una", 11); ("Unos", 12); ("Unas", 12);
    ("Le", 10); ("L'", 10); ("Les", 11); ("Une", 11); ("Des", 11);
    ("Der", 11); ("Die", 11); ("Das", 11); ("Ein", 11); ("Eine", 12) ]%nat.

(** [re.sub("\s-\s", " - Art ", subject, 1)] *)
Definition put_article (art subject : string) : string :=
  Re.sub_count Pat.separator (" - " +:+ art +:+ " ") subject 1.

(** [renameBook(book, pattern)] with [pattern] the subtitle pattern. *)
Fixpoint renameBook_from (arts : list (string * nat)) (book : string)
    : string :=
  match arts with
  | (art, window) :: arts' =>
      if has_article art window book then
        put_article art (drop_article_subtitle art book)
      else renameBook_from arts' book
  | [] => Re.sub_count Pat.pattern2 EmptyString book 1
  end.

Definition renameBook (book : string) : string :=
  renameBook_from articles book.

(** The first loop of [withAuthors]: the dictionary [to_rename]. *)
Fixpoint to_rename_of (books : list string) (to_rename : list (string * string))
    : list (string * string) :=
  match books with
  | [] => to_rename
  | book :: books' =>
      let old := book in
      to_rename_of books'
        (Dict.set old
           (if Str.contains ".kepub" book then
              Str.replace ".epub" ".kepub.epub"
                (renameBook (Str.replace ".kepub" EmptyString book))
            else renameBook book)
           to_rename)
  end.

(** [while True: x = input(prompt); if valid(x): break] read off the pending
    input lines: how many prompts were written, the lines left, and the
    accepted line. *)
Fixpoint ask_until (valid : string -> bool) (lines : list string)
    : nat * list string * result string :=
  match lines with
  | [] => (1%nat, [], Raise EOFError)
  | line :: rest =>
      if valid line then (1%nat, rest, Ok line)
      else let '(n, rest', r) := ask_until valid rest in (S n, rest', r)
  end.

Definition input_until (valid : string -> bool) (prompt : string) : M string :=
  fun w =>
    let '(n, rest, r) := ask_until valid (stdin w) in
    (mkWorld (fs w) (undo w) (stdout w ++ repeat prompt n) rest (renames w),
     r).

Definition one_of (options : list string) (x : string) : bool :=
  existsb (String.eqb x) options.

Definition withAuthors (path : string) (books : list string) : M unit :=
  undo_clear ;;
  let to_rename := to_rename_of books [] in
  for_each to_rename (fun '(old, new) =>
    underscore <- lift (last_is "_" new) ;;
    if underscore : bool then
      undo_set (Str.drop_last 1 new) old ;;
      os_rename old (Str.drop_last 1 new) ;;
      print (old +:+ " changed to " +:+ Str.drop_last 1 new)
    else
      undo_set new old ;;
      try_except
        (os_rename old new ;;
         print (old +:+ " changed to " +:+ new))
        FileExistsError
        (exists_ <- input_until (one_of ["n"; "N"; "o"; "O"])
           (nl +:+ "File with proposed name " +:+ new
            +:+ " already exists. Press N to enter a new filename or O to revert to old filename "
            +:+ old +:+ ": ") ;;
         if one_of ["n"; "N"] exists_ then
           new <- input (nl +:+ "Enter a new filename: ") ;;
           undo_set new old ;;
           os_rename old new ;;
           print (nl +:+ old +:+ " changed to " +:+ new +:+ nl)
         else
           print (nl +:+ "File with name " +:+ old +:+ " not renamed." +:+ nl))) ;;
  print (nl +:+ "Process finished. " +:+ pretty (length to_rename)
         +:+ " filenames renamed with subtitles removed and authors retained.").

(** ** Restoring authors from a second directory *)

(** The local [title2] of [restoreAuthors]: not yet assigned, or the list
    [re.findall] returned, of which only the first element is read. *)
Inductive local (A : Type) : Type :=
| Unbound
| Bound (a : A).
Arguments Unbound {A}.
Arguments Bound {A} a.

(** [re.findall(r"(.+)\.", book)[0:1]] *)
Definition title_of (book : string) : option string :=
  option_map (Str.drop_last 1) (Re.first_match Pat.upto_dot book).

(** [re.findall(r"\.(\w+)", book)[0:1]] *)
Definition extension_of (book : string) : option string :=
  option_map (Str.drop 1) (Re.first_match Pat.dot_word book).

(** [re.findall(r"\s-\s(.+)\.", book)[0:1]] *)
Definition ref_title_of (book : string) : option string :=
  option_map (fun m => Str.drop_last 1 (Str.drop 3 m))
             (Re.first_match Pat.sep_title_dot book).

(** [xs[0]] of a [findall] result. *)
Definition first {A} (xs : option A) : result A :=
  match xs with
  | Some x => Ok x
  | None => Raise IndexError
  end.

(** The inner loop [for book2 in books2] of [restoreAuthors]; it returns the
    locals [title2] and [counter]. *)
Fixpoint restoreAuthors_inner (book1 : string) (title1 extension1 : option string)
    (books2 : list string) (title2 : local (option string)) (counter : nat)
    : M (local (option string) * nat) :=
  match books2 with
  | [] => ret (title2, counter)
  | book2 :: books2' =>
      let title2 :=
        if Pat.book_ext book1 then Bound (ref_title_of book2) else title2 in
      match title2 with
      | Unbound => raise UnboundLocalError
      | Bound None =>
          restoreAuthors_inner book1 title1 extension1 books2' title2 counter
      | Bound (Some t2) =>
          t1 <- lift (first title1) ;;
          if String.eqb t1 t2 then
            stem <- lift (first (Re.first_match Pat.upto_dot book2)) ;;
            ext <- lift (first extension1) ;;
            let new := stem +:+ ext in
            os_rename book1 new ;;
            undo_set new book1 ;;
            print (book1 +:+ " changed to " +:+ new) ;;
            ret (title2, S counter)
          else
            restoreAuthors_inner book1 title1 extension1 books2' title2 counter
      end
  end.

(** [books2] is what [os.listdir(path2)] returns for the path the user
    enters. *)
Definition restoreAuthors (path : string) (books books2 : list string)
    : M unit :=
  undo_clear ;;
  path2 <- input "Enter path to other directory with books to compare: " ;;
  st <- for_fold books (Unbound, 0%nat) (fun '(title2, counter) book1 =>
    let title1 := title_of book1 in
    let extension1 := extension_of book1 in
    st <- restoreAuthors_inner book1 title1 extension1 books2 title2 counter ;;
    print ("Author(s) data not found for " +:+ book1) ;;
    ret st) ;;
  print (nl +:+ "Process finished. Author(s) data restored to "
         +:+ pretty (snd st) +:+ " filenames.").

Definition removeSubstring (path : string) (books : list string) : M unit :=
  undo_clear ;;
  substring <- input "Enter substring to remove from filename(s): " ;;
  counter <- for_fold books 0%nat (fun counter book =>
    if Str.contains substring book then
      let new := Str.replace_count substring EmptyString 1 book in
      os_rename book new ;;
      undo_set new book ;;
      print (book +:+ " changed to " +:+ new) ;;
      ret (S counter)
    else
      print (book +:+ " contains no substring " +:+ substring) ;;
      ret counter) ;;
  print (nl +:+ "Process finished. Substring removed from "
         +:+ pretty counter +:+ " filenames.").

(** ** Undo *)

Definition get_undo : M (list (string * string)) := fun w => (w, Ok (undo w)).

(** The body of the loop of [restoreOld]: one [try / except]. *)
Definition restore_step (path : string) (counter : nat)
    (item : string * string) : M nat :=
  let '(new, old) := item in
  try_except
    (os_rename new old ;; ret (S counter))
    FileNotFoundError
    (print (new +:+ " not found in " +:+ path) ;; ret counter).

Definition restored_line (counter : nat) : string :=
  "Process finished. " +:+ pretty counter +:+ " filenames restored.".

Definition restoreOld (path : string) : M unit :=
  let counter := 0%nat in
  items <- get_undo ;;
  match items with
  | [] => print "No filenames to restore."
  | _ =>
      counter <- for_fold items counter (restore_step path) ;;
      print (restored_line counter)
  end.

(** ** Comparing two directories *)

Module Difflib.
(** [fullbcount]: how often each character occurs in [b]. *)
Fixpoint fullbcount (b : string) (acc : gmap ascii Z) : gmap ascii Z :=
  match b with
  | EmptyString => acc
  | String elt b' => fullbcount b' (<[elt := default 0%Z (acc !! elt) + 1]> acc)%Z
  end.

(** The loop of [quick_ratio] over [a]: [avail] holds the occurrences of
    [b] not yet used up, [matches] the characters of [a] found in [b]. *)
Fixpoint count_matches (a : string) (full avail : gmap ascii Z) (matches : Z)
    : Z :=
  match a with
  | EmptyString => matches
  | String elt a' =>
      let numb :=
        match avail !! elt with
        | Some n => n
        | None => default 0%Z (full !! elt)
        end in
      count_matches a' full (<[elt := (numb - 1)%Z]> avail)
        (if (0 <? numb)%Z then (matches + 1)%Z else matches)
  end.

(** [_calculate_ratio(matches, length)]; the quotient of the two integers
    is kept exact. *)
Definition calculate_ratio (matches : Z) (length : nat) : Q :=
  match length with
  | O => 1%Q
  | S _ => (inject_Z (2 * matches) / inject_Z (Z.of_nat length))%Q
  end.

(** [SequenceMatcher(None, a, b).quick_ratio()] *)
Definition quick_ratio (a b : string) : Q :=
  calculate_ratio (count_matches a (fullbcount b ∅) ∅ 0)
                  (String.length a + String.length b).
End Difflib.

(** The three lists [compareTwoDirs] prints. *)
Record comparison_lists : Type := mkLists {
  identical : list string;
  similar : list (string * string);
  different : list string
}.

(** [index == 1] and [index >= 0.9] *)
Definition is_one (index : Q) : bool := Qeq_bool index 1.
Definition at_least_09 (index : Q) : bool := Qle_bool (9 # 10) index.

(** The loop [for book2 in books2] for one [b1]; the result also carries the
    flag [not_found]. *)
Fixpoint compareTwoDirs_inner (b1 : string) (books2 : list string)
    (acc : comparison_lists) (not_found : bool) : comparison_lists * bool :=
  match books2 with
  | [] => (acc, not_found)
  | book2 :: books2' =>
      if Pat.book_ext book2 then
        let b2 := Pat.base_name book2 in
        let index := Difflib.quick_ratio b1 b2 in
        if is_one index then
          (mkLists (identical acc ++ [b1]) (similar acc) (different acc), false)
        else if at_least_09 index then
          compareTwoDirs_inner b1 books2'
            (mkLists (identical acc) (similar acc ++ [(b1, b2)]) (different acc))
            false
        else compareTwoDirs_inner b1 books2' acc not_found
      else compareTwoDirs_inner b1 books2' acc not_found
  end.

(** [compareTwoDirs] up to its printing, which lists [identical], [similar]
    and [different] in this order; [books2] is [os.listdir(path2)]. *)
Fixpoint compareTwoDirs_from (books books2 : list string)
    (acc : comparison_lists) : comparison_lists :=
  match books with
  | [] => acc
  | book1 :: books' =>
      if Pat.book_ext book1 then
        let b1 := Pat.base_name book1 in
        let '(acc', not_found) := compareTwoDirs_inner b1 books2 acc true in
        compareTwoDirs_from books' books2
          (if not_found : bool
           then mkLists (identical acc') (similar acc') (different acc' ++ [b1])
           else acc')
      else compareTwoDirs_from books' books2 acc
  end.

Definition compareTwoDirs (books books2 : list string) : comparison_lists :=
  compareTwoDirs_from books books2 (mkLists [] [] []).

(** ** Comparing file sizes *)

(** Python's [float] is IEEE 754 binary64: 53 bits of mantissa, results
    rounded to the nearest value, ties to the even mantissa. *)
Module Float.

Definition prec : Z := 53.
Definition emax : Z := 1024.

(** The binary64 nearest to [m * 2 ^ e]. *)
Definition nearest (m e : Z) : spec_float := binary_normalize prec emax m e false.

(** [float(z)] for an [int], as [int * float] converts its left operand;
    [None] is OverflowError, "int too large to convert to float". *)
Definition of_int (z : Z) : option spec_float :=
  match nearest z 0 with
  | S754_infinity _ => None
  | f => Some f
  end.

(** [x * y] *)
Definition mul (x y : spec_float) : spec_float := SFmul prec emax x y.

(** [float(text)] for the decimal [n / 10 ^ digits], as in [float("0.55")]
    with [n = 55] and [digits = 2]: the binary64 nearest to the fraction,
    which is the rounded quotient of [n] and [10 ^ digits] as long as both
    are below [2 ^ 53]. *)
Definition decimal (n : Z) (digits : nat) : spec_float :=
  SFdiv prec emax (nearest n 0) (nearest (10 ^ Z.of_nat digits) 0).

(** [z >= x] for an [int] and a [float]: Python compares the exact
    values. *)
Definition le_int (x : spec_float) (z : Z) : bool :=
  match x with
  | S754_zero _ => (0 <=? z)%Z
  | S754_infinity s => s
  | S754_nan => false
  | S754_finite s m e =>
      let v := if s then Z.neg m else Z.pos m in
      if (0 <=? e)%Z then (v * 2 ^ e <=? z)%Z else (v <=? z * 2 ^ (- e))%Z
  end.

End Float.

(** [size1 > size2 and size1 - size2 >= size1 * share]: the product is
    computed only when the first test holds, in binary64, and compared
    with the exact difference. *)
Definition larger_by (size1 size2 : Z) (share : spec_float) : result bool :=
  if (size2 <? size1)%Z then
    match Float.of_int size1 with
    | Some x => Ok (Float.le_int (Float.mul x share) (size1 - size2))
    | None => Raise OverflowError
    end
  else Ok false.

(** The locals of the search loop that outlive one pass: the bounds and
    [b2], which keeps its last value when [book2] has no book extension. *)
Record search_state : Type := mkSearch {
  lower : Z;
  upper : Z;
  b2 : local string
}.

(** How the [while True] loop of [compareSize] ends for one [book1]. *)
Inductive search_end : Type :=
| Stopped (b2 : local string)                       (* [lower > upper] *)
| Matched (book2 : string) (b2 : local string)      (* [b1 == b2] *)
| Failed (e : exn)
| OutOfFuel.

(** [books2[i]], IndexError outside the list ([i] is never negative here). *)
Definition item (books2 : list string) (i : Z) : option string :=
  if (i <? 0)%Z then None else nth_error books2 (Z.to_nat i).

Fixpoint size_search (fuel : nat) (b1 : string) (books2 : list string)
    (st : search_state) : search_end :=
  match fuel with
  | O => OutOfFuel
  | S fuel' =>
      if (upper st <? lower st)%Z then Stopped (b2 st)
      else
        let mid := ((lower st + upper st) / 2)%Z in
        match item books2 mid with
        | None => Failed IndexError
        | Some book2 =>
            if Pat.book_ext book2 then
              let b2' := Str.lower (Pat.base_name book2) in
              if String.eqb b1 b2' then Matched book2 (Bound b2')
              else if String.ltb b1 b2' then
                size_search fuel' b1 books2
                  (mkSearch (lower st) (mid - 1) (Bound b2'))
              else
                size_search fuel' b1 books2
                  (mkSearch (mid + 1) (upper st) (Bound b2'))
            else
              match b2 st with
              | Unbound => Failed UnboundLocalError
              | Bound x =>
                  if String.ltb b1 x then
                    size_search fuel' b1 books2
                      (mkSearch (lower st) (mid - 1) (b2 st))
                  else
                    size_search fuel' b1 books2
                      (mkSearch (mid + 1) (upper st) (b2 st))
              end
        end
  end.

(** [compareSize] up to the sort and the printing of [identical]; each entry
    is [(size1, size2, name)], the percentage column being a function of the
    two sizes.  [size1] and [size2] are [os.path.getsize] in the two
    directories, [books2] is [os.listdir(path2)].  The interval
    [lower .. upper] shrinks with every pass, so a fuel of
    [length books2 + 2] is never used up. *)
Fixpoint compareSize_from (books books2 : list string) (size1 size2 : string -> Z)
    (share : spec_float) (b2 : local string) (identical : list (Z * Z * string))
    : result (list (Z * Z * string)) :=
  match books with
  | [] => Ok identical
  | book1 :: books' =>
      if Pat.book_ext book1 then
        let b1 := Str.lower (Pat.base_name book1) in
        match size_search (length books2 + 2) b1 books2
                (mkSearch 0 (Z.of_nat (length books2)) b2) with
        | Stopped b2' =>
            compareSize_from books' books2 size1 size2 share b2' identical
        | Matched book2 b2' =>
            match larger_by (size1 book1) (size2 book2) share with
            | Ok true =>
                compareSize_from books' books2 size1 size2 share b2'
                  (identical
                   ++ [(size1 book1, size2 book2, Pat.base_name book1)])
            | Ok false =>
                compareSize_from books' books2 size1 size2 share b2' identical
            | Raise e => Raise e
            end
        | Failed e => Raise e
        | OutOfFuel => Raise IndexError
        end
      else compareSize_from books' books2 size1 size2 share b2 identical
  end.

Definition compareSize (books books2 : list string) (size1 size2 : string -> Z)
    (share : spec_float) : result (list (Z * Z * string)) :=
  compareSize_from books books2 size1 size2 share Unbound [].

(** ** Sessions used in the examples *)

(** A session whose working directory holds [names], with an empty undo
    dictionary and [lines] waiting on the console. *)
Definition session (names : list string) (lines : list string) : World :=
  mkWorld (list_to_set names) [] [] lines [].

(** The same world with an empty undo dictionary. *)
Definition forget_undo (w : World) : World :=
  mkWorld (fs w) [] (stdout w) (stdin w) (renames w).

Definition books_dir : string := "C:\books\".

(** ** The file-name grammar of [withoutAuthors] *)

(** [Authors - Title[_ Subtitle][, Article].ext] *)
Record book_name : Type := mkName {
  authors : string;
  title : string;
  subtitle : option string;
  article : option string;
  ext : string
}.

Definition subtitle_part (n : book_name) : string :=
  match subtitle n with
  | Some s => "_ " +:+ s
  | None => EmptyString
  end.

Definition article_part (n : book_name) : string :=
  match article n with
  | Some a => ", " +:+ a
  | None => EmptyString
  end.

(** Title and subtitle, as they stand in the name. *)
Definition stem (n : book_name) : string := title n +:+ subtitle_part n.

(** The file name the segments spell. *)
Definition render (n : book_name) : string :=
  authors n +:+ " - " +:+ stem n +:+ article_part n +:+ "." +:+ ext n.

(** The title with its article in front. *)
Definition out_title (n : book_name) : string :=
  match article n with
  | Some a => a +:+ " " +:+ title n
  | None => title n
  end.

(** [[Article ]Title.ext], what strip-to-title is meant to leave. *)
Definition stripped (n : book_name) : string :=
  out_title n +:+ "." +:+ ext n.

(** Every character of [s] is in the class [p]. *)
Fixpoint all_chars (p : ascii -> bool) (s : string) : bool :=
  match s with
  | EmptyString => true
  | String c s' => p c && all_chars p s'
  end.

Definition is_dot (c : ascii) : bool := Ascii.eqb "." c.
Definition is_underscore (c : ascii) : bool := Ascii.eqb "_" c.

(** No line feed, so that [.] matches every character. *)
Definition plain (s : string) : bool := all_chars Re.dot s.
Definition no_dot (s : string) : bool := all_chars (fun c => negb (is_dot c)) s.

(** [s] begins with whitespace, hyphen, whitespace. *)
Definition starts_sep (s : string) : bool :=
  match s with
  | String a (String b (String c _)) =>
      Re.is_space a && Ascii.eqb "-" b && Re.is_space c
  | _ => false
  end.

(** Whitespace, hyphen, whitespace occurs in [s]. *)
Fixpoint has_separator (s : string) : bool :=
  starts_sep s ||
  match s with
  | String _ s' => has_separator s'
  | EmptyString => false
  end.

(** The first character of [s] is whitespace. *)
Definition first_space (s : string) : bool :=
  match s with
  | String d _ => Re.is_space d
  | EmptyString => false
  end.

(** [s] begins with underscores followed by whitespace: the subtitle
    marker. *)
Fixpoint starts_marker (s : string) : bool :=
  match s with
  | String c s' => is_underscore c && (first_space s' || starts_marker s')
  | EmptyString => false
  end.

(** The subtitle marker occurs in [s]. *)
Fixpoint has_marker (s : string) : bool :=
  starts_marker s ||
  match s with
  | String _ s' => has_marker s'
  | EmptyString => false
  end.

(** [s.endswith(t)] *)
Definition endswith (t s : string) : bool :=
  String.eqb (Str.take_last (String.length t) s) t.

(** [s] does not end with one of the article forms [withoutAuthors] moves. *)
Definition tail_free (s : string) : bool :=
  negb (endswith ", A" s) && negb (endswith ", An" s)
  && negb (endswith ", The" s).

Definition nonempty (s : string) : bool :=
  match s with EmptyString => false | String _ _ => true end.

Definition on_option (p : string -> bool) (o : option string) : bool :=
  match o with Some s => p s | None => true end.

(** The segments are unambiguous: the authors end at the first separator and
    the title holds none, also behind its article; title and subtitle hold
    no dot and no line feed; the title holds no subtitle marker and does not
    end with an underscore; the article is one of those [withoutAuthors]
    moves and the extension one of those [getBooks] lists; the title with
    its article in front, and title and subtitle when no article follows,
    do not end with an article form. *)
Definition well_formed (n : book_name) : bool :=
  nonempty (authors n) && plain (authors n)
  && negb (has_separator (authors n +:+ " -"))
  && nonempty (title n) && plain (title n) && no_dot (title n)
  && on_option (fun s => nonempty s && plain s && no_dot s) (subtitle n)
  && on_option (one_of ["A"; "An"; "The"]) (article n)
  && one_of ["pdf"; "azw"; "epub"; "mobi"] (ext n)
  && negb (has_separator (out_title n))
  && negb (has_marker (out_title n +:+ " "))
  && tail_free (out_title n)
  && match article n with None => tail_free (stem n) | Some _ => true end.

(** The character before the position reached after reading [a]. *)
Fixpoint last_of (prev : option ascii) (a : string) : option ascii :=
  match a with
  | EmptyString => prev
  | String c a' => last_of (Some c) a'
  end.

(** No match of [r] starts at the head of [s]. *)
Definition unmatched (r : Re.regex) (s : string) : Prop :=
  forall prev, Re.match_here r prev s = None.

(** [", Art."], the text the article patterns look for. *)
Definition tail_text (art : string) : string := ", " +:+ art +:+ ".".

Definition no_comma (s : string) : bool :=
  all_chars (fun c => negb (Ascii.eqb "," c)) s.

Definition no_space (s : string) : bool := all_chars Re.not_space s.

(** Parts of the patterns, and what follows them while matching. *)

(** What follows [_+] in the subtitle pattern. *)
Definition after_underscores {R : Type}
    (k : option ascii -> string -> option R)
    : option ascii -> string -> option R :=
  fun p s =>
    Re.exec (Re.Seq (Re.Cls Re.is_space)
               (Re.Seq (Re.Plus Re.dot) (Re.Ahead (Ascii.eqb "."))))
            p s k.

Definition ahead_dot : option ascii -> string -> option string :=
  fun p s => Re.exec (Re.Ahead (Ascii.eqb ".")) p s (fun _ rest => Some rest).

(** The part of the article pattern after [.+]. *)
Definition tail_pattern (art : string) : Re.regex :=
  Re.Seq (Re.lits ", ") (Re.Seq (Re.lits art) (Re.Lit ".")).


(** ** Reading the result of [compareTwoDirs] *)

(** The similarity index of [b1] and the base name of [book2]. *)
Definition index_of (b1 book2 : string) : Q :=
  Difflib.quick_ratio b1 (Pat.base_name book2).

(** Number of occurrences of a character. *)
Fixpoint occurrences (c : ascii) (s : string) : Z :=
  match s with
  | EmptyString => 0
  | String c' s' => (if Ascii.eqb c c' then 1 else 0) + occurrences c s'
  end.

(** What [quick_ratio] reads for a character: [avail] if it has an entry,
    [fullbcount] otherwise. *)
Definition available (full avail : gmap ascii Z) (c : ascii) : Z :=
  match avail !! c with
  | Some n => n
  | None => default 0%Z (full !! c)
  end.

(** [book2] is a book file whose index with [b1] is 1, or at least 0.9. *)
Definition hit_one (b1 book2 : string) : bool :=
  Pat.book_ext book2 && is_one (index_of b1 book2).

Definition hit_09 (b1 book2 : string) : bool :=
  Pat.book_ext book2 && at_least_09 (index_of b1 book2).

(** The pair of [b1] and [book2] is compared, after the entries [pre], and
    found similar. *)
Definition found_similar (b1 : string) (pre : list string) (book2 : string)
    : Prop :=
  Pat.book_ext book2 = true
  /\ at_least_09 (index_of b1 book2) = true
  /\ is_one (index_of b1 book2) = false
  /\ Forall (fun b => hit_one b1 b = false) pre.

(** A book file of the first listing, with its base name. *)
Definition book_of (books : list string) (b1 : string) : Prop :=
  exists book1, In book1 books /\ Pat.book_ext book1 = true
                /\ b1 = Pat.base_name book1.

(** ** The order [compareSize] relies on *)

(** The key [compareSize] searches by: the lowered base name. *)
Definition size_key (book : string) : string := Str.lower (Pat.base_name book).

(** The second listing is sorted by key, strictly. *)
Fixpoint strictly_sorted (books2 : list string) : bool :=
  match books2 with
  | x :: ((y :: _) as rest) =>
      String.ltb (size_key x) (size_key y) && strictly_sorted rest
  | _ => true
  end.

(** ** Reading the trace of rename calls *)

(** The pair a rename call was made for, whether it went through, and
    whether it failed for want of the source file. *)
Definition call_pair (c : rename_call) : string * string :=
  (rc_src c, rc_dst c).

Definition succeeded (c : rename_call) : bool :=
  match rc_error c with None => true | Some _ => false end.

Definition missing (c : rename_call) : bool :=
  match rc_error c with Some FileNotFoundError => true | _ => false end.

(** The lines [restoreOld] prints for the calls that found no file. *)
Definition not_found_lines (path : string) (calls : list rename_call)
    : list string :=
  map (fun c => rc_src c +:+ " not found in " +:+ path)
      (List.filter missing calls).

(** [Replay dir calls dir']: made one after the other on the directory
    [dir], the calls have the outcomes they record, each is either a success
    or a missing source, and they leave the directory [dir']. *)
Inductive Replay : gset string -> list rename_call -> gset string -> Prop :=
| Replay_nil dir : Replay dir [] dir
| Replay_ok dir dir1 dir' src dst calls :
    rename_outcome dir src dst = Ok dir1 ->
    Replay dir1 calls dir' ->
    Replay dir (RenameCall src dst None :: calls) dir'
| Replay_missing dir dir' src dst calls :
    src ∉ dir ->
    Replay dir calls dir' ->
    Replay dir (RenameCall src dst (Some FileNotFoundError) :: calls) dir'.

(** ** The collections database of a Kobo device *)

(** How [binarySearch] ends: it returns [item], it returns [False], an index
    is out of range, or the fuel of the model is used up. *)
Inductive search_result : Type :=
| Found (item : string)
| NotFound
| BadIndex
| NoFuel.

(** The loop [while high > low] of [binarySearch]. *)
Fixpoint binarySearch_loop (fuel : nat) (iterable : list string)
    (item_ : string) (low high : Z) : search_result :=
  match fuel with
  | O => NoFuel
  | S fuel' =>
      if (low <? high)%Z then
        let mid := ((low + high) / 2)%Z in
        match item iterable mid with
        | None => BadIndex
        | Some x =>
            if String.eqb x item_ then Found item_
            else if String.ltb x item_ then
              binarySearch_loop fuel' iterable item_ (mid + 1) high
            else binarySearch_loop fuel' iterable item_ low mid
        end
      else NotFound
  end.

(** [binarySearch(iterable, item)]; the interval [low .. high] shrinks with
    every pass, so a fuel above the length is never used up. *)
Definition binarySearch (iterable : list string) (item_ : string)
    : search_result :=
  binarySearch_loop (S (length iterable)) iterable item_ 0
    (Z.of_nat (length iterable)).

(** [not binarySearch(books_sorted, book)]: the item that is returned when
    found is a string, and the empty string is false. *)
Definition not_binarySearch (iterable : list string) (item_ : string)
    : result bool :=
  match binarySearch iterable item_ with
  | Found x => Ok (negb (nonempty x))
  | NotFound => Ok true
  | BadIndex => Raise IndexError
  | NoFuel => Raise IndexError
  end.

(** [sorted(books)]: ascending by [<] on strings.  An element goes in front
    of the elements that are not smaller. *)
Fixpoint insert_sorted (x : string) (xs : list string) : list string :=
  match xs with
  | [] => [x]
  | y :: ys => if String.leb x y then x :: xs else y :: insert_sorted x ys
  end.

Fixpoint sorted (xs : list string) : list string :=
  match xs with
  | [] => []
  | x :: xs' => insert_sorted x (sorted xs')
  end.

(** [.+/] *)
Definition upto_slash : Re.regex := Re.Seq (Re.Plus Re.dot) (Re.Lit "/").

(** [re.sub(r".+/", EMPTY, row[1])], EMPTY the empty string *)
Definition db_filename (content_id : string) : string :=
  Re.sub upto_slash EmptyString content_id.

(** [if device[-1] != "\\": device = device + "\\"], also the body of
    [getPath]. *)
Definition with_backslash (device : string) : result string :=
  match Str.last device with
  | None => Raise IndexError
  | Some c => Ok (if Ascii.eqb c "\" then device else device +:+ "\")
  end.

(** [checkCollectionsDB(books)]; [rows] is what
    [SELECT ShelfName, ContentId FROM ShelfContent] returns. *)
Definition checkCollectionsDB (books : list string)
    (rows : list (string * string)) : M unit :=
  device <- input "Enter path to the main directory of Kobo device: " ;;
  device <- lift (with_backslash device) ;;
  let books_sorted := sorted books in
  print nl ;;
  counter <- for_fold rows 0%nat (fun counter row =>
    let book := db_filename (snd row) in
    absent <- lift (not_binarySearch books_sorted book) ;;
    if absent : bool then
      print ("Entry " +:+ book +:+ " from collection " +:+ fst row
             +:+ " not found in book filenames on device.") ;;
      ret (S counter)
    else ret counter) ;;
  print (nl +:+ "Process finished. " +:+ pretty counter
         +:+ " entries not found in book filenames on device.").

(** [while True: x = input(prompt); if valid(x): break
    else: print(complaint)] read off the pending input lines: what is
    written, the lines left, and the accepted line. *)
Fixpoint ask_or_complain (valid : string -> bool) (prompt complaint : string)
    (lines : list string) : list string * list string * result string :=
  match lines with
  | [] => ([prompt], [], Raise EOFError)
  | line :: rest =>
      if valid line then ([prompt], rest, Ok line)
      else
        let '(out, rest', r) := ask_or_complain valid prompt complaint rest in
        (prompt :: complaint :: out, rest', r)
  end.

Definition input_or_complain (valid : string -> bool)
    (prompt complaint : string) : M string :=
  fun w =>
    let '(out, rest, r) :=
      ask_or_complain valid prompt complaint (stdin w) in
    (mkWorld (fs w) (undo w) (stdout w ++ out) rest (renames w), r).

(** [DELETE FROM ShelfContent WHERE ContentId = ?] on the rows of the
    table. *)
Definition delete_content (content_id : string)
    (table : list (string * string)) : list (string * string) :=
  List.filter (fun row => negb (String.eqb (snd row) content_id)) table.

(** [cleanCollectionsDB(books)]; [rows] is the table [ShelfContent], which
    the [SELECT] returns whole; the result is the table that is committed. *)
Definition cleanCollectionsDB (books : list string)
    (rows : list (string * string)) : M (list (string * string)) :=
  device <- input "Enter path to the main directory of Kobo device: " ;;
  device <- lift (with_backslash device) ;;
  let books_sorted := sorted books in
  backup <- input_or_complain (one_of ["Y"; "N"; "y"; "n"])
              (nl +:+ "Create a backup of KoboReader.sqlite database? Y/N ")
              "Enter a valid choice." ;;
  (if one_of ["Y"; "y"] backup then
     print (nl +:+ "Creating backup of KoboReader.sqlite database...") ;;
     print ("Backup of KoboReader.sqlite database created in location "
            +:+ device +:+ ".kobo\KoboReader - Copy.sqlite")
   else ret tt) ;;
  print nl ;;
  st <- for_fold rows (0%nat, rows) (fun st row =>
    let '(counter, table) := st in
    let book := db_filename (snd row) in
    absent <- lift (not_binarySearch books_sorted book) ;;
    if absent : bool then
      let table := delete_content (snd row) table in
      print ("Entry " +:+ book +:+ " from collection " +:+ fst row
             +:+ " removed from database.") ;;
      ret (S counter, table)
    else ret (counter, table)) ;;
  print (nl +:+ "Process finished. " +:+ pretty (fst st)
         +:+ " entries removed from collections.") ;;
  ret (snd st).

(** The list is in ascending order. *)
Fixpoint ascending (xs : list string) : bool :=
  match xs with
  | x :: ((y :: _) as rest) => String.leb x y && ascending rest
  | _ => true
  end.

(** The row is not accounted for by the book names: its file name is not
    among them, or is empty. *)
Definition stale (books : list string) (row : string * string) : bool :=
  negb (existsb (String.eqb (db_filename (snd row))) books)
  || negb (nonempty (db_filename (snd row))).

Definition check_line (row : string * string) : string :=
  "Entry " +:+ db_filename (snd row) +:+ " from collection " +:+ fst row
  +:+ " not found in book filenames on device.".

Definition clean_line (row : string * string) : string :=
  "Entry " +:+ db_filename (snd row) +:+ " from collection " +:+ fst row
  +:+ " removed from database.".

(** What the backup question of [cleanCollectionsDB] writes when the lines
    [bad] are turned down before an answer is accepted, and what follows
    the answer [backup] for the device path [device]. *)
Definition backup_prompt : string :=
  nl +:+ "Create a backup of KoboReader.sqlite database? Y/N ".

Definition backup_dialogue (bad : list string) : list string :=
  flat_map (fun _ => [backup_prompt; "Enter a valid choice."]) bad
  ++ [backup_prompt].

Definition backup_lines (device backup : string) : list string :=
  if one_of ["Y"; "y"] backup then
    [nl +:+ "Creating backup of KoboReader.sqlite database...";
     "Backup of KoboReader.sqlite database created in location "
     +:+ device +:+ ".kobo\KoboReader - Copy.sqlite"]
  else [].

(** The row is not removed by the deletions made for the stale rows of
    [rows]. *)
Definition survives (books : list string) (rows : list (string * string))
    (r : string * string) : bool :=
  negb (existsb (fun p => stale books p && String.eqb (snd r) (snd p)) rows).

Definition no_slash (s : string) : bool :=
  all_chars (fun c => negb (Ascii.eqb "/" c)) s.

(** ** Reading the result of [compareSize] *)

(** An entry of the result stands for a book file of the first listing and a
    book file of the second with the same key, the first the larger, and the
    binary64 product of its size and the share not above the difference of
    the sizes. *)
Definition report_of (books books2 : list string) (size1 size2 : string -> Z)
    (share : spec_float) (entry : Z * Z * string) : Prop :=
  exists book1 book2,
    In book1 books /\ In book2 books2
    /\ Pat.book_ext book1 = true /\ Pat.book_ext book2 = true
    /\ size_key book1 = size_key book2
    /\ entry = (size1 book1, size2 book2, Pat.base_name book1)
    /\ (size2 book2 < size1 book1)%Z
    /\ exists x,
         Float.of_int (size1 book1) = Some x
         /\ Float.le_int (Float.mul x share) (size1 book1 - size2 book2)
            = true.

(** [books2[len(books2) // 2]], the entry the search reads first. *)
Definition middle (books2 : list string) : option string :=
  item books2 (Z.of_nat (length books2) / 2).

(** ** Comparing within one directory *)

(** The loop [for book2 in books] of [compareWithinDir] for one [book1]. *)
Fixpoint compareWithinDir_inner (book1 b1 : string) (books : list string)
    (similar : list (string * string)) : list (string * string) :=
  match books with
  | [] => similar
  | book2 :: books' =>
      if negb (String.eqb book1 book2) && Pat.book_ext book2 then
        let b2 := Pat.base_name book2 in
        let index := Difflib.quick_ratio b1 b2 in
        compareWithinDir_inner book1 b1 books'
          (if at_least_09 index then similar ++ [(b1, b2)] else similar)
      else compareWithinDir_inner book1 b1 books' similar
  end.

(** [compareWithinDir] up to its printing, which lists [similar]. *)
Fixpoint compareWithinDir_from (books all : list string)
    (similar : list (string * string)) : list (string * string) :=
  match books with
  | [] => similar
  | book1 :: books' =>
      if Pat.book_ext book1 then
        let b1 := Pat.base_name book1 in
        compareWithinDir_from books' all
          (compareWithinDir_inner book1 b1 all similar)
      else compareWithinDir_from books' all similar
  end.

Definition compareWithinDir (books : list string) : list (string * string) :=
  compareWithinDir_from books books [].

(** ** Counting characters *)

(** The 256 characters. *)
Definition all_ascii : list ascii := map ascii_of_nat (seq 0 256).

Fixpoint sum_over (f : ascii -> Z) (cs : list ascii) : Z :=
  match cs with
  | [] => 0
  | c :: cs' => f c + sum_over f cs'
  end.

(** The sum of [f] over all characters. *)
Definition total (f : ascii -> Z) : Z := sum_over f all_ascii.

(** The characters two strings share, each counted as often as it occurs in
    both. *)
Definition common (a b : string) : Z :=
  total (fun c => Z.min (occurrences c a) (occurrences c b)).

(** The pair of two different book files of the listing, by base name, with
    a similarity index of at least 0.9. *)
Definition similar_pair (books : list string) (pair : string * string)
    : Prop :=
  exists book1 book2,
    In book1 books /\ In book2 books /\ book1 <> book2
    /\ Pat.book_ext book1 = true /\ Pat.book_ext book2 = true
    /\ pair = (Pat.base_name book1, Pat.base_name book2)
    /\ at_least_09
         (Difflib.quick_ratio (Pat.base_name book1) (Pat.base_name book2))
       = true.

(** ** Reading the results of the normalisation passes *)

(** Truth value of [[A-Za-z]] on the character before the position. *)
Definition alpha_before (prev : option ascii) : bool :=
  match prev with Some p => Re.is_alpha p | None => false end.

(** The first character of [s] is a letter. *)
Definition first_alpha (s : string) : bool :=
  match s with String d _ => Re.is_alpha d | EmptyString => false end.

(** Every underscore between two letters becomes an apostrophe. *)
Fixpoint apostrophes (prev : option ascii) (s : string) : string :=
  match s with
  | EmptyString => EmptyString
  | String c s' =>
      String (if alpha_before prev && Ascii.eqb "_" c && first_alpha s'
              then "'"%char else c)
             (apostrophes (Some c) s')
  end.

(** [s] begins with a letter, an underscore and a letter. *)
Definition starts_letter_us_letter (s : string) : bool :=
  match s with
  | String a (String b (String c _)) =>
      Re.is_alpha a && Ascii.eqb "_" b && Re.is_alpha c
  | _ => false
  end.

(** A letter, an underscore and a letter follow one another in [s]. *)
Fixpoint has_letter_us_letter (s : string) : bool :=
  starts_letter_us_letter s ||
  match s with
  | String _ s' => has_letter_us_letter s'
  | EmptyString => false
  end.

(** The number of whitespace characters [s] begins with. *)
Fixpoint leading_spaces (s : string) : nat :=
  match s with
  | String c s' => if Re.is_space c then S (leading_spaces s') else 0%nat
  | EmptyString => 0%nat
  end.

(** Every run of two or more whitespace characters becomes one space;
    [skipping] holds inside such a run. *)
Fixpoint squeeze (skipping : bool) (s : string) : string :=
  match s with
  | EmptyString => EmptyString
  | String c s' =>
      if skipping then
        if Re.is_space c then squeeze true s' else String c (squeeze false s')
      else if Re.is_space c && first_space s' then
        String " " (squeeze true s')
      else String c (squeeze false s')
  end.

(** Two whitespace characters follow one another in [s]. *)
Fixpoint has_two_spaces (s : string) : bool :=
  match s with
  | String c s' => (Re.is_space c && first_space s') || has_two_spaces s'
  | EmptyString => false
  end.

(** The characters of [s] that are not whitespace. *)
Fixpoint nonspaces (s : string) : string :=
  match s with
  | String c s' =>
      if Re.is_space c then nonspaces s' else String c (nonspaces s')
  | EmptyString => EmptyString
  end.

(** [n] spaces. *)
Fixpoint spaces (n : nat) : string :=
  match n with
  | O => EmptyString
  | S n' => String " " (spaces n')
  end.

(** A space goes behind every comma. *)
Fixpoint space_after_commas (s : string) : string :=
  match s with
  | EmptyString => EmptyString
  | String c s' =>
      if Ascii.eqb "," c then String "," (String " " (space_after_commas s'))
      else String c (space_after_commas s')
  end.

(** The first character of [s] is not whitespace. *)
Definition first_nonspace (s : string) : bool :=
  match s with String d _ => Re.not_space d | EmptyString => false end.

(** A comma is followed by a character that is not whitespace. *)
Fixpoint has_comma_nonspace (s : string) : bool :=
  match s with
  | String c s' => (Ascii.eqb "," c && first_nonspace s') || has_comma_nonspace s'
  | EmptyString => false
  end.

(** ** Undoing a pass *)

(** The renames a pass makes, as pairs [(new, old)]: one for each book that
    passes [guard], to the name [rn] gives it. *)
Definition plan_of (guard : string -> bool) (rn : string -> string)
    (books : list string) : list (string * string) :=
  flat_map (fun book => if guard book then [(rn book, book)] else []) books.

(** No string occurs twice. *)
Fixpoint distinct (xs : list string) : bool :=
  match xs with
  | [] => true
  | x :: xs' => negb (existsb (String.eqb x) xs') && distinct xs'
  end.

(** The renames do not get in each other's way: no new name is planned
    twice and no old name is renamed twice, every old name is a file of the
    directory and no new name is, and no name is empty. *)
Definition clean_plan (dir : gset string) (plan : list (string * string))
    : bool :=
  distinct (map fst plan) && distinct (map snd plan)
  && forallb (fun p => bool_decide (snd p ∈ dir)
                       && negb (bool_decide (fst p ∈ dir))
                       && nonempty (fst p) && nonempty (snd p)) plan.

(** The directory after the renames of a clean plan. *)
Definition renamed (dir : gset string) (plan : list (string * string))
    : gset string :=
  (dir ∖ list_to_set (map snd plan)) ∪ list_to_set (map fst plan).

(** ** Listing the books of a directory *)

(** [$]: the end of the subject, or the line feed that ends it. *)
Definition at_end (s : string) : bool :=
  match s with
  | EmptyString => true
  | String c EmptyString => Ascii.eqb c "010"
  | String _ (String _ _) => false
  end.

(** Truth value of [re.search(r$, s)] for a pattern [r] of the fragment. *)
Fixpoint found_at_end_from (r : Re.regex) (prev : option ascii) (s : string)
    : bool :=
  match Re.exec r prev s
          (fun _ rest => if at_end rest then Some tt else None) with
  | Some _ => true
  | None =>
      match s with
      | String c s' => found_at_end_from r (Some c) s'
      | EmptyString => false
      end
  end.

Definition found_at_end (r : Re.regex) (s : string) : bool :=
  found_at_end_from r None s.

(** [.pdf], [.azw], [.epub], [.mobi]: the dot is not escaped and stands
    for any character. *)
Definition any_ext (ext : string) : Re.regex :=
  Re.Seq (Re.Cls Re.dot) (Re.lits ext).

(** The test of [getBooks]:
    [re.search(r".pdf$", book) or ... r".azw$" ... r".epub$" ... r".mobi$"] *)
Definition listed (book : string) : bool :=
  found_at_end (any_ext "pdf") book
  || found_at_end (any_ext "azw") book
  || found_at_end (any_ext "epub") book
  || found_at_end (any_ext "mobi") book.

(** [books.remove(book)]: the first occurrence is taken out; [None] is
    ValueError, when there is none. *)
Fixpoint list_remove (book : string) (books : list string)
    : option (list string) :=
  match books with
  | [] => None
  | x :: books' =>
      if String.eqb x book then Some books'
      else option_map (cons x) (list_remove book books')
  end.

(** The loop [for book in books[:]] of [getBooks], over the copy. *)
Fixpoint getBooks_loop (copy books : list string) : option (list string) :=
  match copy with
  | [] => Some books
  | book :: copy' =>
      if listed book then getBooks_loop copy' books
      else
        match list_remove book books with
        | Some books' => getBooks_loop copy' books'
        | None => None
        end
  end.

(** [getBooks(path)]; [listing] is what [os.listdir(path)] returns. *)
Definition getBooks (listing : list string) : option (list string) :=
  getBooks_loop listing listing.

(** [book] ends with a character that is not a line feed and [ext], and
    possibly a line feed after them. *)
Definition ends_with_ext (ext book : string) : Prop :=
  exists (stem : string) (c : ascii) (tail : string),
    book = stem +:+ String c ext +:+ tail
    /\ Re.dot c = true /\ at_end tail = true.

(** The first character of [s] is a dot. *)
Definition first_dot (s : string) : bool :=
  match s with String c _ => is_dot c | EmptyString => false end.

(** ** The file-name grammar of [withAuthors] *)

(** The segments are unambiguous for [renameBook]: the authors end at the
    first separator and hold no dot; no subtitle marker stands in front of
    the subtitle; title and subtitle hold no dot and no line feed; the
    article is one of those [renameBook] moves and the extension one of those
    [getBooks] lists; a name without article does not end with an article
    form. *)
Definition well_formed_with_authors (n : book_name) : bool :=
  nonempty (authors n) && plain (authors n) && no_dot (authors n)
  && negb (has_separator (authors n +:+ " -"))
  && negb (has_marker (authors n +:+ " - " +:+ title n +:+ " "))
  && nonempty (title n) && plain (title n) && no_dot (title n)
  && on_option (fun s => nonempty s && plain s && no_dot s) (subtitle n)
  && on_option (fun a => existsb (String.eqb a) (map fst articles)) (article n)
  && one_of ["pdf"; "azw"; "epub"; "mobi"] (ext n)
  && match article n with
     | None =>
         forallb (fun p => negb (endswith (", " +:+ fst p)
                                   (authors n +:+ " - " +:+ stem n)))
                 articles
     | Some _ => true
     end.

(** [Authors - [Article ]Title.ext], what [renameBook] is meant to return. *)
Definition without_subtitle (n : book_name) : string :=
  authors n +:+ " - " +:+ out_title n +:+ "." +:+ ext n.

(** The name of the book [n] as a Kobo file: [.kepub.epub] for [.epub]. *)
Definition render_kepub (n : book_name) : string :=
  authors n +:+ " - " +:+ stem n +:+ article_part n +:+ ".kepub.epub".

(** The name of the book [n] once the authors are taken off. *)
Definition without_authors (n : book_name) : string :=
  stem n +:+ article_part n +:+ "." +:+ ext n.

(** ** Reading a name that went through strip-to-title *)

(** [s] begins with whitespace and holds a character behind it. *)
Definition spaced (s : string) : bool :=
  match s with
  | String w (String _ _) => Re.is_space w
  | _ => false
  end.

(** [s] begins with underscores, whitespace and one more character: where
    the subtitle pattern matches when a dot follows on the line. *)
Fixpoint marked (s : string) : bool :=
  match s with
  | String c s' => is_underscore c && (marked s' || spaced s')
  | EmptyString => false
  end.

(** Some suffix of [s] is [marked]. *)
Fixpoint has_marked (s : string) : bool :=
  marked s ||
  match s with
  | String _ s' => has_marked s'
  | EmptyString => false
  end.

(** [s] up to the first suffix that is [marked]. *)
Fixpoint cut (s : string) : string :=
  if marked s then EmptyString
  else
    match s with
    | String c s' => String c (cut s')
    | EmptyString => EmptyString
    end.

(** [, Art.] stands in the last [window] characters of [name], behind at
    least one of them: where [re.search(r".+(, Art)\.", name[-window:])]
    finds it. *)
Definition article_in_tail (art : string) (window : nat) (name : string)
    : bool :=
  Str.contains (tail_text art) (Str.drop 1 (Str.take_last window name)).

(** Nothing is left in [name] for strip-to-title to take: no separator
    behind its first character, and none of the three article forms in
    the tail that is searched for it. *)
Definition settled (name : string) : bool :=
  negb (has_separator (Str.drop 1 name))
  && negb (article_in_tail "A" 9 name)
  && negb (article_in_tail "An" 10 name)
  && negb (article_in_tail "The" 11 name).

(** * Properties *)

(** ** The examples of the documentation, run on the model *)

Example spacing_example :
  fs (fst (removeMultipleSpacing books_dir ["Book   Name  .epub"]
             (session ["Book   Name  .epub"] [])))
  = {[ "Book Name.epub" ]}.
Proof. vm_compute. reflexivity. Qed.

Example comma_examples :
  fs (fst (fixCommaSpacing books_dir ["Smith , John.pdf"; "10,000 Leagues.pdf"]
             (session ["Smith , John.pdf"; "10,000 Leagues.pdf"] [])))
  = {[ "Smith, John.pdf"; "10,000 Leagues.pdf" ]}.
Proof. vm_compute. reflexivity. Qed.

Example apostrophe_example :
  fs (fst (fixApostrophes books_dir ["Don_t Look Up.mobi"]
             (session ["Don_t Look Up.mobi"] [])))
  = {[ "Don't Look Up.mobi" ]}.
Proof. vm_compute. reflexivity. Qed.

Example article_examples :
  strip_to_title "Smith, John - Great War_ A History, The.epub"
  = Ok "The Great War.epub"
  /\ renameBook "Smith, John - Great War_ A History, The.epub"
     = "Smith, John - The Great War.epub".
Proof. split; vm_compute; reflexivity. Qed.

Example restore_authors_examples :
  ref_title_of "Petzold, Charles - Code.epub" = Some "Code"
  /\ ref_title_of "Deibert, Ronald - Black Code.epub" = Some "Black Code"
  /\ title_of "Code.epub" = Some "Code".
Proof. repeat split; vm_compute; reflexivity. Qed.

(** ** The undo dictionary *)

Section Ledger.

Variable path : string.
Variable books books2 : list string.

(** C4: every destructive operation clears the undo dictionary before it
    records anything: what it does, and the dictionary it leaves, do not
    depend on the entries that were there before, so afterwards the
    dictionary holds only what this operation wrote; run on no file at all
    it leaves the dictionary empty. *)
Theorem undo_cleared_at_start :
  forall w : World,
    (removeMultipleSpacing path books w
       = removeMultipleSpacing path books (forget_undo w)
     /\ fixCommaSpacing path books w
       = fixCommaSpacing path books (forget_undo w)
     /\ fixApostrophes path books w
       = fixApostrophes path books (forget_undo w)
     /\ withoutAuthors path books w
       = withoutAuthors path books (forget_undo w)
     /\ withAuthors path books w
       = withAuthors path books (forget_undo w)
     /\ restoreAuthors path books books2 w
       = restoreAuthors path books books2 (forget_undo w)
     /\ removeSubstring path books w
       = removeSubstring path books (forget_undo w))
    /\ (undo (fst (removeMultipleSpacing path [] w)) = []
        /\ undo (fst (fixCommaSpacing path [] w)) = []
        /\ undo (fst (fixApostrophes path [] w)) = []
        /\ undo (fst (withoutAuthors path [] w)) = []
        /\ undo (fst (withAuthors path [] w)) = []
        /\ undo (fst (restoreAuthors path [] books2 w)) = []
        /\ undo (fst (removeSubstring path [] w)) = []).
Proof.
  intros w. split.
  - repeat split; reflexivity.
  - repeat split; try reflexivity.
    + unfold restoreAuthors, bind, undo_clear, input; simpl.
      destruct (stdin w); reflexivity.
    + unfold removeSubstring, bind, undo_clear, input; simpl.
      destruct (stdin w); reflexivity.
Qed.

End Ledger.

(** C1: [withAuthors] writes [undo[new] = old] before it calls [os.rename].
    With two books that lose their subtitles to the same name, the second
    rename raises FileExistsError and the user keeps the old name (answer
    O): the file is still there under its old name, yet the dictionary maps
    the new name to it, and the entry of the rename that did succeed is
    gone. *)
Theorem withAuthors_records_skipped_rename :
  withAuthors books_dir ["A - T_ x.epub"; "A - T_ y.epub"]
    (session ["A - T_ x.epub"; "A - T_ y.epub"] ["O"])
  = (mkWorld
       {[ "A - T.epub"; "A - T_ y.epub" ]}
       [("A - T.epub", "A - T_ y.epub")]
       [ "A - T_ x.epub changed to A - T.epub";
         nl +:+ "File with proposed name A - T.epub already exists. Press N to enter a new filename or O to revert to old filename A - T_ y.epub: ";
         nl +:+ "File with name A - T_ y.epub not renamed." +:+ nl;
         nl +:+ "Process finished. 2 filenames renamed with subtitles removed and authors retained." ]
       []
       [ RenameCall "A - T_ x.epub" "A - T.epub" None;
         RenameCall "A - T_ y.epub" "A - T.epub" (Some FileExistsError) ],
     Ok tt).
Proof. vm_compute. reflexivity. Qed.

(** C2: for ["Name .epub"] the spacing pass removes the space from the name
    it computes, records it and counts it, but calls [os.rename] only in the
    branch for runs of two or more spaces: the file keeps its old name on
    disk. *)
Theorem removeMultipleSpacing_end_space_not_renamed :
  removeMultipleSpacing books_dir ["Name .epub"] (session ["Name .epub"] [])
  = (mkWorld
       {[ "Name .epub" ]}
       [("Name.epub", "Name .epub")]
       [ "Multiple and/or end spacing removed from filename: C:\books\Name .epub; new filename: Name.epub";
         nl +:+ "Process finished. Multiple spacing removed from 1 filenames." ]
       []
       [],
     Ok tt).
Proof. vm_compute. reflexivity. Qed.

(** C7: the second step of the comma pass is guarded for the whole name and
    replaces every comma.  In ["Smith,John 10,000.pdf"] the comma before
    ["John"] gets no space, because another comma is followed by a digit:
    nothing is renamed or recorded.  In ["A,B, C.pdf"] every comma is
    replaced by a comma and a space, also the one that had its space:
    the name becomes ["A, B,  C.pdf"]. *)
Theorem fixCommaSpacing_misses_and_doubles :
  fixCommaSpacing books_dir ["Smith,John 10,000.pdf"]
    (session ["Smith,John 10,000.pdf"] [])
  = (mkWorld
       {[ "Smith,John 10,000.pdf" ]}
       []
       [ nl +:+ "Process finished. Comma spacing fixed in 0 filenames." ]
       []
       [],
     Ok tt)
  /\ fixCommaSpacing books_dir ["A,B, C.pdf"] (session ["A,B, C.pdf"] [])
     = (mkWorld
          {[ "A, B,  C.pdf" ]}
          [("A, B,  C.pdf", "A,B, C.pdf")]
          [ "Comma spacing fixed in filename: C:\books\A,B, C.pdf; new filename: A, B,  C.pdf";
            nl +:+ "Process finished. Comma spacing fixed in 1 filenames." ]
          []
          [ RenameCall "A,B, C.pdf" "A, B,  C.pdf" None ],
        Ok tt).
Proof. split; vm_compute; reflexivity. Qed.

(** C9: [restoreAuthors] prints its not-found line after the inner loop
    whether or not the loop ended in a match: the target ["Code.epub"] is
    renamed after the reference entry, the rename is recorded, and the target
    is still reported as not found. *)
Theorem restoreAuthors_reports_found_as_not_found :
  restoreAuthors books_dir ["Code.epub"] ["Petzold, Charles - Code.epub"]
    (session ["Code.epub"] ["D:\reference\"])
  = (mkWorld
       {[ "Petzold, Charles - Code.epub" ]}
       [("Petzold, Charles - Code.epub", "Code.epub")]
       [ "Enter path to other directory with books to compare: ";
         "Code.epub changed to Petzold, Charles - Code.epub";
         "Author(s) data not found for Code.epub";
         nl +:+ "Process finished. Author(s) data restored to 1 filenames." ]
       []
       [ RenameCall "Code.epub" "Petzold, Charles - Code.epub" None ],
     Ok tt).
Proof. vm_compute. reflexivity. Qed.

(** C10: the search of [compareSize] starts with [upper = len(books2)] and
    reads [books2[(lower + upper) // 2]]: with an empty second listing, and
    with a name greater than every entry of the listing, the index is
    [len(books2)] and the read raises IndexError. *)
Theorem compareSize_index_out_of_range :
  forall (size1 size2 : string -> Z) (share : spec_float),
    compareSize ["X.epub"] [] size1 size2 share = Raise IndexError
    /\ compareSize ["Y.epub"] ["X.epub"] size1 size2 share = Raise IndexError.
Proof. intros. split; vm_compute; reflexivity. Qed.

(** ** Undo *)

Section Restore.

Variable path : string.

Lemma rename_missing_source dir src dst :
  rename_outcome dir src dst = Raise FileNotFoundError <-> src ∉ dir.
Proof.
  unfold rename_outcome.
  destruct (decide (src ∈ dir)) as [Hin|Hnin].
  - split; [|contradiction].
    repeat case_decide; discriminate.
  - split; [intros _; assumption | reflexivity].
Qed.



(** A run of the loop that is not cut short by an exception makes one call
    per pair, in the order of the dictionary. *)
Lemma restore_loop_ok items : forall counter w w' c',
  for_fold items counter (restore_step path) w = (w', Ok c') ->
  exists calls,
    renames w' = (renames w ++ calls)%list
    /\ map call_pair calls = items
    /\ Replay (fs w) calls (fs w')
    /\ stdout w' = (stdout w ++ not_found_lines path calls)%list
    /\ c' = (counter + length (List.filter succeeded calls))%nat
    /\ stdin w' = stdin w.
Proof.
  induction items as [|[new old] items IH]; intros counter w w' c' H.
  - injection H as <- <-. exists []. simpl. rewrite !app_nil_r.
    repeat split; [constructor | lia].
  - simpl in H. unfold bind at 1 in H.
    unfold restore_step at 1, try_except, bind, os_rename in H.
    destruct (rename_outcome (fs w) new old) as [d|e] eqn:Hr; simpl in H.
    + apply IH in H as (calls & H1 & H2 & H3 & H4 & H5 & H6). simpl in *.
      exists (RenameCall new old None :: calls). simpl.
      rewrite H1, <- app_assoc. unfold not_found_lines in *. simpl.
      repeat split; auto;
        [rewrite <- H2; reflexivity | econstructor; eassumption | lia].
    + destruct (decide (e = FileNotFoundError)) as [->|Hne]; simpl in H;
        [|discriminate].
      apply IH in H as (calls & H1 & H2 & H3 & H4 & H5 & H6). simpl in *.
      exists (RenameCall new old (Some FileNotFoundError) :: calls). simpl.
      rewrite H1, H4, <- !app_assoc. unfold not_found_lines in *. simpl.
      repeat split; auto; [rewrite <- H2; reflexivity|].
      apply Replay_missing; [|assumption].
      apply rename_missing_source with (dst := old). exact Hr.
Qed.

Lemma rename_errors dir src dst e :
  rename_outcome dir src dst = Raise e ->
  e = FileNotFoundError \/ e = FileExistsError.
Proof.
  unfold rename_outcome. repeat case_decide; intros Hr;
    try discriminate; injection Hr as <-; auto.
Qed.

(** Only a name that is taken can cut the loop short. *)
Lemma restore_loop_raise items : forall counter w e,
  snd (for_fold items counter (restore_step path) w) = Raise e ->
  e = FileExistsError.
Proof.
  induction items as [|[new old] items IH]; intros counter w e;
    [discriminate|].
  simpl. unfold bind at 1.
  unfold restore_step at 1, try_except, bind, os_rename.
  destruct (rename_outcome (fs w) new old) as [d|e'] eqn:Hr; simpl.
  - apply IH.
  - destruct (decide (e' = FileNotFoundError)) as [->|Hne]; simpl.
    + apply IH.
    + intros H. injection H as <-.
      destruct (rename_errors _ _ _ _ Hr); congruence.
Qed.

Lemma restoreOld_run w :
  restoreOld path w =
  match undo w with
  | [] => print "No filenames to restore." w
  | items =>
      match for_fold items 0%nat (restore_step path) w with
      | (w', Ok counter) => print (restored_line counter) w'
      | (w', Raise e) => (w', Raise e)
      end
  end.
Proof.
  unfold restoreOld, bind at 1, get_undo.
  destruct (undo w); reflexivity.
Qed.




End Restore.



(** ** Comparing file sizes *)

Section SizeSearch.

Lemma ascii_compare_trans a b c :
  Ascii.compare a b = Lt -> Ascii.compare b c = Lt -> Ascii.compare a c = Lt.
Proof.
  unfold Ascii.compare. rewrite !N.compare_lt_iff. lia.
Qed.

Lemma string_compare_trans : forall s1 s2 s3 : string,
  String.compare s1 s2 = Lt -> String.compare s2 s3 = Lt ->
  String.compare s1 s3 = Lt.
Proof.
  induction s1 as [|a s1 IH]; intros [|b s2] [|c s3]; simpl; try congruence.
  destruct (Ascii.compare a b) eqn:Hab; try discriminate;
    destruct (Ascii.compare b c) eqn:Hbc; try discriminate; intros H1 H2.
  - apply Ascii.compare_eq_iff in Hab, Hbc. subst. 
    assert (Hcc : Ascii.compare c c = Eq) by (unfold Ascii.compare; apply N.compare_refl).
    rewrite Hcc. eauto.
  - apply Ascii.compare_eq_iff in Hab. subst. rewrite Hbc. reflexivity.
  - apply Ascii.compare_eq_iff in Hbc. subst. rewrite Hab. reflexivity.
  - rewrite (ascii_compare_trans _ _ _ Hab Hbc). reflexivity.
Qed.

Lemma ltb_trans s1 s2 s3 :
  String.ltb s1 s2 = true -> String.ltb s2 s3 = true -> String.ltb s1 s3 = true.
Proof.
  unfold String.ltb.
  destruct (String.compare s1 s2) eqn:H12; try discriminate.
  destruct (String.compare s2 s3) eqn:H23; try discriminate.
  rewrite (string_compare_trans _ _ _ H12 H23). reflexivity.
Qed.

Lemma ltb_irrefl s : String.ltb s s = false.
Proof.
  unfold String.ltb.
  assert (H : String.compare s s = Eq).
  { induction s as [|a s IH]; simpl; [reflexivity|].
    assert (Haa : Ascii.compare a a = Eq) by (unfold Ascii.compare; apply N.compare_refl).
    rewrite Haa. exact IH. }
  rewrite H. reflexivity.
Qed.

Lemma ltb_asym s1 s2 : String.ltb s1 s2 = true -> String.ltb s2 s1 = false.
Proof.
  intros H. destruct (String.ltb s2 s1) eqn:H'; [|reflexivity].
  pose proof (ltb_trans _ _ _ H H') as Ht. rewrite ltb_irrefl in Ht. discriminate.
Qed.

Lemma sorted_head x rest y :
  strictly_sorted (x :: rest) = true -> In y rest ->
  String.ltb (size_key x) (size_key y) = true.
Proof.
  revert x. induction rest as [|z rest IH]; intros x Hs Hin; [contradiction|].
  simpl in Hs. apply andb_true_iff in Hs as [Hxz Hrest].
  destruct Hin as [->|Hin]; [exact Hxz|].
  eapply ltb_trans; [exact Hxz|]. apply IH; assumption.
Qed.

Lemma sorted_tail x rest :
  strictly_sorted (x :: rest) = true -> strictly_sorted rest = true.
Proof.
  destruct rest as [|y rest]; [reflexivity|]. simpl.
  intros H. apply andb_true_iff in H as [_ H]. exact H.
Qed.

Lemma sorted_pairwise : forall books2 i j x y,
  strictly_sorted books2 = true -> (i < j)%nat ->
  nth_error books2 i = Some x -> nth_error books2 j = Some y ->
  String.ltb (size_key x) (size_key y) = true.
Proof.
  induction books2 as [|z books2 IH]; intros i j x y Hs Hij Hx Hy.
  - destruct i; discriminate.
  - destruct j as [|j]; [lia|]. simpl in Hy. destruct i as [|i].
    + injection Hx as <-. eapply sorted_head; [exact Hs|].
      eapply nth_error_In; exact Hy.
    + simpl in Hx. eapply IH; [eapply sorted_tail; exact Hs| |exact Hx|exact Hy]. lia.
Qed.

Lemma item_nth books2 (i : nat) :
  item books2 (Z.of_nat i) = nth_error books2 i.
Proof.
  unfold item. destruct (Z.ltb_spec (Z.of_nat i) 0) as [H|H]; [lia|].
  rewrite Nat2Z.id. reflexivity.
Qed.

Variable books2 : list string.
Variable book2 : string.
Hypothesis Hext : forallb Pat.book_ext books2 = true.
Hypothesis Hsorted : strictly_sorted books2 = true.

Lemma size_search_finds (i : nat) :
  nth_error books2 i = Some book2 ->
  forall fuel lo hi st2,
    (lo <= Z.of_nat i <= hi)%Z -> (0 <= lo)%Z -> (hi <= Z.of_nat (length books2))%Z ->
    (hi - lo + 1 < Z.of_nat fuel)%Z ->
    size_search fuel (size_key book2) books2 (mkSearch lo hi st2)
    = Matched book2 (Bound (size_key book2)).
Proof.
  intros Hi. induction fuel as [|fuel IH]; intros lo hi st2 Hb Hlo Hhi Hfuel; [lia|].
  assert (Hlen : (i < length books2)%nat).
  { apply nth_error_Some. rewrite Hi. discriminate. }
  cbn [size_search lower upper b2].
  destruct (Z.ltb_spec hi lo) as [Hstop|Hstop]; [lia|].
  set (mid := ((lo + hi) / 2)%Z).
  assert (Hmid : (lo <= mid <= hi /\ 2 * mid <= lo + hi)%Z)
    by (unfold mid; Z.div_mod_to_equations; lia).
  assert (Hmidlen : (0 <= mid < Z.of_nat (length books2))%Z) by lia.
  set (m := Z.to_nat mid). assert (Hm : mid = Z.of_nat m) by lia.
  rewrite Hm, item_nth.
  destruct (nth_error books2 m) as [x|] eqn:Hx.
  2:{ apply nth_error_None in Hx. lia. }
  assert (Hxext : Pat.book_ext x = true).
  { rewrite forallb_forall in Hext. apply Hext. eapply nth_error_In; exact Hx. }
  rewrite Hxext. fold (size_key x).
  destruct (Nat.lt_trichotomy i m) as [Hlt|[Heq|Hgt]].
  - pose proof (sorted_pairwise _ _ _ _ _ Hsorted Hlt Hi Hx) as Hk.
    destruct (String.eqb_spec (size_key book2) (size_key x)) as [He|_].
    { rewrite He, ltb_irrefl in Hk. discriminate. }
    rewrite Hk. apply IH; lia.
  - subst m. rewrite Heq in Hi. rewrite Hi in Hx. injection Hx as <-.
    rewrite String.eqb_refl. reflexivity.
  - pose proof (sorted_pairwise _ _ _ _ _ Hsorted Hgt Hx Hi) as Hk.
    destruct (String.eqb_spec (size_key book2) (size_key x)) as [He|_].
    { rewrite He, ltb_irrefl in Hk. discriminate. }
    rewrite (ltb_asym _ _ Hk). apply IH; lia.
Qed.

(** The fuel [compareSize] gives the search is enough: the interval shrinks
    with every pass. *)
Lemma size_search_fuel_enough b1 : forall fuel lo hi st2,
  (hi - lo + 1 < Z.of_nat fuel)%Z -> (0 < fuel)%nat ->
  size_search fuel b1 books2 (mkSearch lo hi st2) <> OutOfFuel.
Proof.
  induction fuel as [|fuel IH]; intros lo hi st2 Hfuel Hpos.
  - lia.
  - cbn [size_search lower upper b2].
    destruct (Z.ltb_spec hi lo) as [Hstop|Hstop]; [discriminate|].
    assert (Hmid : (lo <= (lo + hi) / 2 <= hi)%Z)
      by (Z.div_mod_to_equations; lia).
    destruct (item books2 ((lo + hi) / 2)) as [x|]; [|discriminate].
    destruct (Pat.book_ext x).
    + destruct (String.eqb b1 (Str.lower (Pat.base_name x)));
        [discriminate|].
      destruct (String.ltb b1 (Str.lower (Pat.base_name x)));
        apply IH; lia.
    + destruct st2 as [|y]; [discriminate|].
      destruct (String.ltb b1 y); apply IH; lia.
Qed.

End SizeSearch.

(** C5: the test of [compareSize] is [size1 - size2 >= size1 * share],
    the equal case included and the product taken in binary64.  With
    ["X.epub"] in both directories, 1000 bytes against 400 is reported at
    the share 0.5 and not at 0.7.  At the share 1, where the docstring has
    "1 returns empty list", 1000 bytes against an empty file is reported;
    and at the share 0.55, 100 bytes against 45 is not reported although the
    difference is 0.55 times 100: the product [100 * 0.55] is
    55.00000000000001. *)
Theorem compareSize_threshold_one_reports :
  compareSize ["X.epub"] ["X.epub"] (fun _ => 1000%Z) (fun _ => 400%Z)
    (Float.decimal 5 1)
  = Ok [(1000%Z, 400%Z, "X")]
  /\ compareSize ["X.epub"] ["X.epub"] (fun _ => 1000%Z) (fun _ => 400%Z)
       (Float.decimal 7 1)
     = Ok []
  /\ compareSize ["X.epub"] ["X.epub"] (fun _ => 1000%Z) (fun _ => 0%Z)
       (Float.decimal 1 0)
     = Ok [(1000%Z, 0%Z, "X")]
  /\ compareSize ["X.epub"] ["X.epub"] (fun _ => 100%Z) (fun _ => 45%Z)
       (Float.decimal 55 2)
     = Ok [].
Proof. repeat split; vm_compute; reflexivity. Qed.

(** X27: for a book file of the first directory whose key (lowered base
    name) is that of an entry of the second listing, the listing holding
    book files only and being sorted by key, the search finds the entry, and
    [compareSize] on this one book reports the pair exactly when the test on
    the two sizes holds; it raises OverflowError when the first file is the
    larger and its size is beyond the range of [float]. *)
Theorem compareSize_finds_sorted_entry
    (book1 : string) (books2 : list string) (book2 : string)
    (size1 size2 : string -> Z) (share : spec_float) :
  Pat.book_ext book1 = true ->
  forallb Pat.book_ext books2 = true ->
  strictly_sorted books2 = true ->
  In book2 books2 ->
  size_key book1 = size_key book2 ->
  compareSize [book1] books2 size1 size2 share
  = match larger_by (size1 book1) (size2 book2) share with
    | Ok true => Ok [(size1 book1, size2 book2, Pat.base_name book1)]
    | Ok false => Ok []
    | Raise e => Raise e
    end.
Proof.
  intros H1 H2 Hs Hin Hkey.
  apply In_nth_error in Hin as [i Hi].
  unfold compareSize. cbn [compareSize_from]. rewrite H1.
  fold (size_key book1). rewrite Hkey.
  assert (Hlen : (i < length books2)%nat).
  { apply nth_error_Some. rewrite Hi. discriminate. }
  rewrite (size_search_finds books2 book2 H2 Hs i Hi) by lia.
  destruct (larger_by (size1 book1) (size2 book2) share) as [[|]|e];
    reflexivity.
Qed.

(** X27 at three books: ["Emma.pdf"] is found behind ["Dune.epub"]. *)
Lemma compareSize_finds_sorted_entry_witness :
  compareSize ["Emma.epub"] ["Dune.epub"; "Emma.pdf"; "Ulysses.mobi"]
    (fun _ => 1000%Z) (fun _ => 400%Z) (Float.decimal 5 1)
  = Ok [(1000%Z, 400%Z, "Emma")].
Proof.
  exact (compareSize_finds_sorted_entry "Emma.epub"
           ["Dune.epub"; "Emma.pdf"; "Ulysses.mobi"] "Emma.pdf"
           (fun _ => 1000%Z) (fun _ => 400%Z) (Float.decimal 5 1)
           eq_refl eq_refl eq_refl (or_intror (or_introl eq_refl)) eq_refl).
Defined.

(** ** Comparing two directories *)

Section Ratio.

Lemma occurrences_nonneg c s : (0 <= occurrences c s)%Z.
Proof. induction s as [|c' s IH]; simpl; [lia|]. destruct (Ascii.eqb c c'); lia. Qed.

Lemma fullbcount_occurrences : forall b acc c,
  default 0%Z (Difflib.fullbcount b acc !! c)
  = (default 0%Z (acc !! c) + occurrences c b)%Z.
Proof.
  induction b as [|elt b IH]; intros acc c; simpl; [lia|].
  rewrite IH. destruct (Ascii.eqb_spec c elt) as [->|Hne].
  - rewrite lookup_insert_eq. simpl. lia.
  - rewrite lookup_insert_ne by congruence. lia.
Qed.

Lemma count_matches_all : forall a full avail matches,
  (forall c, (occurrences c a <= available full avail c)%Z) ->
  Difflib.count_matches a full avail matches
  = (matches + Z.of_nat (String.length a))%Z.
Proof.
  induction a as [|elt a IH]; intros full avail matches Hav.
  - simpl. lia.
  - cbn [Difflib.count_matches String.length]. fold (available full avail elt).
    pose proof (Hav elt) as He. simpl in He. rewrite Ascii.eqb_refl in He.
    pose proof (occurrences_nonneg elt a).
    destruct (Z.ltb_spec 0 (available full avail elt)) as [_|Hle]; [|lia].
    rewrite IH; [lia|].
    intros c. unfold available at 1.
    destruct (Ascii.eqb_spec c elt) as [->|Hne].
    + rewrite lookup_insert_eq. lia.
    + rewrite lookup_insert_ne by congruence.
      fold (available full avail c). specialize (Hav c). simpl in Hav.
      destruct (Ascii.eqb_spec c elt); [contradiction|]. lia.
Qed.

Lemma quick_ratio_same s : is_one (Difflib.quick_ratio s s) = true.
Proof.
  unfold Difflib.quick_ratio. rewrite count_matches_all.
  2:{ intros c. unfold available. rewrite lookup_empty, fullbcount_occurrences.
      rewrite lookup_empty. simpl. lia. }
  unfold Difflib.calculate_ratio, is_one.
  destruct (String.length s + String.length s)%nat as [|n] eqn:Hn; [reflexivity|].
  apply Qeq_bool_iff.
  replace (2 * (0 + Z.of_nat (String.length s)))%Z with (Z.of_nat (S n)) by lia.
  unfold Qdiv. apply Qmult_inv_r.
  intros H. apply Qeq_bool_iff in H. discriminate.
Qed.

Lemma is_one_at_least_09 q : is_one q = true -> at_least_09 q = true.
Proof.
  unfold is_one, at_least_09. rewrite Qeq_bool_iff, Qle_bool_iff.
  intros ->. discriminate.
Qed.

End Ratio.

Section TwoDirs.

Lemma inner_identical b1 : forall books2 acc nf,
  identical (fst (compareTwoDirs_inner b1 books2 acc nf))
  = (identical acc ++ if existsb (hit_one b1) books2 then [b1] else [])%list.
Proof.
  induction books2 as [|book2 books2 IH]; intros acc nf; simpl.
  - rewrite app_nil_r. reflexivity.
  - unfold hit_one at 1. destruct (Pat.book_ext book2); simpl; [|apply IH].
    fold (index_of b1 book2).
    destruct (is_one (index_of b1 book2)); simpl; [reflexivity|].
    destruct (at_least_09 (index_of b1 book2)); rewrite IH; reflexivity.
Qed.

Lemma inner_different b1 : forall books2 acc nf,
  different (fst (compareTwoDirs_inner b1 books2 acc nf)) = different acc.
Proof.
  induction books2 as [|book2 books2 IH]; intros acc nf; simpl; [reflexivity|].
  destruct (Pat.book_ext book2); [|apply IH].
  destruct (is_one _); [reflexivity|].
  destruct (at_least_09 _); rewrite IH; reflexivity.
Qed.

Lemma inner_not_found b1 : forall books2 acc nf,
  snd (compareTwoDirs_inner b1 books2 acc nf)
  = nf && negb (existsb (hit_09 b1) books2).
Proof.
  induction books2 as [|book2 books2 IH]; intros acc nf; simpl.
  - rewrite andb_true_r. reflexivity.
  - unfold hit_09 at 1. destruct (Pat.book_ext book2); simpl; [|apply IH].
    fold (index_of b1 book2).
    destruct (is_one (index_of b1 book2)) eqn:Hone; simpl.
    + rewrite (is_one_at_least_09 _ Hone). simpl. rewrite andb_false_r. reflexivity.
    + destruct (at_least_09 (index_of b1 book2)); rewrite IH; simpl; [|reflexivity].
      rewrite andb_false_r. reflexivity.
Qed.

Lemma inner_similar b1 : forall books2 acc nf x y,
  In (x, y) (similar (fst (compareTwoDirs_inner b1 books2 acc nf)))
  <-> In (x, y) (similar acc)
      \/ (x = b1 /\ exists pre book2 post,
            books2 = (pre ++ book2 :: post)%list
            /\ y = Pat.base_name book2
            /\ found_similar b1 pre book2).
Proof.
  induction books2 as [|book2 books2 IH]; intros acc nf x y; simpl.
  - split; [auto|]. intros [H|(_ & pre & b & post & H & _)]; [exact H|].
    destruct pre; discriminate.
  - assert (Hskip : hit_one b1 book2 = false ->
              (x = b1 /\ (exists pre b post, books2 = (pre ++ b :: post)%list
                 /\ y = Pat.base_name b /\ found_similar b1 pre b))
              -> x = b1 /\ (exists pre b post, book2 :: books2 = (pre ++ b :: post)%list
                 /\ y = Pat.base_name b /\ found_similar b1 pre b)).
    { intros Hh (-> & pre & b & post & -> & -> & H1 & H2 & H3 & H4).
      split; [reflexivity|]. exists (book2 :: pre), b, post.
      repeat split; auto. }
    assert (Hrest : forall pre b post,
              book2 :: books2 = (pre ++ b :: post)%list ->
              found_similar b1 pre b ->
              (pre = [] /\ b = book2) \/
              (hit_one b1 book2 = false /\ exists pre', pre = book2 :: pre'
                 /\ books2 = (pre' ++ b :: post)%list /\ found_similar b1 pre' b)).
    { intros pre b post Heq (H1 & H2 & H3 & H4). destruct pre as [|p pre].
      - injection Heq as -> _. left; auto.
      - injection Heq as -> ->. right. inversion H4; subst.
        split; [assumption|]. exists pre. repeat split; auto. }
    unfold hit_one in Hskip, Hrest.
    destruct (Pat.book_ext book2) eqn:Hext; simpl in *.
    + fold (index_of b1 book2) in *.
      destruct (is_one (index_of b1 book2)) eqn:Hone; simpl.
      * split; [auto|]. intros [H|(-> & pre & b & post & Heq & -> & Hf)]; [exact H|].
        destruct (Hrest _ _ _ Heq Hf) as [[-> ->]|[Hc _]]; [|discriminate].
        destruct Hf as (_ & _ & Hf & _). congruence.
      * destruct (at_least_09 (index_of b1 book2)) eqn:H09; rewrite IH; simpl.
        -- rewrite in_app_iff. simpl. split.
           ++ intros [[H|[H|[]]]|H]; [left; exact H| |right; apply Hskip; auto].
              injection H as <- <-. right. split; [reflexivity|].
              exists [], book2, books2. repeat split; auto.
           ++ intros [H|(-> & pre & b & post & Heq & -> & Hf)]; [auto|].
              destruct (Hrest _ _ _ Heq Hf) as [[-> ->]|[_ (pre' & -> & -> & Hf')]].
              ** left. right. left. reflexivity.
              ** right. split; [reflexivity|]. exists pre', b, post. auto.
        -- split.
           ++ intros [H|H]; [left; exact H|right; apply Hskip; auto].
           ++ intros [H|(-> & pre & b & post & Heq & -> & Hf)]; [auto|].
              destruct (Hrest _ _ _ Heq Hf) as [[-> ->]|[_ (pre' & -> & -> & Hf')]].
              ** destruct Hf as (_ & Hf & _). congruence.
              ** right. split; [reflexivity|]. exists pre', b, post. auto.
    + rewrite IH. split.
      * intros [H|H]; [left; exact H|right; apply Hskip; auto].
      * intros [H|(-> & pre & b & post & Heq & -> & Hf)]; [auto|].
        destruct (Hrest _ _ _ Heq Hf) as [[-> ->]|[_ (pre' & -> & -> & Hf')]].
        -- destruct Hf as (Hf & _). congruence.
        -- right. split; [reflexivity|]. exists pre', b, post. auto.
Qed.

Lemma inner_result b1 books2 acc :
  exists acc' nf,
    compareTwoDirs_inner b1 books2 acc true = (acc', nf)
    /\ identical acc'
       = (identical acc ++ if existsb (hit_one b1) books2 then [b1] else [])%list
    /\ different acc' = different acc
    /\ nf = negb (existsb (hit_09 b1) books2)
    /\ forall x y,
         In (x, y) (similar acc')
         <-> In (x, y) (similar acc)
             \/ (x = b1 /\ exists pre book2 post,
                   books2 = (pre ++ book2 :: post)%list
                   /\ y = Pat.base_name book2
                   /\ found_similar b1 pre book2).
Proof.
  pose proof (inner_identical b1 books2 acc true) as H1.
  pose proof (inner_different b1 books2 acc true) as H2.
  pose proof (inner_not_found b1 books2 acc true) as H3.
  pose proof (inner_similar b1 books2 acc true) as H4.
  destruct (compareTwoDirs_inner b1 books2 acc true) as [acc' nf].
  exists acc', nf. simpl in *. auto.
Qed.

Lemma book_of_cons book1 books b1 :
  book_of (book1 :: books) b1
  <-> (Pat.book_ext book1 = true /\ b1 = Pat.base_name book1)
      \/ book_of books b1.
Proof.
  unfold book_of. split.
  - intros (b & [<-|Hin] & He & Hb); [left; auto|right; eauto].
  - intros [[He Hb]|(b & Hin & He & Hb)].
    + exists book1. simpl. auto.
    + exists b. simpl. auto.
Qed.

Lemma outer_result books2 : forall books acc,
  let r := compareTwoDirs_from books books2 acc in
  (forall b, In b (identical r)
     <-> In b (identical acc)
         \/ (book_of books b /\ existsb (hit_one b) books2 = true))
  /\ (forall b, In b (different r)
       <-> In b (different acc)
           \/ (book_of books b /\ existsb (hit_09 b) books2 = false))
  /\ (forall x y, In (x, y) (similar r)
       <-> In (x, y) (similar acc)
           \/ (book_of books x /\ exists pre book2 post,
                 books2 = (pre ++ book2 :: post)%list
                 /\ y = Pat.base_name book2
                 /\ found_similar x pre book2)).
Proof.
  induction books as [|book1 books IH]; intros acc; cbn zeta.
  - simpl. unfold book_of. repeat split; auto.
    + intros [H|[(b' & [] & _) _]]; exact H.
    + intros [H|[(b' & [] & _) _]]; exact H.
    + intros [H|[(b' & [] & _) _]]; exact H.
  - cbn [compareTwoDirs_from].
    destruct (Pat.book_ext book1) eqn:Hext.
    + destruct (inner_result (Pat.base_name book1) books2 acc)
        as (acc' & nf & -> & Hid & Hdiff & Hnf & Hsim).
      set (acc'' := if nf then _ else _).
      assert (Hid' : identical acc'' = identical acc') by (unfold acc''; destruct nf; reflexivity).
      assert (Hsim' : similar acc'' = similar acc') by (unfold acc''; destruct nf; reflexivity).
      assert (Hdiff' : different acc''
                = (different acc ++ if nf then [Pat.base_name book1] else [])%list).
      { unfold acc''; destruct nf; simpl; rewrite Hdiff; [reflexivity|].
        rewrite app_nil_r. reflexivity. }
      destruct (IH acc'') as (I1 & I2 & I3).
      split; [|split].
      * intros b. rewrite I1, Hid', Hid, in_app_iff, book_of_cons.
        destruct (existsb (hit_one (Pat.base_name book1)) books2) eqn:He; simpl.
        -- split.
           ++ intros [[H|[<-|[]]]|[H1 H2]]; auto.
           ++ intros [H|[[[_ ->]|H1] H2]]; auto.
        -- split.
           ++ intros [[H|[]]|[H1 H2]]; auto.
           ++ intros [H|[[[_ ->]|H1] H2]]; auto. congruence.
      * intros b. rewrite I2, Hdiff', in_app_iff, book_of_cons, Hnf.
        destruct (existsb (hit_09 (Pat.base_name book1)) books2) eqn:He; simpl.
        -- split.
           ++ intros [[H|[]]|[H1 H2]]; auto.
           ++ intros [H|[[[_ ->]|H1] H2]]; auto. congruence.
        -- split.
           ++ intros [[H|[<-|[]]]|[H1 H2]]; auto.
           ++ intros [H|[[[_ ->]|H1] H2]]; auto.
      * intros x y. rewrite I3, Hsim', Hsim, book_of_cons. split.
        -- intros [[H|[-> H]]|[H1 H2]]; auto.
        -- intros [H|[[[_ ->]|H1] H2]]; auto.
    + destruct (IH acc) as (I1 & I2 & I3).
      split; [|split].
      * intros b. rewrite I1, book_of_cons. split.
        -- intros [H|[H1 H2]]; auto.
        -- intros [H|[[[H0 _]|H1] H2]]; auto. congruence.
      * intros b. rewrite I2, book_of_cons. split.
        -- intros [H|[H1 H2]]; auto.
        -- intros [H|[[[H0 _]|H1] H2]]; auto. congruence.
      * intros x y. rewrite I3, book_of_cons. split.
        -- intros [H|[H1 H2]]; auto.
        -- intros [H|[[[H0 _]|H1] H2]]; auto. congruence.
Qed.

End TwoDirs.

(** C6: [compareTwoDirs] compares only names that hold [.epub], [.mobi] or
    [.pdf]; a name with the extension [.azw], which [getBooks] lists as a
    book, is passed over in both listings.  ["Dune.epub"] is reported as
    found when the second directory holds ["Dune.pdf"]; but ["Book.epub"]
    is reported as not found when the second directory holds ["Book.azw"],
    the same base name with another extension; and ["Book.azw"] of the first
    directory appears in none of the three lists, whatever the second
    directory holds. *)
Theorem compareTwoDirs_passes_over_azw :
  compareTwoDirs ["Dune.epub"] ["Dune.pdf"] = mkLists ["Dune"] [] []
  /\ getBooks ["Book.azw"; "Book.epub"; "cover.jpg"]
     = Some ["Book.azw"; "Book.epub"]
  /\ compareTwoDirs ["Book.epub"] ["Book.azw"] = mkLists [] [] ["Book"]
  /\ forall books2 : list string,
       compareTwoDirs ["Book.azw"] books2 = mkLists [] [] [].
Proof.
  repeat split; vm_compute; reflexivity.
Qed.

(** X28: in [compareTwoDirs], among the names it compares (those that hold
    [.epub], [.mobi] or [.pdf]), a base name of the first
    listing is put in [identical] exactly when some entry of the second
    listing has index 1 with it; a pair is put in [similar] exactly when it
    is compared (no earlier entry of the second listing had index 1) and
    its index is at least 0.9 and not 1; a base name is put in [different]
    exactly when no entry of the second listing has an index of at least
    0.9 with it, that is neither an identical nor a similar counterpart.
    Equal base names have index 1, and no pair of index 1 is in [similar]. *)
Theorem compareTwoDirs_classifies :
  forall books books2 : list string,
    (forall b1 : string,
       In b1 (identical (compareTwoDirs books books2))
       <-> book_of books b1
           /\ exists book2, In book2 books2 /\ Pat.book_ext book2 = true
                            /\ is_one (index_of b1 book2) = true)
    /\ (forall b1 b2 : string,
         In (b1, b2) (similar (compareTwoDirs books books2))
         <-> book_of books b1
             /\ exists pre book2 post,
                  books2 = (pre ++ book2 :: post)%list
                  /\ b2 = Pat.base_name book2
                  /\ found_similar b1 pre book2)
    /\ (forall b1 : string,
         In b1 (different (compareTwoDirs books books2))
         <-> book_of books b1
             /\ forall book2, In book2 books2 -> Pat.book_ext book2 = true ->
                              at_least_09 (index_of b1 book2) = false)
    /\ (forall b : string, is_one (Difflib.quick_ratio b b) = true)
    /\ (forall b1 b2 : string,
         In (b1, b2) (similar (compareTwoDirs books books2)) ->
         is_one (Difflib.quick_ratio b1 b2) = false
         /\ at_least_09 (Difflib.quick_ratio b1 b2) = true).
Proof.
  intros books books2.
  destruct (outer_result books2 books (mkLists [] [] [])) as (I1 & I2 & I3).
  fold (compareTwoDirs books books2) in I1, I2, I3. simpl in I1, I2, I3.
  assert (Hsim : forall b1 b2 : string,
            In (b1, b2) (similar (compareTwoDirs books books2))
            <-> book_of books b1
                /\ exists pre book2 post,
                     books2 = (pre ++ book2 :: post)%list
                     /\ b2 = Pat.base_name book2
                     /\ found_similar b1 pre book2).
  { intros b1 b2. rewrite I3. split; [intros [[]|H]; exact H | auto]. }
  split; [|split; [|split; [|split]]].
  - intros b1. rewrite I1. split.
    + intros [[]|[Hb He]]. split; [exact Hb|].
      apply existsb_exists in He as (book2 & Hin & Hh).
      apply andb_true_iff in Hh as [Hx Ho]. eauto.
    + intros [Hb (book2 & Hin & Hx & Ho)]. right. split; [exact Hb|].
      apply existsb_exists. exists book2. split; [exact Hin|].
      unfold hit_one. rewrite Hx, Ho. reflexivity.
  - exact Hsim.
  - intros b1. rewrite I2. split.
    + intros [[]|[Hb He]]. split; [exact Hb|].
      intros book2 Hin Hx.
      destruct (at_least_09 (index_of b1 book2)) eqn:H09; [|reflexivity].
      assert (Ht : existsb (hit_09 b1) books2 = true).
      { apply existsb_exists. exists book2. split; [exact Hin|].
        unfold hit_09. rewrite Hx, H09. reflexivity. }
      congruence.
    + intros [Hb Hall]. right. split; [exact Hb|].
      destruct (existsb (hit_09 b1) books2) eqn:He; [|reflexivity].
      apply existsb_exists in He as (book2 & Hin & Hh).
      apply andb_true_iff in Hh as [Hx H09].
      rewrite (Hall book2 Hin Hx) in H09. discriminate.
  - exact quick_ratio_same.
  - intros b1 b2 Hin. apply Hsim in Hin
      as (_ & pre & book2 & post & _ & -> & _ & H09 & Hone & _).
    split; assumption.
Qed.

(** ** Strip-to-title *)


#[local] Arguments String.append : simpl nomatch.

Section StringFacts.

Lemma sapp_nil_r (s : string) : s +:+ EmptyString = s.
Proof. induction s as [|c s IH]; cbn; [reflexivity|]. f_equal. exact IH. Qed.

Lemma sapp_assoc (a b c : string) : (a +:+ b) +:+ c = a +:+ (b +:+ c).
Proof. induction a as [|x a IH]; cbn; [reflexivity|]. f_equal. exact IH. Qed.

Lemma slen_app (a b : string) :
  String.length (a +:+ b) = (String.length a + String.length b)%nat.
Proof. induction a as [|x a IH]; cbn; [reflexivity|]. f_equal. exact IH. Qed.

Lemma drop_app (a b : string) : Str.drop (String.length a) (a +:+ b) = b.
Proof. induction a as [|x a IH]; cbn; [destruct b; reflexivity|exact IH]. Qed.

Lemma drop_0 (s : string) : Str.drop 0 s = s.
Proof. destruct s; reflexivity. Qed.

Lemma drop_app_le : forall (n : nat) (a b : string),
  (n <= String.length a)%nat -> Str.drop n (a +:+ b) = Str.drop n a +:+ b.
Proof.
  induction n as [|n IH]; intros a b Hn.
  - rewrite !drop_0. reflexivity.
  - destruct a as [|x a]; cbn in *; [lia|]. apply IH. lia.
Qed.

Lemma drop_drop : forall (n m : nat) (s : string),
  Str.drop n (Str.drop m s) = Str.drop (m + n) s.
Proof.
  intros n m. revert n. induction m as [|m IH]; intros n s.
  - rewrite drop_0. reflexivity.
  - destruct s as [|c s]; cbn.
    + destruct n; reflexivity.
    + apply IH.
Qed.

Lemma drop_length : forall (n : nat) (s : string),
  String.length (Str.drop n s) = (String.length s - n)%nat.
Proof.
  induction n as [|n IH]; intros s.
  - rewrite drop_0. lia.
  - destruct s as [|c s]; cbn; [reflexivity|apply IH].
Qed.

Lemma take_drop : forall (n : nat) (s : string),
  Str.take n s +:+ Str.drop n s = s.
Proof.
  induction n as [|n IH]; intros s.
  - rewrite drop_0. destruct s; reflexivity.
  - destruct s as [|c s]; cbn; [reflexivity|]. f_equal. apply IH.
Qed.

Lemma take_last_app (n : nat) (a b : string) :
  (String.length b <= n)%nat ->
  Str.take_last n (a +:+ b) = Str.take_last (n - String.length b) a +:+ b.
Proof.
  intros Hn. unfold Str.take_last. rewrite slen_app.
  rewrite drop_app_le by lia. f_equal. f_equal. lia.
Qed.

Lemma all_chars_app p (a b : string) :
  all_chars p (a +:+ b) = all_chars p a && all_chars p b.
Proof.
  induction a as [|x a IH]; cbn; [reflexivity|].
  rewrite IH, andb_assoc. reflexivity.
Qed.

Lemma all_chars_drop p : forall (n : nat) (s : string),
  all_chars p s = true -> all_chars p (Str.drop n s) = true.
Proof.
  induction n as [|n IH]; intros s H.
  - rewrite drop_0. exact H.
  - destruct s as [|c s]; cbn in *; [reflexivity|].
    apply andb_true_iff in H as [_ H]. apply IH. exact H.
Qed.

Lemma startswith_app (t s : string) : Str.startswith t (t +:+ s) = true.
Proof.
  induction t as [|c t IH]; cbn; [reflexivity|].
  rewrite Ascii.eqb_refl. exact IH.
Qed.

Lemma startswith_inv : forall t s : string,
  Str.startswith t s = true -> s = t +:+ Str.drop (String.length t) s.
Proof.
  induction t as [|c t IH]; intros s H.
  - destruct s; reflexivity.
  - cbn in *. destruct s as [|d s]; [discriminate|].
    apply andb_true_iff in H as [Hc H].
    apply Ascii.eqb_eq in Hc. subst d. cbn. f_equal. apply IH. exact H.
Qed.

(** A string without dots, a dot, and a string without dots: the dot is
    where it is. *)
Lemma dot_unique : forall a p c z : string,
  no_dot a = true -> no_dot c = true ->
  a +:+ "." +:+ c = p +:+ "." +:+ z -> a = p /\ c = z.
Proof.
  induction a as [|h a IH]; intros p c z Ha Hc Heq.
  - destruct p as [|d p]; cbn in Heq.
    + injection Heq as ->. auto.
    + injection Heq as <- ->. unfold no_dot in Hc.
      rewrite all_chars_app in Hc. cbn in Hc.
      rewrite andb_false_r in Hc. discriminate.
  - cbn in Ha. apply andb_true_iff in Ha as [Hh Ha].
    destruct p as [|d p]; cbn in Heq.
    + injection Heq as -> _. discriminate.
    + injection Heq as <- Heq. destruct (IH p c z Ha Hc Heq) as [-> ->]. auto.
Qed.

Lemma endswith_app (u t : string) : endswith t (u +:+ t) = true.
Proof.
  unfold endswith, Str.take_last. rewrite slen_app.
  replace (String.length u + String.length t - String.length t)%nat
    with (String.length u) by lia.
  rewrite drop_app. apply String.eqb_refl.
Qed.

Lemma endswith_inv (t s : string) :
  endswith t s = true -> exists u, s = u +:+ t.
Proof.
  unfold endswith, Str.take_last. intros H. apply String.eqb_eq in H.
  exists (Str.take (String.length s - String.length t) s).
  pose proof (take_drop (String.length s - String.length t) s) as Htd.
  rewrite H in Htd. symmetry. exact Htd.
Qed.

End StringFacts.

(** ** Substitution *)
Section Substitution.

Variable r : Re.regex.
Variable repl : string.

Lemma sub_go_done prev (s : string) : Re.sub_go r repl (Some 0%nat) 0 prev s = s.
Proof. destruct s; reflexivity. Qed.

Lemma sub_go_skip lim : forall (a b : string) prev,
  Re.sub_go r repl lim (String.length a) prev (a +:+ b)
  = Re.sub_go r repl lim 0 (last_of prev a) b.
Proof.
  induction a as [|c a IH]; intros b prev; [reflexivity|].
  simpl. apply IH.
Qed.

Lemma match_len_none prev (s : string) :
  Re.match_here r prev s = None -> Re.match_len r prev s = None.
Proof. unfold Re.match_len. intros ->. reflexivity. Qed.

(** Where no match starts, the subject is copied. *)
Lemma sub_go_prefix lim : forall (a b : string) prev,
  (forall n, (n < String.length a)%nat -> unmatched r (Str.drop n (a +:+ b))) ->
  Re.sub_go r repl lim 0 prev (a +:+ b)
  = a +:+ Re.sub_go r repl lim 0 (last_of prev a) b.
Proof.
  induction a as [|c a IH]; intros b prev Hun; [reflexivity|].
  assert (H0 : Re.match_len r prev (String c a +:+ b) = None).
  { apply match_len_none. apply (Hun 0%nat). simpl. lia. }
  assert (Hrest : forall n, (n < String.length a)%nat ->
            unmatched r (Str.drop n (a +:+ b))).
  { intros n Hn. apply (Hun (S n)). simpl. lia. }
  simpl in *. destruct lim as [[|k]|].
  - rewrite sub_go_done. reflexivity.
  - rewrite H0. f_equal. apply IH. exact Hrest.
  - rewrite H0. f_equal. apply IH. exact Hrest.
Qed.

Lemma sub_go_unmatched lim (s : string) prev :
  (forall n, unmatched r (Str.drop n s)) ->
  Re.sub_go r repl lim 0 prev s = s.
Proof.
  intros Hun. rewrite <- (sapp_nil_r s) at 1.
  rewrite sub_go_prefix.
  - simpl. apply sapp_nil_r.
  - intros n _. rewrite sapp_nil_r. apply Hun.
Qed.

(** At a match, the replacement is written and the match passed over. *)
Lemma sub_go_match lim prev c (m rest : string) :
  Re.match_here r prev (String c m +:+ rest) = Some rest ->
  lim <> Some 0%nat ->
  Re.sub_go r repl lim 0 prev (String c m +:+ rest)
  = repl +:+ Re.sub_go r repl (option_map Nat.pred lim) 0
               (last_of (Some c) m) rest.
Proof.
  intros Hm Hlim.
  assert (Hlen : Re.match_len r prev (String c m +:+ rest)
                 = Some (S (String.length m))).
  { unfold Re.match_len. rewrite Hm. f_equal. simpl.
    rewrite slen_app. lia. }
  simpl in *. destruct lim as [[|k]|]; [congruence| |];
    rewrite Hlen, sub_go_skip; reflexivity.
Qed.

End Substitution.

(** ** The author prefix *)
Section Authors.

Lemma exec_separator {R : Type} prev (s : string)
    (k : option ascii -> string -> option R) :
  Re.exec Pat.separator prev s k
  = match s with
    | String a (String b (String c s')) =>
        if starts_sep s then k (Some c) s' else None
    | _ => None
    end.
Proof.
  unfold Pat.separator, Re.Lit.
  destruct s as [|a [|b [|c s']]]; cbn [Re.exec Re.exactly starts_sep];
    try reflexivity.
  - destruct (Re.is_space a); reflexivity.
  - destruct (Re.is_space a); [|reflexivity].
    destruct (Ascii.eqb "-" b); reflexivity.
  - destruct (Re.is_space a); [|reflexivity].
    destruct (Ascii.eqb "-" b); [|reflexivity].
    destruct (Re.is_space c); reflexivity.
Qed.

Lemma exec_separator_none {R : Type} prev (s : string)
    (k : option ascii -> string -> option R) :
  starts_sep s = false -> Re.exec Pat.separator prev s k = None.
Proof.
  intros H. rewrite exec_separator, H.
  destruct s as [|a [|b [|c s']]]; reflexivity.
Qed.

Lemma has_separator_cons c (s : string) :
  has_separator (String c s) = false ->
  starts_sep (String c s) = false /\ has_separator s = false.
Proof.
  cbn [has_separator]. intros H. apply orb_false_iff in H. exact H.
Qed.

Lemma has_separator_drop : forall (n : nat) (s : string),
  has_separator s = false -> has_separator (Str.drop n s) = false.
Proof.
  induction n as [|n IH]; intros s H.
  - rewrite drop_0. exact H.
  - destruct s as [|c s]; [reflexivity|].
    apply has_separator_cons in H as [_ H]. cbn. apply IH. exact H.
Qed.

Lemma starts_sep_head c (u rest : string) :
  starts_sep (String c u +:+ " - " +:+ rest) = starts_sep (String c u +:+ " -").
Proof. destruct u as [|d [|e u]]; reflexivity. Qed.

(** The lazy [.+?] stops at the first separator. *)
Lemma star_lazy_to_separator {R : Type} (rest : string)
    (k : option ascii -> string -> option R) (x : R) :
  k (Some " "%char) rest = Some x ->
  forall (u : string) prev,
    plain u = true -> has_separator (u +:+ " -") = false ->
    Re.star_lazy Re.dot prev (u +:+ " - " +:+ rest)
      (fun p s => Re.exec Pat.separator p s k) = Some x.
Proof.
  intros Hk. induction u as [|c u IH]; intros prev Hp Hs.
  - cbn [String.append]. 
    change (" - " +:+ rest) with (String " " (String "-" (String " " rest))).
    cbn [Re.star_lazy]. rewrite exec_separator. cbn. rewrite Hk. reflexivity.
  - apply has_separator_cons in Hs as [Hh Hs].
    cbn in Hp. apply andb_true_iff in Hp as [Hc Hp].
    cbn [String.append Re.star_lazy].
    rewrite exec_separator_none.
    2:{ etransitivity; [|exact Hh]. destruct u as [|d [|e u]]; reflexivity. }
    rewrite Hc. apply IH; assumption.
Qed.

Lemma pattern1_match c (a rest : string) prev :
  plain (String c a) = true ->
  has_separator (String c a +:+ " -") = false ->
  Re.match_here Pat.pattern1 prev (String c a +:+ " - " +:+ rest) = Some rest.
Proof.
  intros Hp Hs. unfold Re.match_here, Pat.pattern1.
  cbn [Re.exec Re.exactly String.append].
  cbn in Hp. apply andb_true_iff in Hp as [Hc Hp]. rewrite Hc.
  apply has_separator_cons in Hs as [_ Hs].
  apply star_lazy_to_separator; auto.
Qed.

Lemma star_lazy_no_separator {R : Type}
    (k : option ascii -> string -> option R) : forall (s : string) prev,
  has_separator s = false ->
  Re.star_lazy Re.dot prev s (fun p s => Re.exec Pat.separator p s k) = None.
Proof.
  induction s as [|c s IH]; intros prev Hs.
  - reflexivity.
  - apply has_separator_cons in Hs as [Hh Hs].
    cbn [Re.star_lazy]. rewrite exec_separator_none by exact Hh.
    destruct (Re.dot c); [apply IH; exact Hs | reflexivity].
Qed.

Lemma pattern1_unmatched (s : string) :
  has_separator s = false -> unmatched Pat.pattern1 s.
Proof.
  intros Hs prev. unfold Re.match_here, Pat.pattern1.
  cbn [Re.exec Re.exactly].
  destruct s as [|c s]; [reflexivity|].
  apply has_separator_cons in Hs as [_ Hs].
  destruct (Re.dot c); [|reflexivity].
  apply star_lazy_no_separator. exact Hs.
Qed.

(** Removing the author prefix. *)
Lemma remove_authors (a rest : string) :
  nonempty a = true -> plain a = true ->
  has_separator (a +:+ " -") = false ->
  Re.sub_count Pat.pattern1 EmptyString (a +:+ " - " +:+ rest) 1 = rest.
Proof.
  intros Hne Hp Hs. destruct a as [|c a]; [discriminate|].
  unfold Re.sub_count.
  replace (String c a +:+ " - " +:+ rest)
    with (String c (a +:+ " - ") +:+ rest)
    by (cbn; rewrite sapp_assoc; reflexivity).
  rewrite sub_go_match.
  - cbn. apply sub_go_done.
  - cbn [String.append]. rewrite sapp_assoc.
    apply (pattern1_match c a rest None); assumption.
  - discriminate.
Qed.

Lemma keep_without_separator (s : string) :
  has_separator s = false ->
  Re.sub_count Pat.pattern1 EmptyString s 1 = s.
Proof.
  intros Hs. unfold Re.sub_count. apply sub_go_unmatched.
  intros n. apply pattern1_unmatched. apply has_separator_drop. exact Hs.
Qed.

End Authors.

(** ** The subtitle *)
Section Subtitle.

Lemma after_underscores_none {R : Type}
    (k : option ascii -> string -> option R) prev (s : string) :
  first_space s = false -> after_underscores k prev s = None.
Proof.
  unfold after_underscores. destruct s as [|d s]; [reflexivity|].
  cbn [first_space Re.exec Re.exactly]. intros ->. reflexivity.
Qed.

Lemma underscores_no_marker {R : Type}
    (k : option ascii -> string -> option R) : forall (s : string) prev,
  first_space s || starts_marker s = false ->
  Re.star_greedy (Ascii.eqb "_") prev s (after_underscores k) = None.
Proof.
  induction s as [|d s IH]; intros prev H.
  - reflexivity.
  - apply orb_false_iff in H as [Hf Hm].
    cbn [Re.star_greedy]. cbn [starts_marker] in Hm. unfold is_underscore in Hm.
    destruct (Ascii.eqb "_" d).
    + rewrite IH by exact Hm. apply after_underscores_none. exact Hf.
    + apply after_underscores_none. exact Hf.
Qed.

Lemma pattern2_unmatched (s : string) :
  starts_marker s = false -> unmatched Pat.pattern2 s.
Proof.
  intros Hs prev. unfold Re.match_here, Pat.pattern2.
  cbn [Re.exec Re.exactly].
  destruct s as [|c s]; [reflexivity|].
  cbn [starts_marker] in Hs. unfold is_underscore in Hs.
  destruct (Ascii.eqb "_" c); [|reflexivity].
  apply (underscores_no_marker (fun _ rest => Some rest)). exact Hs.
Qed.

Lemma has_marker_cons c (s : string) :
  has_marker (String c s) = false ->
  starts_marker (String c s) = false /\ has_marker s = false.
Proof.
  cbn [has_marker]. intros H. apply orb_false_iff in H. exact H.
Qed.

Lemma has_marker_drop : forall (n : nat) (s : string),
  has_marker s = false -> has_marker (Str.drop n s) = false.
Proof.
  induction n as [|n IH]; intros s H.
  - rewrite drop_0. exact H.
  - destruct s as [|c s]; [reflexivity|].
    apply has_marker_cons in H as [_ H]. cbn. apply IH. exact H.
Qed.

Lemma has_marker_starts (s : string) :
  has_marker s = false -> starts_marker s = false.
Proof.
  destruct s as [|c s]; [reflexivity|].
  intros H. apply has_marker_cons in H as [H _]. exact H.
Qed.

(** Underscores that do not reach the end of [u] are no marker, whatever
    follows [u]. *)
Lemma starts_marker_app : forall (u v : string),
  nonempty u = true -> starts_marker (u +:+ " ") = false ->
  starts_marker (u +:+ v) = false.
Proof.
  induction u as [|c u IH]; intros v Hne H; [discriminate|].
  cbn [String.append starts_marker] in *.
  destruct (is_underscore c); [|reflexivity]. cbn in *.
  apply orb_false_iff in H as [Hf Hm].
  destruct u as [|d u]; [cbv in Hf; discriminate Hf|].
  cbn [String.append first_space] in *. rewrite Hf. cbn.
  apply IH; [reflexivity|exact Hm].
Qed.

Lemma has_marker_app : forall (u v : string),
  has_marker (u +:+ " ") = false -> has_marker v = false ->
  has_marker (u +:+ v) = false.
Proof.
  induction u as [|c u IH]; intros v Hu Hv; [exact Hv|].
  pose proof (has_marker_cons _ _ Hu) as [Hs Hr].
  change (String c u +:+ v) with (String c (u +:+ v)).
  cbn [has_marker]. apply orb_false_iff. split.
  - apply (starts_marker_app (String c u) v); [reflexivity|exact Hs].
  - apply IH; assumption.
Qed.

Lemma greedy_no_dot : forall (e : string) prev,
  no_dot e = true -> Re.star_greedy Re.dot prev e ahead_dot = None.
Proof.
  induction e as [|c e IH]; intros prev H; [reflexivity|].
  unfold no_dot in H. cbn [all_chars] in H.
  apply andb_true_iff in H as [Hc He]. fold (no_dot e) in He.
  cbn [Re.star_greedy]. rewrite IH by exact He.
  unfold ahead_dot. cbn [Re.exec]. unfold is_dot in Hc.
  destruct (Ascii.eqb "." c); [discriminate Hc|].
  destruct (Re.dot c); reflexivity.
Qed.

(** The greedy [.+] of the subtitle pattern runs to the last dot. *)
Lemma greedy_to_last_dot (e : string) : no_dot e = true ->
  forall (u : string) prev,
    plain u = true ->
    Re.star_greedy Re.dot prev (u +:+ "." +:+ e) ahead_dot
    = Some ("." +:+ e).
Proof.
  intros He. induction u as [|c u IH]; intros prev Hu.
  - change (EmptyString +:+ "." +:+ e) with (String "." e).
    cbn [Re.star_greedy]. change (Re.dot ".") with true. cbn iota.
    rewrite greedy_no_dot by exact He. reflexivity.
  - cbn in Hu. apply andb_true_iff in Hu as [Hc Hu].
    change (String c u +:+ "." +:+ e) with (String c (u +:+ "." +:+ e)).
    cbn [Re.star_greedy]. rewrite Hc, IH by exact Hu. reflexivity.
Qed.

Lemma pattern2_match c (sub e : string) prev :
  plain (String c sub) = true -> no_dot e = true ->
  Re.match_here Pat.pattern2 prev ("_ " +:+ String c sub +:+ "." +:+ e)
  = Some ("." +:+ e).
Proof.
  intros Hp He. cbn in Hp. apply andb_true_iff in Hp as [Hc Hp].
  unfold Re.match_here, Pat.pattern2.
  change ("_ " +:+ String c sub +:+ "." +:+ e)
    with (String "_" (String " " (String c (sub +:+ "." +:+ e)))).
  cbn [Re.exec Re.exactly Re.star_greedy].
  change (Ascii.eqb "_" "_") with true. change (Ascii.eqb "_" " ") with false.
  change (Re.is_space " ") with true. cbn iota. rewrite Hc.
  apply (greedy_to_last_dot e He sub (Some c) Hp).
Qed.

(** Removing the subtitle. *)
Lemma remove_subtitle (t sub e : string) :
  has_marker (t +:+ " ") = false ->
  nonempty sub = true -> plain sub = true -> no_dot e = true ->
  Re.sub_count Pat.pattern2 EmptyString (t +:+ "_ " +:+ sub +:+ "." +:+ e) 1
  = t +:+ "." +:+ e.
Proof.
  intros Ht Hne Hp He. destruct sub as [|c sub]; [discriminate|].
  unfold Re.sub_count. rewrite sub_go_prefix.
  - f_equal.
    change ("_ " +:+ String c sub +:+ "." +:+ e)
      with (String "_" (String " " (String c sub)) +:+ "." +:+ e).
    rewrite sub_go_match.
    + cbn [option_map Nat.pred]. rewrite sub_go_done. reflexivity.
    + apply (pattern2_match c sub e); assumption.
    + discriminate.
  - intros n Hn. rewrite drop_app_le by lia.
    apply pattern2_unmatched. apply starts_marker_app.
    + pose proof (drop_length n t).
      destruct (Str.drop n t); [cbn in *; lia|reflexivity].
    + apply has_marker_starts. rewrite <- drop_app_le by lia.
      apply has_marker_drop. exact Ht.
Qed.

Lemma keep_without_marker (s : string) :
  has_marker s = false ->
  Re.sub_count Pat.pattern2 EmptyString s 1 = s.
Proof.
  intros Hs. unfold Re.sub_count. apply sub_go_unmatched.
  intros n. apply pattern2_unmatched. apply has_marker_starts.
  apply has_marker_drop. exact Hs.
Qed.

End Subtitle.

(** ** The article *)
Section Article.

Lemma startswith_split : forall (a b s : string),
  Str.startswith (a +:+ b) s
  = Str.startswith a s && Str.startswith b (Str.drop (String.length a) s).
Proof.
  induction a as [|c a IH]; intros b s.
  - cbn. try rewrite drop_0. reflexivity.
  - destruct s as [|d s]; cbn [String.append Str.startswith].
    + destruct (a +:+ b); reflexivity.
    + cbn [String.length Str.drop]. rewrite IH, andb_assoc. reflexivity.
Qed.

Lemma exec_lits {R : Type} : forall (t : string) prev (s : string)
    (k : option ascii -> string -> option R),
  Re.exec (Re.lits t) prev s k
  = if Str.startswith t s
    then k (last_of prev t) (Str.drop (String.length t) s)
    else None.
Proof.
  induction t as [|c t IH]; intros prev s k.
  - cbn. try rewrite drop_0. reflexivity.
  - cbn [Re.lits Re.exec]. unfold Re.Lit. cbn [Re.exec Re.exactly].
    destruct s as [|d s]; [reflexivity|].
    cbn [Str.startswith String.length Str.drop last_of].
    destruct (Ascii.eqb c d) eqn:E; [|reflexivity].
    apply Ascii.eqb_eq in E. subst d. apply IH.
Qed.

Lemma exec_tail_none {R : Type} art prev (s : string)
    (k : option ascii -> string -> option R) :
  Str.startswith (tail_text art) s = false ->
  Re.exec (tail_pattern art) prev s k = None.
Proof.
  unfold tail_pattern, tail_text. intros H.
  cbn [Re.exec]. rewrite exec_lits.
  rewrite startswith_split in H.
  destruct (Str.startswith ", " s); [|reflexivity].
  rewrite exec_lits. rewrite startswith_split in H. cbn [andb] in H.
  change (String.length ", ") with 2%nat in *.
  destruct (Str.startswith art (Str.drop 2 s)); [|reflexivity].
  cbn [andb] in H. unfold Re.Lit. cbn [Re.exec Re.exactly].
  destruct (Str.drop (String.length art) (Str.drop 2 s)) as [|d z];
    [reflexivity|].
  cbn [Str.startswith] in H. rewrite andb_true_r in H. rewrite H. reflexivity.
Qed.

Lemma exec_tail_app {R : Type} art prev (z : string)
    (k : option ascii -> string -> option R) :
  Re.exec (tail_pattern art) prev (tail_text art +:+ z) k = k (Some "."%char) z.
Proof.
  unfold tail_pattern, tail_text. cbn [Re.exec].
  rewrite exec_lits. rewrite !sapp_assoc, startswith_app, drop_app.
  rewrite exec_lits. rewrite startswith_app, drop_app.
  unfold Re.Lit. cbn [Re.exec Re.exactly String.append].
  reflexivity.
Qed.

Lemma star_greedy_none {R : Type} p
    (K : option ascii -> string -> option R) : forall (s : string) prev,
  (forall i prev', K prev' (Str.drop i s) = None) ->
  Re.star_greedy p prev s K = None.
Proof.
  induction s as [|c s IH]; intros prev H.
  - cbn. apply (H 0%nat).
  - cbn [Re.star_greedy]. rewrite IH.
    + destruct (p c); apply (H 0%nat).
    + intros i prev'. apply (H (S i)).
Qed.

Lemma star_greedy_some {R : Type} p
    (K : option ascii -> string -> option R) (s : string) prev :
  K prev s <> None -> Re.star_greedy p prev s K <> None.
Proof.
  intros H. destruct s as [|c s]; [exact H|].
  cbn [Re.star_greedy]. destruct (p c); [|exact H].
  destruct (Re.star_greedy p (Some c) s K); [discriminate|exact H].
Qed.

Lemma star_greedy_reach {R : Type} p
    (K : option ascii -> string -> option R) (v : string) :
  (forall prev, K prev v <> None) ->
  forall (u : string) prev,
    all_chars p u = true -> Re.star_greedy p prev (u +:+ v) K <> None.
Proof.
  intros HK. induction u as [|c u IH]; intros prev Hu.
  - apply star_greedy_some. apply HK.
  - cbn [all_chars] in Hu. apply andb_true_iff in Hu as [Hc Hu].
    cbn [String.append Re.star_greedy]. rewrite Hc.
    specialize (IH (Some c) Hu).
    destruct (Re.star_greedy p (Some c) (u +:+ v) K);
      [discriminate|contradiction].
Qed.

Lemma search_none (r : Re.regex) : forall (s : string) prev,
  (forall n, unmatched r (Str.drop n s)) -> Re.search_from r prev s = None.
Proof.
  induction s as [|c s IH]; intros prev H.
  - cbn. rewrite match_len_none; [reflexivity|apply (H 0%nat)].
  - cbn [Re.search_from]. rewrite match_len_none by apply (H 0%nat).
    rewrite IH; [reflexivity|]. intros n. apply (H (S n)).
Qed.

Lemma found_at_head (r : Re.regex) (s : string) :
  Re.match_here r None s <> None -> Re.found r s = true.
Proof.
  intros H. unfold Re.found, Re.search.
  destruct s as [|c s]; cbn [Re.search_from]; unfold Re.match_len;
    destruct (Re.match_here r None _); try reflexivity; contradiction.
Qed.

Lemma article_tail_unmatched art (s : string) :
  (forall i, Str.startswith (tail_text art) (Str.drop i s) = false) ->
  unmatched (Pat.article_tail art) s.
Proof.
  intros H prev. unfold Re.match_here, Pat.article_tail.
  fold (tail_pattern art). cbn [Re.exec Re.exactly].
  destruct s as [|c s]; [reflexivity|].
  destruct (Re.dot c); [|reflexivity].
  apply star_greedy_none. intros i prev'.
  apply exec_tail_none. apply (H (S i)).
Qed.

(** The article text occurs only where the stem ends with it. *)
Lemma no_occurrence art (body e : string) :
  no_dot body = true -> no_dot e = true ->
  endswith (", " +:+ art) body = false ->
  forall i, Str.startswith (tail_text art) (Str.drop i (body +:+ "." +:+ e))
            = false.
Proof.
  intros Hb He Hend i.
  destruct (Str.startswith (tail_text art) (Str.drop i (body +:+ "." +:+ e)))
    eqn:Hs; [|reflexivity].
  apply startswith_inv in Hs.
  pose proof (take_drop i (body +:+ "." +:+ e)) as Htd.
  rewrite Hs in Htd. unfold tail_text in Htd.
  set (z := Str.drop (String.length (", " +:+ art +:+ "."))
              (Str.drop i (body +:+ "." +:+ e))) in Htd.
  set (pre := Str.take i (body +:+ "." +:+ e)) in Htd.
  assert (Heq : body +:+ "." +:+ e
                = (pre +:+ ", " +:+ art) +:+ "." +:+ z).
  { rewrite <- Htd. rewrite !sapp_assoc. reflexivity. }
  apply dot_unique in Heq as [Hbody _]; [|assumption|assumption].
  rewrite Hbody, endswith_app in Hend. discriminate.
Qed.

Lemma has_article_false art w (body e : string) :
  no_dot body = true -> no_dot e = true ->
  endswith (", " +:+ art) body = false ->
  has_article art w (body +:+ "." +:+ e) = false.
Proof.
  intros Hb He Hend. unfold has_article, Re.found, Re.search.
  rewrite search_none; [reflexivity|].
  intros n. apply article_tail_unmatched. intros i.
  unfold Str.take_last. rewrite !drop_drop.
  apply no_occurrence; assumption.
Qed.

Lemma has_article_true art w (b e : string) :
  nonempty b = true -> plain b = true ->
  (String.length art + 3 + String.length e < w)%nat ->
  has_article art w (b +:+ ", " +:+ art +:+ "." +:+ e) = true.
Proof.
  intros Hne Hp Hw. unfold has_article.
  replace (b +:+ ", " +:+ art +:+ "." +:+ e)
    with (b +:+ (tail_text art +:+ e))
    by (unfold tail_text; rewrite !sapp_assoc; reflexivity).
  assert (Hlen : String.length (tail_text art +:+ e)
                 = (String.length art + 3 + String.length e)%nat).
  { unfold tail_text. rewrite !slen_app. cbn. lia. }
  rewrite take_last_app by lia. unfold Str.take_last.
  set (u := Str.drop _ b).
  assert (Hu : plain u = true) by (apply all_chars_drop; exact Hp).
  assert (Hul : (0 < String.length u)%nat).
  { unfold u. rewrite drop_length.
    destruct b as [|x b]; [discriminate|]. cbn [String.length]. lia. }
  destruct u as [|c u]; [cbn in Hul; lia|].
  apply found_at_head. unfold Re.match_here, Pat.article_tail.
  fold (tail_pattern art). cbn [Re.exec Re.exactly String.append].
  cbn in Hu. apply andb_true_iff in Hu as [Hc Hu]. rewrite Hc.
  apply star_greedy_reach; [|exact Hu].
  intros prev. rewrite exec_tail_app. discriminate.
Qed.

Lemma article_dot_inv art prev (s rest : string) :
  Re.match_here (Pat.article_dot art) prev s = Some rest ->
  exists w, s = String "," (String w (art +:+ "." +:+ rest)).
Proof.
  unfold Re.match_here, Pat.article_dot, Re.Lit.
  destruct s as [|a [|b s]]; cbn [Re.exec Re.exactly]; try discriminate.
  - destruct (Ascii.eqb "," a); discriminate.
  - destruct (Ascii.eqb "," a) eqn:Ea; [|discriminate].
    apply Ascii.eqb_eq in Ea. subst a.
    destruct (Re.is_space b); [|discriminate].
    rewrite exec_lits.
    destruct (Str.startswith art s) eqn:Hs; [|discriminate].
    apply startswith_inv in Hs.
    destruct (Str.drop (String.length art) s) as [|d z]; [discriminate|].
    destruct (Ascii.eqb "." d) eqn:Ed; [|discriminate].
    apply Ascii.eqb_eq in Ed. subst d. intros H. injection H as <-.
    exists b. rewrite Hs at 1. reflexivity.
Qed.

Lemma article_dot_match art prev (e : string) :
  Re.match_here (Pat.article_dot art) prev
    (String "," (String " " (art +:+ ".")) +:+ e) = Some e.
Proof.
  unfold Re.match_here, Pat.article_dot, Re.Lit.
  cbn [Re.exec Re.exactly String.append].
  change (Ascii.eqb "," ",") with true. change (Re.is_space " ") with true.
  cbn iota. rewrite exec_lits, sapp_assoc, startswith_app, drop_app.
  reflexivity.
Qed.

(** Taking the article off the end of the name. *)
Lemma remove_article_dot art (b e : string) :
  no_dot b = true -> no_dot art = true -> no_dot e = true ->
  no_comma e = true ->
  Re.sub (Pat.article_dot art) "." (b +:+ ", " +:+ art +:+ "." +:+ e)
  = b +:+ "." +:+ e.
Proof.
  intros Hb Hart He Hc. unfold Re.sub. rewrite sub_go_prefix.
  - f_equal.
    replace (", " +:+ art +:+ "." +:+ e)
      with (String "," (String " " (art +:+ ".")) +:+ e)
      by (cbn; rewrite sapp_assoc; reflexivity).
    rewrite sub_go_match;
      [|apply article_dot_match|discriminate].
    rewrite sub_go_unmatched; [reflexivity|].
    intros n prev.
    destruct (Re.match_here (Pat.article_dot art) prev (Str.drop n e))
      as [rest|] eqn:Hm; [|reflexivity].
    apply article_dot_inv in Hm as [w Hm].
    pose proof (all_chars_drop _ n e Hc) as Hd. rewrite Hm in Hd.
    cbn in Hd. discriminate.
  - intros n Hn prev. rewrite drop_app_le by lia.
    destruct (Re.match_here (Pat.article_dot art) prev
                (Str.drop n b +:+ ", " +:+ art +:+ "." +:+ e))
      as [rest|] eqn:Hm; [|reflexivity].
    exfalso. apply article_dot_inv in Hm as [w Hm].
    assert (Heq : (Str.drop n b +:+ ", " +:+ art) +:+ "." +:+ e
                  = String "," (String w art) +:+ "." +:+ rest).
    { rewrite !sapp_assoc. exact Hm. }
    apply dot_unique in Heq as [Heq _]; [| |exact He].
    + apply (f_equal String.length) in Heq. rewrite !slen_app in Heq.
      pose proof (drop_length n b). cbn in Heq. lia.
    + unfold no_dot in *. rewrite !all_chars_app, Hart.
      rewrite (all_chars_drop _ n b Hb). reflexivity.
Qed.

End Article.

(** ** Strip-to-title on well-formed names *)
Section StripToTitle.

Lemma starts_sep_no_space c (u v : string) :
  starts_sep (String c u) = false -> no_space v = true ->
  starts_sep (String c u +:+ v) = false.
Proof.
  intros Hs Hv. destruct u as [|d [|e u]]; [| |exact Hs].
  - destruct v as [|x [|y v]]; try reflexivity.
    unfold no_space in Hv. cbn [all_chars] in Hv.
    apply andb_true_iff in Hv as [_ Hv]. apply andb_true_iff in Hv as [Hy _].
    unfold Re.not_space in Hy. cbn [String.append starts_sep].
    destruct (Re.is_space y); [discriminate|].
    rewrite andb_false_r. reflexivity.
  - destruct v as [|x v]; [exact Hs|].
    unfold no_space in Hv. cbn [all_chars] in Hv.
    apply andb_true_iff in Hv as [Hx _].
    unfold Re.not_space in Hx. cbn [String.append starts_sep].
    destruct (Re.is_space x); [discriminate|].
    rewrite andb_false_r. reflexivity.
Qed.

Lemma has_separator_no_space : forall (v : string),
  no_space v = true -> has_separator v = false.
Proof.
  induction v as [|c v IH]; intros H; [reflexivity|].
  unfold no_space in H. cbn [all_chars] in H.
  apply andb_true_iff in H as [Hc Hv].
  cbn [has_separator]. rewrite (IH Hv), orb_false_r.
  unfold Re.not_space in Hc. destruct v as [|d [|e v]]; try reflexivity.
  cbn [starts_sep]. destruct (Re.is_space c); [discriminate|reflexivity].
Qed.

Lemma has_separator_app : forall (u v : string),
  has_separator u = false -> no_space v = true ->
  has_separator (u +:+ v) = false.
Proof.
  induction u as [|c u IH]; intros v Hu Hv.
  - apply has_separator_no_space. exact Hv.
  - apply has_separator_cons in Hu as [Hs Hu].
    change (String c u +:+ v) with (String c (u +:+ v)).
    cbn [has_separator]. apply orb_false_iff. split.
    + apply (starts_sep_no_space c u v); assumption.
    + apply IH; assumption.
Qed.

Lemma drop_app_ge : forall (k : nat) (u v : string),
  Str.drop (String.length u + k) (u +:+ v) = Str.drop k v.
Proof.
  intros k u. revert k. induction u as [|c u IH]; intros k v.
  - reflexivity.
  - cbn [String.length String.append Nat.add Str.drop]. apply IH.
Qed.

Lemma endswith_app_long (t u v : string) :
  (String.length t <= String.length v)%nat ->
  endswith t (u +:+ v) = endswith t v.
Proof.
  intros H. unfold endswith, Str.take_last. rewrite slen_app.
  replace (String.length u + String.length v - String.length t)%nat
    with (String.length u + (String.length v - String.length t))%nat by lia.
  rewrite drop_app_ge. reflexivity.
Qed.

Lemma last_app : forall (u : string) c (v : string),
  Str.last (u +:+ String c v) = Str.last (String c v).
Proof.
  induction u as [|x u IH]; intros c v; [reflexivity|].
  rewrite <- IH. unfold Str.last, Str.from_end.
  cbn [String.append String.length].
  destruct (u +:+ String c v) as [|y w] eqn:E.
  - destruct u; discriminate.
  - cbn [String.length Nat.leb Nat.sub String.get].
    rewrite !Nat.sub_0_r. reflexivity.
Qed.

(** What is used of the extension. *)
Lemma known_ext (e : string) :
  one_of ["pdf"; "azw"; "epub"; "mobi"] e = true ->
  plain e = true /\ no_dot e = true /\ no_comma e = true
  /\ (String.length e <= 4)%nat
  /\ has_marker ("." +:+ e) = false
  /\ no_space ("." +:+ e) = true
  /\ forall u, last_is "_" (u +:+ "." +:+ e) = Ok false.
Proof.
  unfold one_of. cbn [existsb]. rewrite !orb_true_iff, !String.eqb_eq.
  intros [->|[->|[->|[->|H]]]]; [| | | |discriminate];
    (repeat split; try (vm_compute; reflexivity); try (cbn; lia);
     intros u; unfold last_is;
     change (u +:+ "." +:+ ?e) with (u +:+ String "." e);
     rewrite last_app; reflexivity).
Qed.

Lemma known_article (a : string) :
  one_of ["A"; "An"; "The"] a = true -> a = "A" \/ a = "An" \/ a = "The".
Proof.
  unfold one_of. cbn [existsb]. rewrite !orb_true_iff, !String.eqb_eq.
  intros [->|[->|[->|H]]]; auto. discriminate.
Qed.

Variable n : book_name.
Hypothesis Hwf : well_formed n = true.

Lemma wf_parts :
  (nonempty (authors n) = true /\ plain (authors n) = true
   /\ has_separator (authors n +:+ " -") = false)
  /\ (nonempty (title n) = true /\ plain (title n) = true
      /\ no_dot (title n) = true)
  /\ on_option (fun s => nonempty s && plain s && no_dot s) (subtitle n) = true
  /\ on_option (one_of ["A"; "An"; "The"]) (article n) = true
  /\ one_of ["pdf"; "azw"; "epub"; "mobi"] (ext n) = true
  /\ has_separator (out_title n) = false
  /\ has_marker (out_title n +:+ " ") = false
  /\ tail_free (out_title n) = true
  /\ match article n with None => tail_free (stem n) | Some _ => true end
     = true.
Proof.
  unfold well_formed in Hwf.
  repeat (apply andb_true_iff in Hwf; destruct Hwf as [Hwf ?]).
  repeat match goal with
         | H : negb _ = true |- _ => apply negb_true_iff in H
         end.
  repeat split; assumption.
Qed.

Lemma tail_free_parts (s : string) :
  tail_free s = true ->
  forall a, a = "A" \/ a = "An" \/ a = "The" ->
            endswith (", " +:+ a) s = false.
Proof.
  unfold tail_free. intros H.
  apply andb_true_iff in H as [H H3]. apply andb_true_iff in H as [H1 H2].
  apply negb_true_iff in H1, H2, H3.
  intros a [->|[->| ->]]; assumption.
Qed.

Lemma stem_facts :
  nonempty (stem n) = true /\ plain (stem n) = true
  /\ no_dot (stem n) = true.
Proof.
  destruct wf_parts as ((_ & _ & _) & (Ht1 & Ht2 & Ht3) & Hsub & _).
  unfold stem, subtitle_part. destruct (subtitle n) as [s|]; cbn in Hsub.
  - apply andb_true_iff in Hsub as [Hsub Hs3].
    apply andb_true_iff in Hsub as [Hs1 Hs2].
    unfold plain, no_dot in *. rewrite !all_chars_app, Ht2, Ht3, Hs2, Hs3.
    repeat split; try reflexivity.
    destruct (title n); [discriminate|reflexivity].
  - rewrite sapp_nil_r. auto.
Qed.

Lemma title_marker : has_marker (title n +:+ " ") = false.
Proof.
  destruct wf_parts as (_ & _ & _ & Hart & _ & _ & Hm & _).
  unfold out_title in Hm. destruct (article n) as [a|]; [|exact Hm].
  rewrite <- sapp_assoc, sapp_assoc in Hm.
  apply (has_marker_drop (String.length (a +:+ " "))) in Hm.
  rewrite drop_app in Hm. exact Hm.
Qed.

(** The subtitle pattern takes the subtitle, if there is one, and nothing
    else. *)
Lemma strip_subtitle :
  Re.sub_count Pat.pattern2 EmptyString (stem n +:+ "." +:+ ext n) 1
  = title n +:+ "." +:+ ext n.
Proof.
  destruct wf_parts as (_ & _ & Hsub & _ & Hext & _).
  destruct (known_ext _ Hext) as (He1 & He2 & He3 & He4 & He5 & He6 & He7).
  pose proof title_marker as Hm.
  unfold stem, subtitle_part. destruct (subtitle n) as [s|]; cbn in Hsub.
  - apply andb_true_iff in Hsub as [Hsub Hs3].
    apply andb_true_iff in Hsub as [Hs1 Hs2].
    rewrite !sapp_assoc. apply remove_subtitle; assumption.
  - rewrite sapp_nil_r. apply keep_without_marker.
    apply has_marker_app; assumption.
Qed.

Lemma out_title_no_dot : no_dot (out_title n) = true.
Proof.
  destruct wf_parts as (_ & (_ & _ & Ht3) & _ & Hart & _).
  unfold out_title. destruct (article n) as [a|]; [|exact Ht3].
  cbn in Hart. apply known_article in Hart.
  unfold no_dot in *. rewrite !all_chars_app, Ht3.
  destruct Hart as [->|[->| ->]]; reflexivity.
Qed.

(** The name [withoutAuthors] computes once the authors are gone. *)
Lemma new_of_stem :
  withoutAuthors_new (stem n +:+ article_part n +:+ "." +:+ ext n)
  = stripped n.
Proof.
  destruct wf_parts as (_ & _ & _ & Hart & Hext & _ & _ & _ & Htail).
  destruct (known_ext _ Hext) as (He1 & He2 & He3 & He4 & He5 & He6 & He7).
  destruct stem_facts as (Hs1 & Hs2 & Hs3).
  unfold withoutAuthors_new, stripped, out_title, article_part,
    drop_article_subtitle.
  destruct (article n) as [a|].
  - cbn in Hart. apply known_article in Hart.
    assert (Hbody : forall art, no_dot art = true ->
              no_dot (stem n +:+ ", " +:+ art) = true).
    { intros art Ha. unfold no_dot in *. rewrite !all_chars_app, Hs3, Ha.
      reflexivity. }
    assert (Hre : forall art,
              stem n +:+ (", " +:+ art) +:+ "." +:+ ext n
              = (stem n +:+ ", " +:+ art) +:+ "." +:+ ext n).
    { intros art. rewrite !sapp_assoc. reflexivity. }
    destruct Hart as [->|[->| ->]].
    + rewrite !sapp_assoc.
      rewrite has_article_true by (try assumption; cbn; lia).
      rewrite remove_article_dot by (try assumption; reflexivity).
      rewrite strip_subtitle. rewrite ?sapp_assoc. reflexivity.
    + rewrite (Hre "An"), (has_article_false "A");
        [|apply Hbody; reflexivity|assumption
         |rewrite endswith_app_long by (vm_compute; lia); reflexivity].
      rewrite !sapp_assoc.
      rewrite has_article_true by (try assumption; cbn; lia).
      rewrite remove_article_dot by (try assumption; reflexivity).
      rewrite strip_subtitle. rewrite ?sapp_assoc. reflexivity.
    + rewrite (Hre "The").
      rewrite (has_article_false "A");
        [|apply Hbody; reflexivity|assumption
         |rewrite endswith_app_long by (vm_compute; lia); reflexivity].
      rewrite (has_article_false "An");
        [|apply Hbody; reflexivity|assumption
         |rewrite endswith_app_long by (vm_compute; lia); reflexivity].
      rewrite !sapp_assoc.
      rewrite has_article_true by (try assumption; cbn; lia).
      rewrite remove_article_dot by (try assumption; reflexivity).
      rewrite strip_subtitle. rewrite ?sapp_assoc. reflexivity.
  - change (stem n +:+ EmptyString +:+ "." +:+ ext n)
      with (stem n +:+ "." +:+ ext n).
    pose proof (tail_free_parts _ Htail) as Hfree.
    rewrite !has_article_false by (try assumption; apply Hfree; auto).
    apply strip_subtitle.
Qed.

(** The stripped name is left as it is. *)
Lemma new_of_stripped : withoutAuthors_new (stripped n) = stripped n.
Proof.
  destruct wf_parts as (_ & _ & _ & _ & Hext & _ & Hm & Htail & _).
  destruct (known_ext _ Hext) as (He1 & He2 & He3 & He4 & He5 & He6 & He7).
  pose proof out_title_no_dot as Hd.
  pose proof (tail_free_parts _ Htail) as Hfree.
  unfold withoutAuthors_new, stripped.
  rewrite !has_article_false by (try assumption; apply Hfree; auto).
  apply keep_without_marker. apply has_marker_app; assumption.
Qed.

Lemma strip_rendered : strip_to_title (render n) = Ok (stripped n).
Proof.
  destruct wf_parts as ((Ha1 & Ha2 & Ha3) & _ & _ & _ & Hext & _).
  destruct (known_ext _ Hext) as (_ & _ & _ & _ & _ & _ & He7).
  unfold strip_to_title, render.
  rewrite remove_authors by assumption.
  rewrite new_of_stem. unfold stripped. rewrite He7. reflexivity.
Qed.

Lemma strip_stripped : strip_to_title (stripped n) = Ok (stripped n).
Proof.
  destruct wf_parts as (_ & _ & _ & _ & Hext & Hsep & _).
  destruct (known_ext _ Hext) as (_ & _ & _ & _ & _ & He6 & He7).
  unfold strip_to_title.
  rewrite keep_without_separator.
  - rewrite new_of_stripped. unfold stripped. rewrite He7. reflexivity.
  - unfold stripped. apply has_separator_app; assumption.
Qed.

End StripToTitle.

(** The dictionary entry [withoutAuthors] leaves for one book is keyed by
    the name [strip_to_title] computes. *)
Lemma withoutAuthors_records_title (path book : string) (w w' : World) :
  withoutAuthors path [book] w = (w', Ok tt) ->
  exists y, strip_to_title book = Ok y /\ undo w' = [(y, book)].
Proof.
  unfold withoutAuthors, strip_to_title, for_each, bind, undo_clear,
    os_rename, lift, undo_set, print, ret. cbn [fs undo stdout stdin renames].
  destruct (rename_outcome (fs w) book _) as [d1|e1]; [|discriminate].
  cbn [fs undo stdout stdin renames].
  destruct (rename_outcome d1 _ _) as [d2|e2]; [|discriminate].
  cbn [fs undo stdout stdin renames].
  destruct (last_is "_" _) as [[|]|e3]; [| |discriminate].
  - cbn [fs undo stdout stdin renames].
    destruct (rename_outcome d2 _ _) as [d3|e3]; [|discriminate].
    cbn [fs undo stdout stdin renames Dict.set].
    intros H. injection H as <-. eexists. split; reflexivity.
  - cbn [fs undo stdout stdin renames Dict.set].
    intros H. injection H as <-. eexists. split; reflexivity.
Qed.

(** ** The collections database *)

Section BinarySearch.

Lemma leb_refl s : String.leb s s = true.
Proof. destruct (String.leb_total s s); assumption. Qed.

Lemma ltb_leb s1 s2 : String.ltb s1 s2 = true -> String.leb s1 s2 = true.
Proof.
  unfold String.ltb, String.leb. destruct (String.compare s1 s2); congruence.
Qed.

Lemma leb_cases s1 s2 :
  String.leb s1 s2 = true -> s1 = s2 \/ String.ltb s1 s2 = true.
Proof.
  unfold String.ltb, String.leb.
  destruct (String.compare s1 s2) eqn:H; try discriminate; intros _.
  - left. apply String.compare_eq_iff. exact H.
  - right. reflexivity.
Qed.

Lemma not_leb_ltb s1 s2 : String.leb s1 s2 = false -> String.ltb s2 s1 = true.
Proof.
  unfold String.ltb, String.leb. rewrite (String.compare_antisym s2 s1).
  destruct (String.compare s1 s2); simpl; congruence.
Qed.

Lemma leb_trans s1 s2 s3 :
  String.leb s1 s2 = true -> String.leb s2 s3 = true -> String.leb s1 s3 = true.
Proof.
  intros H12 H23.
  destruct (leb_cases _ _ H12) as [->|L12]; [exact H23|].
  destruct (leb_cases _ _ H23) as [<-|L23]; [exact H12|].
  apply ltb_leb. eapply ltb_trans; eassumption.
Qed.

Lemma ascending_tail x rest : ascending (x :: rest) = true -> ascending rest = true.
Proof.
  destruct rest as [|y rest]; [reflexivity|]. simpl.
  intros H. apply andb_true_iff in H as [_ H]. exact H.
Qed.

Lemma ascending_head x rest y :
  ascending (x :: rest) = true -> In y rest -> String.leb x y = true.
Proof.
  revert x. induction rest as [|z rest IH]; intros x Hs Hin; [contradiction|].
  simpl in Hs. apply andb_true_iff in Hs as [Hxz Hrest].
  destruct Hin as [->|Hin]; [exact Hxz|].
  eapply leb_trans; [exact Hxz|]. apply IH; assumption.
Qed.

Lemma ascending_pairwise : forall xs i j x y,
  ascending xs = true -> (i <= j)%nat ->
  nth_error xs i = Some x -> nth_error xs j = Some y ->
  String.leb x y = true.
Proof.
  induction xs as [|z xs IH]; intros i j x y Hs Hij Hx Hy.
  - destruct i; discriminate.
  - destruct i as [|i]; destruct j as [|j]; try lia.
    + simpl in Hx, Hy. injection Hx as <-. injection Hy as <-. apply leb_refl.
    + simpl in Hx, Hy. injection Hx as <-. eapply ascending_head; [exact Hs|].
      eapply nth_error_In; exact Hy.
    + simpl in Hx, Hy.
      eapply IH; [eapply ascending_tail; exact Hs| |exact Hx|exact Hy]. lia.
Qed.

(** Every index the loop reads is inside the list, and the fuel is not used
    up. *)
Lemma binarySearch_loop_ends xs x : forall fuel lo hi,
  (0 <= lo)%Z -> (hi <= Z.of_nat (length xs))%Z -> (hi - lo < Z.of_nat fuel)%Z ->
  (0 < fuel)%nat ->
  (binarySearch_loop fuel xs x lo hi = Found x /\ In x xs)
  \/ binarySearch_loop fuel xs x lo hi = NotFound.
Proof.
  induction fuel as [|fuel IH]; intros lo hi Hlo Hhi Hfuel Hpos.
  - lia.
  - cbn [binarySearch_loop].
    destruct (Z.ltb_spec lo hi) as [Hlt|Hge]; [|right; reflexivity].
    set (mid := ((lo + hi) / 2)%Z).
    assert (Hmid : (lo <= mid < hi)%Z) by (unfold mid; Z.div_mod_to_equations; lia).
    set (m := Z.to_nat mid). assert (Hm : mid = Z.of_nat m) by lia.
    rewrite Hm, item_nth.
    destruct (nth_error xs m) as [y|] eqn:Hy.
    2:{ apply nth_error_None in Hy. lia. }
    destruct (String.eqb_spec y x) as [->|Hne].
    + left. split; [reflexivity|]. eapply nth_error_In; exact Hy.
    + destruct (String.ltb y x); apply IH; lia.
Qed.

Lemma binarySearch_loop_finds xs x (i : nat) :
  ascending xs = true -> nth_error xs i = Some x ->
  forall fuel lo hi,
    (0 <= lo <= Z.of_nat i)%Z -> (Z.of_nat i < hi)%Z ->
    (hi <= Z.of_nat (length xs))%Z -> (hi - lo < Z.of_nat fuel)%Z ->
    binarySearch_loop fuel xs x lo hi = Found x.
Proof.
  intros Hs Hi. induction fuel as [|fuel IH]; intros lo hi Hlo Hih Hhi Hfuel; [lia|].
  cbn [binarySearch_loop].
  destruct (Z.ltb_spec lo hi) as [Hlt|Hge]; [|lia].
  set (mid := ((lo + hi) / 2)%Z).
  assert (Hmid : (lo <= mid < hi)%Z) by (unfold mid; Z.div_mod_to_equations; lia).
  set (m := Z.to_nat mid). assert (Hm : mid = Z.of_nat m) by lia.
  rewrite Hm, item_nth.
  destruct (nth_error xs m) as [y|] eqn:Hy.
  2:{ apply nth_error_None in Hy. lia. }
  destruct (String.eqb_spec y x) as [->|Hne]; [reflexivity|].
  destruct (String.ltb y x) eqn:Hlt'.
  - apply IH; try lia.
    destruct (Nat.le_gt_cases i m) as [Hle|Hgt]; [|lia].
    pose proof (ascending_pairwise _ _ _ _ _ Hs Hle Hi Hy) as Hk.
    destruct (leb_cases _ _ Hk) as [->|Hk']; [contradiction Hne; reflexivity|].
    rewrite (ltb_asym _ _ Hk') in Hlt'. discriminate.
  - apply IH; try lia.
    destruct (Nat.le_gt_cases m i) as [Hle|Hgt]; [|lia].
    pose proof (ascending_pairwise _ _ _ _ _ Hs Hle Hy Hi) as Hk.
    destruct (leb_cases _ _ Hk) as [->|Hk']; [contradiction Hne; reflexivity|].
    rewrite Hk' in Hlt'. discriminate.
Qed.

Lemma binarySearch_ends xs x :
  (binarySearch xs x = Found x /\ In x xs) \/ binarySearch xs x = NotFound.
Proof. unfold binarySearch. apply binarySearch_loop_ends; lia. Qed.

Lemma binarySearch_iff xs x :
  ascending xs = true -> (binarySearch xs x = Found x <-> In x xs).
Proof.
  intros Hs. split.
  - intros H. destruct (binarySearch_ends xs x) as [[_ Hin]|Hn]; [exact Hin|].
    rewrite Hn in H. discriminate.
  - intros Hin. apply In_nth_error in Hin as [i Hi].
    assert (Hlen : (i < length xs)%nat).
    { apply nth_error_Some. rewrite Hi. discriminate. }
    unfold binarySearch. apply (binarySearch_loop_finds xs x i Hs Hi); lia.
Qed.

Lemma insert_sorted_in x y xs : In y (insert_sorted x xs) <-> y = x \/ In y xs.
Proof.
  induction xs as [|z xs IH]; simpl.
  - intuition congruence.
  - destruct (String.leb x z); simpl; [intuition congruence|].
    rewrite IH. intuition congruence.
Qed.

Lemma insert_sorted_ascending x xs :
  ascending xs = true -> ascending (insert_sorted x xs) = true.
Proof.
  induction xs as [|z xs IH]; intros Hs; [reflexivity|].
  cbn [insert_sorted]. destruct (String.leb x z) eqn:Hxz.
  - cbn [ascending]. rewrite Hxz. exact Hs.
  - pose proof (IH (ascending_tail _ _ Hs)) as IH'.
    pose proof (ltb_leb _ _ (not_leb_ltb _ _ Hxz)) as Hzx.
    destruct xs as [|u xs].
    + cbn. rewrite Hzx. reflexivity.
    + cbn [insert_sorted] in *. simpl in Hs. apply andb_true_iff in Hs as [Hzu Hs].
      destruct (String.leb x u) eqn:Hxu.
      * cbn [ascending]. rewrite Hzx, Hxu. exact Hs.
      * cbn [ascending] in *. rewrite Hzu. exact IH'.
Qed.

Lemma sorted_in x xs : In x (sorted xs) <-> In x xs.
Proof.
  induction xs as [|z xs IH]; simpl; [tauto|].
  rewrite insert_sorted_in, IH. intuition congruence.
Qed.

Lemma sorted_ascending xs : ascending (sorted xs) = true.
Proof.
  induction xs as [|z xs IH]; [reflexivity|]. simpl.
  apply insert_sorted_ascending. exact IH.
Qed.

Lemma insert_sorted_length x xs : length (insert_sorted x xs) = S (length xs).
Proof.
  induction xs as [|z xs IH]; simpl; [reflexivity|].
  destruct (String.leb x z); simpl; congruence.
Qed.

Lemma existsb_eqb_in x xs : existsb (String.eqb x) xs = true <-> In x xs.
Proof.
  rewrite existsb_exists. split.
  - intros [y [Hin He]]. apply String.eqb_eq in He. subst. exact Hin.
  - intros Hin. exists x. split; [exact Hin|apply String.eqb_refl].
Qed.

(** The test of the two database functions. *)
Lemma not_binarySearch_sorted books book :
  not_binarySearch (sorted books) book
  = Ok (negb (existsb (String.eqb book) books) || negb (nonempty book)).
Proof.
  unfold not_binarySearch.
  destruct (existsb (String.eqb book) books) eqn:Hex.
  - apply (proj1 (existsb_eqb_in _ _)) in Hex.
    apply (proj2 (sorted_in _ _)) in Hex.
    apply (proj2 (binarySearch_iff _ _ (sorted_ascending books))) in Hex.
    rewrite Hex. reflexivity.
  - destruct (binarySearch_ends (sorted books) book) as [[_ Hin]|Hn].
    + apply (proj1 (sorted_in _ _)) in Hin.
      apply (proj2 (existsb_eqb_in _ _)) in Hin. congruence.
    + rewrite Hn. reflexivity.
Qed.

End BinarySearch.

Section Collections.

Variable books : list string.

Lemma check_loop : forall rows counter w,
  for_fold rows counter (fun counter row =>
    let book := db_filename (snd row) in
    absent <- lift (not_binarySearch (sorted books) book) ;;
    if absent : bool then
      print ("Entry " +:+ book +:+ " from collection " +:+ fst row
             +:+ " not found in book filenames on device.") ;;
      ret (S counter)
    else ret counter) w
  = (mkWorld (fs w) (undo w)
       (stdout w ++ map check_line (List.filter (stale books) rows))
       (stdin w) (renames w),
     Ok (counter + length (List.filter (stale books) rows))%nat).
Proof.
  induction rows as [|row rows IH]; intros counter w.
  - simpl. unfold ret. rewrite app_nil_r, Nat.add_0_r. destruct w; reflexivity.
  - cbn [for_fold]. unfold bind at 1. unfold bind at 1.
    rewrite not_binarySearch_sorted. unfold lift at 1.
    cbn [List.filter]. fold (stale books row).
    destruct (stale books row).
    + unfold bind at 1, print at 1, ret at 1. rewrite IH. cbn.
      rewrite <- app_assoc. repeat f_equal. lia.
    + unfold ret at 1. rewrite IH. reflexivity.
Qed.

Lemma filter_all {A} (f : A -> bool) (xs : list A) :
  (forall x, In x xs -> f x = true) -> List.filter f xs = xs.
Proof.
  induction xs as [|x xs IH]; intros H; [reflexivity|]. simpl.
  rewrite (H x (or_introl eq_refl)), IH; [reflexivity|].
  intros y Hy. apply H. right. exact Hy.
Qed.

Lemma filter_filter {A} (f g : A -> bool) (xs : list A) :
  List.filter f (List.filter g xs) = List.filter (fun x => g x && f x) xs.
Proof.
  induction xs as [|x xs IH]; [reflexivity|]. simpl.
  destruct (g x); simpl; [destruct (f x)|]; rewrite IH; reflexivity.
Qed.

Lemma clean_loop : forall rows counter table w,
  for_fold rows (counter, table) (fun st row =>
    let '(counter, table) := st in
    let book := db_filename (snd row) in
    absent <- lift (not_binarySearch (sorted books) book) ;;
    if absent : bool then
      let table := delete_content (snd row) table in
      print ("Entry " +:+ book +:+ " from collection " +:+ fst row
             +:+ " removed from database.") ;;
      ret (S counter, table)
    else ret (counter, table)) w
  = (mkWorld (fs w) (undo w)
       (stdout w ++ map clean_line (List.filter (stale books) rows))
       (stdin w) (renames w),
     Ok ((counter + length (List.filter (stale books) rows))%nat,
         List.filter (survives books rows) table)).
Proof.
  induction rows as [|row rows IH]; intros counter table w.
  - simpl. unfold ret. rewrite app_nil_r, Nat.add_0_r.
    rewrite filter_all by reflexivity. destruct w; reflexivity.
  - cbn [for_fold]. unfold bind at 1. unfold bind at 1.
    rewrite not_binarySearch_sorted. unfold lift at 1.
    cbn [List.filter]. fold (stale books row).
    destruct (stale books row) eqn:Hst.
    + unfold bind at 1, print at 1, ret at 1. rewrite IH. cbn.
      rewrite <- app_assoc. unfold delete_content. rewrite filter_filter.
      f_equal. f_equal. f_equal; [lia|].
      apply filter_ext. intros r. unfold survives. cbn [existsb].
      rewrite Hst. cbn. rewrite negb_orb. reflexivity.
    + unfold ret at 1. rewrite IH. f_equal. f_equal. f_equal.
      apply filter_ext. intros r. unfold survives. cbn [existsb].
      rewrite Hst. reflexivity.
Qed.

Lemma survives_self rows r :
  In r rows -> survives books rows r = negb (stale books r).
Proof.
  intros Hin. unfold survives. f_equal.
  destruct (stale books r) eqn:Hst.
  - apply existsb_exists. exists r. split; [exact Hin|].
    rewrite Hst, String.eqb_refl. reflexivity.
  - destruct (existsb _ rows) eqn:Hex; [|reflexivity].
    apply existsb_exists in Hex as [p [_ Hp]].
    apply andb_true_iff in Hp as [Hp He]. apply String.eqb_eq in He.
    unfold stale in Hst, Hp. rewrite He in Hst. congruence.
Qed.

Lemma ask_or_complain_accepts valid prompt complaint :
  forall bad answer rest,
    forallb (fun x => negb (valid x)) bad = true -> valid answer = true ->
    ask_or_complain valid prompt complaint (bad ++ answer :: rest)
    = ((flat_map (fun _ => [prompt; complaint]) bad ++ [prompt])%list, rest,
       Ok answer).
Proof.
  induction bad as [|b bad IH]; intros answer rest Hbad Hok.
  - simpl. rewrite Hok. reflexivity.
  - simpl in Hbad. apply andb_true_iff in Hbad as [Hb Hbad].
    apply negb_true_iff in Hb. cbn [ask_or_complain app]. rewrite Hb.
    rewrite (IH _ _ Hbad Hok). reflexivity.
Qed.

Lemma with_backslash_nonempty device :
  device <> EmptyString -> exists device', with_backslash device = Ok device'.
Proof.
  intros Hne. unfold with_backslash, Str.last, Str.from_end.
  destruct device as [|c s]; [contradiction|].
  cbn [String.length Nat.leb].
  destruct (String.get (S (String.length s) - 1) (String c s)) as [x|] eqn:Hg.
  - eexists. reflexivity.
  - exfalso.
    assert (H : forall n t, (n < String.length t)%nat -> String.get n t <> None).
    { clear. intros n t; revert n; induction t as [|a t IH]; intros n Hn; simpl in *; [lia|].
      destruct n; [discriminate|]. apply IH. lia. }
    apply (H (S (String.length s) - 1)%nat (String c s)); [simpl; lia|exact Hg].
Qed.

End Collections.

Section UpToLast.

(** The pattern [.+x] for a character [x] that [.] matches: the greedy
    [.+] runs to the last [x]. *)
Variable x : ascii.
Hypothesis Hx : Re.dot x = true.

Lemma lit_none {R : Type} (k : option ascii -> string -> option R) :
  forall (name : string) i prev,
    all_chars (fun c => negb (Ascii.eqb x c)) name = true ->
    Re.exec (Re.Lit x) prev (Str.drop i name) k = None.
Proof.
  intros name i prev H. pose proof (all_chars_drop _ i name H) as Hd.
  unfold Re.Lit. cbn [Re.exec Re.exactly].
  destruct (Str.drop i name) as [|c s]; [reflexivity|].
  cbn [all_chars] in Hd. apply andb_true_iff in Hd as [Hc _].
  apply negb_true_iff in Hc. rewrite Hc. reflexivity.
Qed.

Lemma upto_unmatched (name : string) :
  all_chars (fun c => negb (Ascii.eqb x c)) name = true ->
  forall n, unmatched (Re.Seq (Re.Plus Re.dot) (Re.Lit x)) (Str.drop n name).
Proof.
  intros H n prev. unfold Re.match_here.
  cbn [Re.exec Re.exactly].
  destruct (Str.drop n name) as [|c s] eqn:Hd; [reflexivity|].
  destruct (Re.dot c); [|reflexivity].
  apply star_greedy_none. intros i prev'.
  assert (Hs : s = Str.drop (S n) name).
  { replace (S n) with (n + 1)%nat by lia. rewrite <- drop_drop, Hd. reflexivity. }
  rewrite Hs, drop_drop. apply lit_none. exact H.
Qed.

Lemma greedy_to_last (name : string) :
  all_chars (fun c => negb (Ascii.eqb x c)) name = true ->
  forall (u : string) prev,
    plain u = true ->
    Re.star_greedy Re.dot prev (u +:+ String x name)
      (fun prev' s' => Re.exec (Re.Lit x) prev' s' (fun _ rest => Some rest))
    = Some name.
Proof.
  intros Hn. induction u as [|c u IH]; intros prev Hu.
  - cbn [String.append Re.star_greedy]. rewrite Hx.
    rewrite star_greedy_none.
    + unfold Re.Lit. cbn [Re.exec Re.exactly]. rewrite Ascii.eqb_refl. reflexivity.
    + intros i prev'. apply lit_none. exact Hn.
  - cbn in Hu. apply andb_true_iff in Hu as [Hc Hu].
    cbn [String.append Re.star_greedy]. rewrite Hc, (IH _ Hu). reflexivity.
Qed.

Lemma upto_match (u name : string) prev :
  nonempty u = true -> plain u = true ->
  all_chars (fun c => negb (Ascii.eqb x c)) name = true ->
  Re.match_here (Re.Seq (Re.Plus Re.dot) (Re.Lit x)) prev (u +:+ String x name)
  = Some name.
Proof.
  intros Hne Hp Hn. destruct u as [|c u]; [discriminate|].
  cbn in Hp. apply andb_true_iff in Hp as [Hc Hu].
  unfold Re.match_here. cbn [Re.exec Re.exactly String.append].
  rewrite Hc. apply greedy_to_last; assumption.
Qed.

End UpToLast.

(** X1: [binarySearch] reads the list only inside its bounds and always
    ends: on every list, sorted or not, it returns the item, which is then
    an element of the list, or [False]. *)
Theorem binarySearch_stays_in_range (iterable : list string) (item_ : string) :
  (binarySearch iterable item_ = Found item_ /\ In item_ iterable)
  \/ binarySearch iterable item_ = NotFound.
Proof. apply binarySearch_ends. Qed.

(** X2: on a list in ascending order [binarySearch] returns the item exactly
    when the list holds it. *)
Theorem binarySearch_finds_members (iterable : list string) (item_ : string) :
  ascending iterable = true ->
  (binarySearch iterable item_ = Found item_ <-> In item_ iterable).
Proof. apply binarySearch_iff. Qed.

Lemma binarySearch_finds_members_witness :
  binarySearch ["a.epub"; "b.epub"; "c.pdf"] "c.pdf" = Found "c.pdf"
  <-> In "c.pdf" ["a.epub"; "b.epub"; "c.pdf"].
Proof.
  apply (binarySearch_finds_members ["a.epub"; "b.epub"; "c.pdf"] "c.pdf").
  reflexivity.
Defined.

(** X3: the file name [checkCollectionsDB] and [cleanCollectionsDB] look up
    for a database entry is what follows the last slash of its ContentId. *)
Theorem db_filename_after_last_slash (dir name : string) :
  nonempty dir = true -> plain dir = true -> no_slash name = true ->
  db_filename (dir +:+ "/" +:+ name) = name.
Proof.
  intros Hne Hp Hn. pose proof Hne as Hne'.
  destruct dir as [|c u]; [discriminate|].
  unfold db_filename, Re.sub.
  replace (String c u +:+ "/" +:+ name) with (String c (u +:+ "/") +:+ name)
    by (cbn; rewrite sapp_assoc; reflexivity).
  rewrite sub_go_match; [| |discriminate].
  - rewrite sub_go_unmatched; [reflexivity|].
    apply (upto_unmatched "/"). exact Hn.
  - replace (String c (u +:+ "/") +:+ name) with (String c u +:+ String "/" name)
      by (cbn; rewrite sapp_assoc; reflexivity).
    apply (upto_match "/"); [reflexivity|exact Hne'|exact Hp|exact Hn].
Qed.

Lemma db_filename_after_last_slash_witness :
  db_filename ("file:///mnt/onboard/Books" +:+ "/" +:+ "Some Book.epub")
  = "Some Book.epub".
Proof.
  apply (db_filename_after_last_slash "file:///mnt/onboard/Books"
           "Some Book.epub"); reflexivity.
Defined.

(** X4: [checkCollectionsDB] reports exactly the rows whose file name is not
    among [books] (or is empty), in the order of the rows, whatever the order
    of [books]; it counts them, and leaves the directory, the undo dictionary
    and the rest of the input alone. *)
Theorem checkCollectionsDB_reports_stale_rows
    (books : list string) (rows : list (string * string)) (w : World)
    (device : string) (rest : list string) :
  stdin w = device :: rest -> device <> EmptyString ->
  checkCollectionsDB books rows w
  = (mkWorld (fs w) (undo w)
       (stdout w
        ++ ["Enter path to the main directory of Kobo device: "; nl]
        ++ map check_line (List.filter (stale books) rows)
        ++ [nl +:+ "Process finished. "
            +:+ pretty (length (List.filter (stale books) rows))
            +:+ " entries not found in book filenames on device."])%list
       rest (renames w),
     Ok tt).
Proof.
  intros Hin Hne. destruct (with_backslash_nonempty device Hne) as [device' Hd].
  unfold checkCollectionsDB.
  unfold bind at 1, input at 1. rewrite Hin.
  unfold bind at 1, lift at 1. rewrite Hd.
  unfold bind at 1, print at 1. cbn [fs undo stdout stdin renames].
  unfold bind at 1. rewrite check_loop. cbn [fs undo stdout stdin renames].
  unfold print. cbn [fs undo stdout stdin renames Nat.add].
  rewrite <- !app_assoc. reflexivity.
Qed.

Lemma checkCollectionsDB_reports_stale_rows_witness :
  checkCollectionsDB ["b.epub"; "a.epub"]
    [("Shelf", "file:///mnt/onboard/a.epub");
     ("Shelf", "file:///mnt/onboard/gone.epub")]
    (session [] ["E:\"])
  = (mkWorld ∅ []
       ["Enter path to the main directory of Kobo device: "; nl;
        "Entry gone.epub from collection Shelf not found in book filenames on device.";
        nl +:+ "Process finished. 1 entries not found in book filenames on device."]
       [] [],
     Ok tt).
Proof.
  apply (checkCollectionsDB_reports_stale_rows ["b.epub"; "a.epub"]
           [("Shelf", "file:///mnt/onboard/a.epub");
            ("Shelf", "file:///mnt/onboard/gone.epub")]
           (session [] ["E:\"]) "E:\" []); [reflexivity|discriminate].
Defined.

(** X5: [cleanCollectionsDB] leaves in the table exactly the rows whose file
    name is among [books] (and not empty); it reports the others in the
    order of the rows and counts them, after asking for the backup until the
    answer is one of Y, N, y, n. *)
Theorem cleanCollectionsDB_keeps_rows_of_books
    (books : list string) (rows : list (string * string)) (w : World)
    (device device' : string) (bad : list string) (backup : string)
    (rest : list string) :
  stdin w = (device :: bad ++ backup :: rest)%list ->
  with_backslash device = Ok device' ->
  forallb (fun x => negb (one_of ["Y"; "N"; "y"; "n"] x)) bad = true ->
  one_of ["Y"; "N"; "y"; "n"] backup = true ->
  cleanCollectionsDB books rows w
  = (mkWorld (fs w) (undo w)
       (stdout w
        ++ ["Enter path to the main directory of Kobo device: "]
        ++ backup_dialogue bad
        ++ backup_lines device' backup
        ++ [nl]
        ++ map clean_line (List.filter (stale books) rows)
        ++ [nl +:+ "Process finished. "
            +:+ pretty (length (List.filter (stale books) rows))
            +:+ " entries removed from collections."])%list
       rest (renames w),
     Ok (List.filter (fun row => negb (stale books row)) rows)).
Proof.
  intros Hin Hd Hbad Hok.
  unfold cleanCollectionsDB.
  unfold bind at 1, input at 1. rewrite Hin.
  unfold bind at 1, lift at 1. rewrite Hd.
  unfold bind at 1, input_or_complain at 1. cbn [fs undo stdout stdin renames].
  rewrite (ask_or_complain_accepts _ _ _ bad backup rest Hbad Hok).
  fold backup_prompt. fold (backup_dialogue bad).
  assert (Hfinal :
    List.filter (survives books rows) rows
    = List.filter (fun row => negb (stale books row)) rows).
  { apply filter_ext_in. intros r Hr. apply survives_self. exact Hr. }
  unfold backup_lines.
  destruct (one_of ["Y"; "y"] backup).
  - unfold bind at 1. unfold bind at 1, print at 1, print at 1.
    cbn [fs undo stdout stdin renames].
    unfold bind at 1, print at 1. cbn [fs undo stdout stdin renames].
    unfold bind at 1. rewrite clean_loop. cbn [fs undo stdout stdin renames].
    unfold bind, print, ret. cbn [fs undo stdout stdin renames Nat.add fst snd].
    rewrite Hfinal. rewrite <- !app_assoc. reflexivity.
  - unfold bind at 1, ret at 1.
    unfold bind at 1, print at 1. cbn [fs undo stdout stdin renames].
    unfold bind at 1. rewrite clean_loop. cbn [fs undo stdout stdin renames].
    unfold bind, print, ret. cbn [fs undo stdout stdin renames Nat.add fst snd].
    rewrite Hfinal. rewrite <- !app_assoc. reflexivity.
Qed.

Lemma cleanCollectionsDB_keeps_rows_of_books_witness :
  cleanCollectionsDB ["b.epub"; "a.epub"]
    [("Shelf", "file:///mnt/onboard/a.epub");
     ("Shelf", "file:///mnt/onboard/gone.epub");
     ("Other", "file:///mnt/onboard/gone.epub")]
    (session [] ["E:"; "maybe"; "n"])
  = (mkWorld ∅ []
       ["Enter path to the main directory of Kobo device: ";
        backup_prompt; "Enter a valid choice."; backup_prompt; nl;
        "Entry gone.epub from collection Shelf removed from database.";
        "Entry gone.epub from collection Other removed from database.";
        nl +:+ "Process finished. 2 entries removed from collections."]
       [] [],
     Ok [("Shelf", "file:///mnt/onboard/a.epub")]).
Proof.
  apply (cleanCollectionsDB_keeps_rows_of_books ["b.epub"; "a.epub"]
           [("Shelf", "file:///mnt/onboard/a.epub");
            ("Shelf", "file:///mnt/onboard/gone.epub");
            ("Other", "file:///mnt/onboard/gone.epub")]
           (session [] ["E:"; "maybe"; "n"]) "E:" "E:\" ["maybe"] "n" []);
    reflexivity.
Defined.

(** ** More on the search of [compareSize] *)

Section SizeSearchEnds.

Lemma size_search_matched b1 books2 : forall fuel st book2 b2',
  size_search fuel b1 books2 st = Matched book2 b2' ->
  In book2 books2 /\ Pat.book_ext book2 = true /\ b1 = size_key book2.
Proof.
  induction fuel as [|fuel IH]; intros st book2 b2' H; [discriminate|].
  cbn [size_search] in H.
  destruct (upper st <? lower st)%Z; [discriminate|].
  destruct (item books2 ((lower st + upper st) / 2)) as [x|] eqn:Hx;
    [|discriminate].
  assert (Hin : In x books2).
  { unfold item in Hx. destruct (_ <? 0)%Z; [discriminate|].
    eapply nth_error_In; exact Hx. }
  destruct (Pat.book_ext x) eqn:Hext.
  - destruct (String.eqb_spec b1 (Str.lower (Pat.base_name x))) as [He|_].
    + injection H as <- _. auto.
    + destruct (String.ltb b1 (Str.lower (Pat.base_name x)));
        eapply IH; exact H.
  - destruct (b2 st) as [|y]; [discriminate|].
    destruct (String.ltb b1 y); eapply IH; exact H.
Qed.

Lemma compareSize_from_reports all books2 size1 size2 share :
  forall books b2 acc out,
    (forall b, In b books -> In b all) ->
    Forall (report_of all books2 size1 size2 share) acc ->
    compareSize_from books books2 size1 size2 share b2 acc = Ok out ->
    Forall (report_of all books2 size1 size2 share) out.
Proof.
  induction books as [|book1 books IH]; intros b2 acc out Hsub Hacc H.
  - simpl in H. injection H as <-. exact Hacc.
  - cbn [compareSize_from] in H.
    assert (Hsub' : forall b, In b books -> In b all)
      by (intros b Hb; apply Hsub; right; exact Hb).
    destruct (Pat.book_ext book1) eqn:Hext; [|eapply IH; eassumption].
    destruct (size_search _ _ _ _) as [b2'|book2 b2'|e|] eqn:Hs;
      try discriminate.
    + eapply IH; eassumption.
    + apply size_search_matched in Hs as [Hin [Hext2 Hkey]].
      destruct (larger_by (size1 book1) (size2 book2) share)
        as [[|]|e] eqn:Hl; [| |discriminate];
        (eapply IH; [exact Hsub'| |exact H]); [|exact Hacc].
      apply Forall_app. split; [exact Hacc|]. constructor; [|constructor].
      unfold larger_by in Hl.
      destruct (Z.ltb_spec (size2 book2) (size1 book1)) as [Hlt|_];
        [|discriminate].
      destruct (Float.of_int (size1 book1)) as [x|] eqn:Hx; [|discriminate].
      injection Hl as Hl.
      exists book1, book2. repeat split; try assumption.
      * apply Hsub. left. reflexivity.
      * exists x. split; [exact Hx|exact Hl].
Qed.

Lemma size_search_unbound b1 books2 x fuel lo hi :
  item books2 ((lo + hi) / 2) = Some x -> Pat.book_ext x = false ->
  (lo <= hi)%Z ->
  size_search (S fuel) b1 books2 (mkSearch lo hi Unbound)
  = Failed UnboundLocalError.
Proof.
  intros Hx Hext Hle. cbn [size_search lower upper b2].
  destruct (Z.ltb_spec hi lo) as [H|H]; [lia|].
  rewrite Hx, Hext. reflexivity.
Qed.

Lemma compareSize_from_skip books2 size1 size2 share b2 acc :
  forall pre rest,
    forallb (fun b => negb (Pat.book_ext b)) pre = true ->
    compareSize_from (pre ++ rest) books2 size1 size2 share b2 acc
    = compareSize_from rest books2 size1 size2 share b2 acc.
Proof.
  induction pre as [|b pre IH]; intros rest Hpre; [reflexivity|].
  simpl in Hpre. apply andb_true_iff in Hpre as [Hb Hpre].
  apply negb_true_iff in Hb. cbn [app compareSize_from]. rewrite Hb.
  apply IH. exact Hpre.
Qed.

(** A key above every key of the listing drives [lower] to the length of
    the listing, where the read fails. *)
Lemma size_search_above b1 books2 :
  (forall x, In x books2 ->
     Pat.book_ext x = true /\ String.ltb (size_key x) b1 = true) ->
  forall fuel lo st2,
    (0 <= lo <= Z.of_nat (length books2))%Z ->
    (Z.of_nat (length books2) - lo + 1 < Z.of_nat fuel)%Z ->
    size_search fuel b1 books2 (mkSearch lo (Z.of_nat (length books2)) st2)
    = Failed IndexError.
Proof.
  intros Hall. induction fuel as [|fuel IH]; intros lo st2 Hlo Hfuel; [lia|].
  cbn [size_search lower upper b2].
  destruct (Z.ltb_spec (Z.of_nat (length books2)) lo) as [H|H]; [lia|].
  set (mid := ((lo + Z.of_nat (length books2)) / 2)%Z).
  assert (Hmid : (lo <= mid <= Z.of_nat (length books2))%Z)
    by (unfold mid; Z.div_mod_to_equations; lia).
  set (m := Z.to_nat mid). assert (Hm : mid = Z.of_nat m) by lia.
  rewrite Hm, item_nth.
  destruct (nth_error books2 m) as [x|] eqn:Hx; [|reflexivity].
  destruct (Hall x (nth_error_In _ _ Hx)) as [Hext Hlt].
  rewrite Hext. fold (size_key x).
  destruct (String.eqb_spec b1 (size_key x)) as [He|_].
  { rewrite He, ltb_irrefl in Hlt. discriminate. }
  rewrite (ltb_asym _ _ Hlt).
  assert (Hlen : (m < length books2)%nat).
  { apply nth_error_Some. rewrite Hx. discriminate. }
  apply IH; lia.
Qed.

(** In a listing of book files [b2] is assigned before it is read. *)
Lemma size_search_books b1 books2 :
  (forall x, In x books2 -> Pat.book_ext x = true) ->
  forall fuel st e,
    size_search fuel b1 books2 st = Failed e -> e = IndexError.
Proof.
  intros Hall. induction fuel as [|fuel IH]; intros st e H; [discriminate|].
  cbn [size_search] in H.
  destruct (upper st <? lower st)%Z; [discriminate|].
  destruct (item books2 ((lower st + upper st) / 2)) as [x|] eqn:Hx.
  2:{ injection H as <-. reflexivity. }
  assert (Hin : In x books2).
  { unfold item in Hx. destruct (_ <? 0)%Z; [discriminate|].
    eapply nth_error_In; exact Hx. }
  rewrite (Hall x Hin) in H.
  destruct (String.eqb b1 (Str.lower (Pat.base_name x))); [discriminate|].
  destruct (String.ltb b1 (Str.lower (Pat.base_name x)));
    eapply IH; exact H.
Qed.

Lemma larger_by_raise s1 s2 share e :
  larger_by s1 s2 share = Raise e ->
  e = OverflowError /\ Float.of_int s1 = None.
Proof.
  unfold larger_by. destruct (s2 <? s1)%Z; [|discriminate].
  destruct (Float.of_int s1); [discriminate|].
  intros H. injection H as <-. auto.
Qed.

(** The books before the one whose key is above all keys are passed, or one
    of them is too large. *)
Lemma compareSize_from_above books2 size1 size2 share book1 after :
  (forall x, In x books2 -> Pat.book_ext x = true) ->
  Pat.book_ext book1 = true ->
  (forall x, In x books2 ->
     Pat.book_ext x = true /\ String.ltb (size_key x) (size_key book1) = true) ->
  forall before b2 acc,
    compareSize_from (before ++ book1 :: after) books2 size1 size2 share b2 acc
    = Raise IndexError
    \/ (compareSize_from (before ++ book1 :: after) books2 size1 size2 share
          b2 acc
        = Raise OverflowError
        /\ exists b, In b before /\ Float.of_int (size1 b) = None).
Proof.
  intros Hbooks H1 Hall.
  induction before as [|b before IH]; intros b2 acc.
  - left. cbn [app compareSize_from]. rewrite H1. fold (size_key book1).
    rewrite size_search_above; [reflexivity|exact Hall|lia|lia].
  - assert (Hnext : forall b2' acc',
      compareSize_from (before ++ book1 :: after) books2 size1 size2 share
        b2' acc'
      = Raise IndexError
      \/ (compareSize_from (before ++ book1 :: after) books2 size1 size2
            share b2' acc'
          = Raise OverflowError
          /\ exists b', In b' (b :: before)
                        /\ Float.of_int (size1 b') = None)).
    { intros b2' acc'. destruct (IH b2' acc') as [H|[H [b' [Hin Hb']]]];
        [left; exact H|].
      right. split; [exact H|]. exists b'. split; [right; exact Hin|exact Hb']. }
    cbn [app compareSize_from].
    destruct (Pat.book_ext b) eqn:Hb; [|apply Hnext].
    destruct (size_search _ _ _ _) as [b2'|book2 b2'|e|] eqn:Hs.
    + apply Hnext.
    + destruct (larger_by (size1 b) (size2 book2) share) as [[|]|e] eqn:Hl;
        [apply Hnext|apply Hnext|].
      apply larger_by_raise in Hl as [-> Hl].
      right. split; [reflexivity|]. exists b. split; [left; reflexivity|exact Hl].
    + apply size_search_books in Hs; [|exact Hbooks]. subst e.
      left. reflexivity.
    + left. reflexivity.
Qed.

End SizeSearchEnds.

(** X6: the loop [while True] of [compareSize] ends for every book and every
    second listing, sorted or not: within [len(books2) + 2] passes it stops,
    finds the name or raises. *)
Theorem compareSize_search_ends (b1 : string) (books2 : list string)
    (b2 : local string) :
  size_search (length books2 + 2) b1 books2
    (mkSearch 0 (Z.of_nat (length books2)) b2) <> OutOfFuel.
Proof. apply size_search_fuel_enough; lia. Qed.

(** X7: whatever the two listings hold and in whatever order, every entry
    [compareSize] reports stands for a book file of the first directory and
    a book file of the second with the same lowered base name, the first
    larger than the second, and the binary64 product of its size and the
    share not above the difference of the two sizes. *)
Theorem compareSize_reports_only_larger
    (books books2 : list string) (size1 size2 : string -> Z) (share : spec_float)
    (out : list (Z * Z * string)) :
  compareSize books books2 size1 size2 share = Ok out ->
  Forall (report_of books books2 size1 size2 share) out.
Proof.
  intros H. unfold compareSize in H.
  eapply compareSize_from_reports; [|constructor|exact H]. auto.
Qed.

Lemma compareSize_reports_only_larger_witness :
  Forall (report_of ["A.epub"; "B.epub"] ["a.pdf"; "b.pdf"; "c.pdf"]
            (fun _ => 1000%Z) (fun _ => 400%Z) (Float.decimal 5 1))
         [(1000%Z, 400%Z, "A"); (1000%Z, 400%Z, "B")].
Proof.
  apply (compareSize_reports_only_larger ["A.epub"; "B.epub"]
           ["a.pdf"; "b.pdf"; "c.pdf"] (fun _ => 1000%Z) (fun _ => 400%Z)
           (Float.decimal 5 1)).
  reflexivity.
Defined.

(** X8: when the entry in the middle of the second listing is not a book
    file, [compareSize] fails at the first book file of the first listing
    with UnboundLocalError: [b2] is read before it was ever assigned. *)
Theorem compareSize_unbound_b2
    (skipped : list string) (book1 : string) (books books2 : list string)
    (book2 : string) (size1 size2 : string -> Z) (share : spec_float) :
  forallb (fun b => negb (Pat.book_ext b)) skipped = true ->
  Pat.book_ext book1 = true ->
  middle books2 = Some book2 -> Pat.book_ext book2 = false ->
  compareSize (skipped ++ book1 :: books) books2 size1 size2 share
  = Raise UnboundLocalError.
Proof.
  intros Hskip H1 Hmid H2. unfold compareSize.
  rewrite compareSize_from_skip by exact Hskip.
  cbn [compareSize_from]. rewrite H1.
  replace (length books2 + 2)%nat with (S (length books2 + 1)) by lia.
  rewrite (size_search_unbound _ _ book2); [reflexivity| |exact H2|lia].
  exact Hmid.
Qed.

Lemma compareSize_unbound_b2_witness :
  compareSize ([] ++ "X.epub" :: []) ["cover.jpg"]
    (fun _ => 1000%Z) (fun _ => 400%Z) (Float.decimal 5 1)
  = Raise UnboundLocalError.
Proof.
  apply (compareSize_unbound_b2 [] "X.epub" [] ["cover.jpg"] "cover.jpg");
    reflexivity.
Defined.

(** X9: when the second listing holds book files only, a book file of the
    first listing whose key is above all their keys ends [compareSize] with
    an exception, wherever it stands in the first listing: IndexError,
    because the search reads [books2[len(books2)]], unless a file listed
    before it is too large for [float] and the test on the sizes has raised
    OverflowError.  The empty second listing is the smallest case. *)
Theorem compareSize_key_above_all
    (before : list string) (book1 : string) (after books2 : list string)
    (size1 size2 : string -> Z) (share : spec_float) :
  Pat.book_ext book1 = true ->
  forallb (fun x => Pat.book_ext x && String.ltb (size_key x) (size_key book1))
          books2 = true ->
  compareSize (before ++ book1 :: after) books2 size1 size2 share
  = Raise IndexError
  \/ (compareSize (before ++ book1 :: after) books2 size1 size2 share
      = Raise OverflowError
      /\ exists b, In b before /\ Float.of_int (size1 b) = None).
Proof.
  intros H1 Hall. unfold compareSize.
  apply compareSize_from_above; [|exact H1|].
  - intros x Hx. rewrite forallb_forall in Hall.
    pose proof (Hall x Hx) as Hx'.
    apply andb_true_iff in Hx' as [Hext _]. exact Hext.
  - intros x Hx. rewrite forallb_forall in Hall.
    apply andb_true_iff. apply Hall. exact Hx.
Qed.

Lemma compareSize_key_above_all_witness :
  compareSize (["Austen.epub"; "notes.txt"] ++ "Zola.epub" :: ["Zweig.epub"])
    ["Austen.epub"; "Dickens.epub"]
    (fun _ => 1000%Z) (fun _ => 400%Z) (Float.decimal 5 1)
  = Raise IndexError
  \/ (compareSize
        (["Austen.epub"; "notes.txt"] ++ "Zola.epub" :: ["Zweig.epub"])
        ["Austen.epub"; "Dickens.epub"]
        (fun _ => 1000%Z) (fun _ => 400%Z) (Float.decimal 5 1)
      = Raise OverflowError
      /\ exists b, In b ["Austen.epub"; "notes.txt"]
                   /\ Float.of_int ((fun _ => 1000%Z) b) = None).
Proof.
  apply (compareSize_key_above_all ["Austen.epub"; "notes.txt"] "Zola.epub"
           ["Zweig.epub"] ["Austen.epub"; "Dickens.epub"]); reflexivity.
Defined.

(** ** The similarity index counts shared characters *)

Section SharedCharacters.

Lemma nodup_map_inj {A B : Type} (f : A -> B) (l : list A) :
  (forall x y, In x l -> In y l -> f x = f y -> x = y) ->
  List.NoDup l -> List.NoDup (map f l).
Proof.
  intros Hinj Hnd. induction Hnd as [|x l Hx Hnd IH]; [constructor|].
  simpl. constructor.
  - intros Hin. apply in_map_iff in Hin as [y [Hy Hin]].
    assert (y = x) by (apply Hinj; [right; exact Hin|left; reflexivity|exact Hy]).
    subst y. contradiction.
  - apply IH. intros a b Ha Hb. apply Hinj; right; assumption.
Qed.

Lemma all_ascii_nodup : List.NoDup all_ascii.
Proof.
  unfold all_ascii. apply nodup_map_inj; [|apply List.seq_NoDup].
  intros x y Hx Hy He. apply in_seq in Hx, Hy.
  rewrite <- (nat_ascii_embedding x), <- (nat_ascii_embedding y) by lia.
  rewrite He. reflexivity.
Qed.

Lemma all_ascii_in c : In c all_ascii.
Proof.
  unfold all_ascii. apply in_map_iff. exists (nat_of_ascii c). split.
  - apply ascii_nat_embedding.
  - apply in_seq. pose proof (nat_ascii_bounded c). lia.
Qed.

Lemma sum_over_ext f g cs :
  (forall c, In c cs -> f c = g c) -> sum_over f cs = sum_over g cs.
Proof.
  induction cs as [|c cs IH]; intros H; [reflexivity|]. simpl.
  rewrite (H c (or_introl eq_refl)), IH; [reflexivity|].
  intros x Hx. apply H. right. exact Hx.
Qed.

Lemma sum_over_update f g c cs :
  List.NoDup cs -> In c cs -> (forall x, x <> c -> f x = g x) ->
  sum_over f cs = (sum_over g cs + (f c - g c))%Z.
Proof.
  intros Hnd. induction Hnd as [|x cs Hx Hnd IH]; intros Hin Hoff;
    [contradiction|].
  simpl. destruct Hin as [->|Hin].
  - rewrite (sum_over_ext f g cs); [lia|].
    intros y Hy. apply Hoff. intros ->. contradiction.
  - rewrite (IH Hin Hoff). rewrite (Hoff x); [lia|].
    intros ->. contradiction.
Qed.

Lemma sum_over_plus f g cs :
  sum_over (fun c => f c + g c)%Z cs = (sum_over f cs + sum_over g cs)%Z.
Proof. induction cs as [|c cs IH]; simpl; lia. Qed.

Lemma sum_over_excess f g h cs :
  sum_over (fun c => f c + g c - 2 * h c)%Z cs
  = (sum_over f cs + sum_over g cs - 2 * sum_over h cs)%Z.
Proof. induction cs as [|c cs IH]; simpl; lia. Qed.

Lemma sum_over_zero f cs :
  (forall c, 0 <= f c)%Z -> sum_over f cs = 0%Z ->
  forall c, In c cs -> f c = 0%Z.
Proof.
  intros Hpos. induction cs as [|x cs IH]; intros H c Hin; [contradiction|].
  simpl in H.
  assert (Hs : (0 <= sum_over f cs)%Z).
  { clear -Hpos. induction cs as [|y cs IH]; simpl; [lia|].
    pose proof (Hpos y). lia. }
  pose proof (Hpos x). destruct Hin as [->|Hin]; [lia|].
  apply IH; [lia|exact Hin].
Qed.

Lemma total_update f g c :
  (forall x, x <> c -> f x = g x) -> total f = (total g + (f c - g c))%Z.
Proof.
  apply sum_over_update; [apply all_ascii_nodup|apply all_ascii_in].
Qed.

Lemma total_ext f g : (forall c, f c = g c) -> total f = total g.
Proof. intros H. apply sum_over_ext. intros c _. apply H. Qed.

Lemma total_zero : total (fun _ => 0%Z) = 0%Z.
Proof. unfold total. induction all_ascii; simpl; lia. Qed.

Lemma occurrences_cons_ne c x s :
  c <> x -> occurrences c (String x s) = occurrences c s.
Proof. intros H. simpl. destruct (Ascii.eqb_spec c x); [contradiction|lia]. Qed.

Lemma occurrences_cons_eq c s :
  occurrences c (String c s) = (1 + occurrences c s)%Z.
Proof. simpl. rewrite Ascii.eqb_refl. reflexivity. Qed.

(** The length of a string is the number of occurrences of all
    characters. *)
Lemma length_total s :
  Z.of_nat (String.length s) = total (fun c => occurrences c s).
Proof.
  induction s as [|x s IH].
  - simpl. symmetry. apply total_zero.
  - rewrite (total_update _ (fun c => occurrences c s) x).
    + rewrite occurrences_cons_eq. cbn [String.length]. lia.
    + intros c Hc. apply occurrences_cons_ne. exact Hc.
Qed.

Lemma available_insert_eq full avail c v :
  available full (<[c := v]> avail) c = v.
Proof. unfold available. rewrite lookup_insert_eq. reflexivity. Qed.

Lemma available_insert_ne full avail c x v :
  x <> c -> available full (<[c := v]> avail) x = available full avail x.
Proof.
  intros H. unfold available. rewrite lookup_insert_ne by congruence.
  reflexivity.
Qed.

(** What the loop of [quick_ratio] counts. *)
Lemma count_matches_total : forall a full avail matches,
  Difflib.count_matches a full avail matches
  = (matches
     + total (fun c => Z.min (occurrences c a)
                             (Z.max 0 (available full avail c))))%Z.
Proof.
  induction a as [|elt a IH]; intros full avail matches.
  - cbn [Difflib.count_matches].
    rewrite (total_ext _ (fun _ => 0%Z)); [rewrite total_zero; lia|].
    intros c. simpl. lia.
  - cbn [Difflib.count_matches]. fold (available full avail elt).
    rewrite IH.
    rewrite (total_update
               (fun c => Z.min (occurrences c (String elt a))
                               (Z.max 0 (available full avail c)))
               (fun c => Z.min (occurrences c a)
                   (Z.max 0 (available full
                      (<[elt := (available full avail elt - 1)%Z]> avail) c)))
               elt).
    + rewrite occurrences_cons_eq, available_insert_eq.
      pose proof (occurrences_nonneg elt a).
      destruct (Z.ltb_spec 0 (available full avail elt)); lia.
    + intros c Hc. rewrite occurrences_cons_ne by exact Hc.
      rewrite available_insert_ne by exact Hc. reflexivity.
Qed.

Lemma quick_ratio_common a b :
  Difflib.quick_ratio a b
  = Difflib.calculate_ratio (common a b) (String.length a + String.length b).
Proof.
  unfold Difflib.quick_ratio. rewrite count_matches_total. f_equal.
  unfold common. rewrite Z.add_0_l. apply total_ext. intros c.
  unfold available. rewrite lookup_empty, fullbcount_occurrences, lookup_empty.
  simpl. pose proof (occurrences_nonneg c b). lia.
Qed.

Lemma common_sym a b : common a b = common b a.
Proof. unfold common. apply total_ext. intros c. apply Z.min_comm. Qed.

Lemma quick_ratio_sym a b : Difflib.quick_ratio a b = Difflib.quick_ratio b a.
Proof.
  rewrite !quick_ratio_common, common_sym. f_equal. lia.
Qed.

Lemma is_one_ratio m n :
  is_one (Difflib.calculate_ratio m n) = true
  <-> (n = 0%nat \/ (2 * m)%Z = Z.of_nat n).
Proof.
  unfold is_one, Difflib.calculate_ratio. destruct n as [|n].
  - split; [auto|reflexivity].
  - rewrite Qeq_bool_iff.
    change (Z.of_nat (S n)) with (Z.pos (Pos.of_succ_nat n)).
    generalize (Pos.of_succ_nat n). intros p.
    unfold Qeq, Qdiv, Qmult, Qinv, inject_Z. cbn [Qnum Qden].
    rewrite !Z.mul_1_r, Pos.mul_1_l. split.
    + intros H. right. lia.
    + intros [H|H]; [discriminate|lia].
Qed.

Lemma same_characters a b :
  is_one (Difflib.quick_ratio a b) = true
  <-> forall c, occurrences c a = occurrences c b.
Proof.
  rewrite quick_ratio_common, is_one_ratio.
  pose proof (length_total a) as La. pose proof (length_total b) as Lb.
  split.
  - intros H c.
    assert (Hsum : (2 * common a b
                    = Z.of_nat (String.length a) + Z.of_nat (String.length b))%Z).
    { destruct H as [H|H]; [|lia].
      destruct a, b; try discriminate.
      unfold common. rewrite (total_ext _ (fun _ => 0%Z)) by reflexivity.
      rewrite total_zero. reflexivity. }
    set (d := fun c => (occurrences c a + occurrences c b
                        - 2 * Z.min (occurrences c a) (occurrences c b))%Z).
    assert (Hd : total d = 0%Z).
    { unfold d, total. rewrite sum_over_excess.
      rewrite La, Lb in Hsum. unfold common, total in Hsum. lia. }
    assert (Hc : d c = 0%Z).
    { apply (sum_over_zero d all_ascii); [|exact Hd|apply all_ascii_in].
      intros x. unfold d. lia. }
    unfold d in Hc. lia.
  - intros H. right.
    assert (Hab : Z.of_nat (String.length b) = Z.of_nat (String.length a)).
    { rewrite La, Lb. apply total_ext. intros c. symmetry. apply H. }
    assert (Hc : common a b = Z.of_nat (String.length a)).
    { rewrite La. unfold common. apply total_ext. intros c. rewrite H. lia. }
    lia.
Qed.

End SharedCharacters.

Section WithinDir.

Lemma within_inner book1 b1 pair : forall books acc,
  In pair (compareWithinDir_inner book1 b1 books acc)
  <-> In pair acc
      \/ exists book2,
           In book2 books /\ book1 <> book2 /\ Pat.book_ext book2 = true
           /\ pair = (b1, Pat.base_name book2)
           /\ at_least_09 (Difflib.quick_ratio b1 (Pat.base_name book2)) = true.
Proof.
  induction books as [|book2 books IH]; intros acc.
  - simpl. split; [auto|]. intros [H|[x [[] _]]]. exact H.
  - cbn [compareWithinDir_inner].
    destruct (String.eqb_spec book1 book2) as [He|Hne]; cbn [negb andb].
    + rewrite IH. split.
      * intros [H|[x [Hx Hr]]]; [auto|]. right. exists x. split; [right; exact Hx|exact Hr].
      * intros [H|[x [[Hx|Hx] Hr]]]; [auto| |].
        -- subst x. destruct Hr as [Hr _]. contradiction.
        -- right. exists x. auto.
    + destruct (Pat.book_ext book2) eqn:Hext.
      * rewrite IH.
        destruct (at_least_09 (Difflib.quick_ratio b1 (Pat.base_name book2)))
          eqn:H09.
        -- rewrite in_app_iff. split.
           ++ intros [[H|[H|[]]]|[x [Hx Hr]]]; [auto| |].
              ** right. exists book2. subst pair. repeat split; auto. left; auto.
              ** right. exists x. split; [right; exact Hx|exact Hr].
           ++ intros [H|[x [[Hx|Hx] Hr]]]; [auto| |].
              ** subst x. destruct Hr as (_ & _ & Hp & _). left. right. left.
                 symmetry. exact Hp.
              ** right. exists x. auto.
        -- split.
           ++ intros [H|[x [Hx Hr]]]; [auto|].
              right. exists x. split; [right; exact Hx|exact Hr].
           ++ intros [H|[x [[Hx|Hx] Hr]]]; [auto| |].
              ** subst x. destruct Hr as (_ & _ & _ & Hr). congruence.
              ** right. exists x. auto.
      * rewrite IH. split.
        -- intros [H|[x [Hx Hr]]]; [auto|].
           right. exists x. split; [right; exact Hx|exact Hr].
        -- intros [H|[x [[Hx|Hx] Hr]]]; [auto| |].
           ++ subst x. destruct Hr as (_ & Hr & _). congruence.
           ++ right. exists x. auto.
Qed.

Lemma within_from all pair : forall books acc,
  In pair (compareWithinDir_from books all acc)
  <-> In pair acc
      \/ exists book1 book2,
           In book1 books /\ In book2 all /\ book1 <> book2
           /\ Pat.book_ext book1 = true /\ Pat.book_ext book2 = true
           /\ pair = (Pat.base_name book1, Pat.base_name book2)
           /\ at_least_09 (Difflib.quick_ratio (Pat.base_name book1)
                             (Pat.base_name book2)) = true.
Proof.
  induction books as [|book1 books IH]; intros acc.
  - simpl. split; [auto|]. intros [H|(x & y & [] & _)]. exact H.
  - cbn [compareWithinDir_from]. destruct (Pat.book_ext book1) eqn:Hext.
    + rewrite IH, within_inner. split.
      * intros [[H|(y & Hy & Hne & He & Hp & Hr)]|(x & y & Hx & Hr)]; [auto| |].
        -- right. exists book1, y. repeat split; auto. left; auto.
        -- right. exists x, y. split; [right; exact Hx|exact Hr].
      * intros [H|(x & y & [Hx|Hx] & Hy & Hne & He1 & He2 & Hp & Hr)]; [auto| |].
        -- subst x. left. right. exists y. auto.
        -- right. exists x, y. auto 10.
    + rewrite IH. split.
      * intros [H|(x & y & Hx & Hr)]; [auto|].
        right. exists x, y. split; [right; exact Hx|exact Hr].
      * intros [H|(x & y & [Hx|Hx] & Hy & Hne & He1 & Hr)]; [auto| |].
        -- subst x. congruence.
        -- right. exists x, y. auto 10.
Qed.

Lemma within_pairs books pair :
  In pair (compareWithinDir books) <-> similar_pair books pair.
Proof.
  unfold compareWithinDir, similar_pair. rewrite within_from. split.
  - intros [[]|H]. exact H.
  - intros H. right. exact H.
Qed.

End WithinDir.

(** X10: the list of [compareWithinDir] holds every pair in both orders: the
    similarity index does not depend on the order of the two names. *)
Theorem compareWithinDir_lists_both_orders
    (books : list string) (b1 b2 : string) :
  In (b1, b2) (compareWithinDir books) -> In (b2, b1) (compareWithinDir books).
Proof.
  rewrite !within_pairs.
  intros (book1 & book2 & H1 & H2 & Hne & He1 & He2 & Hp & Hr).
  injection Hp as -> ->.
  exists book2, book1. repeat split; auto.
  rewrite quick_ratio_sym. exact Hr.
Qed.

Lemma compareWithinDir_lists_both_orders_witness :
  In ("Dickens - Great Expectations", "Dickens - Great Expectation")
     (compareWithinDir ["Dickens - Great Expectation.epub"; "notes.txt";
                        "Dickens - Great Expectations.pdf"]).
Proof.
  apply (compareWithinDir_lists_both_orders
           ["Dickens - Great Expectation.epub"; "notes.txt";
            "Dickens - Great Expectations.pdf"]
           "Dickens - Great Expectation" "Dickens - Great Expectations").
  vm_compute. left. reflexivity.
Defined.

(** X11: [compareTwoDirs] lists a book as found in the second directory
    ([index == 1]) exactly when the two base names hold the same characters
    the same number of times, in whatever order. *)
Theorem compareTwoDirs_identical_same_characters (book1 book2 : string) :
  Pat.book_ext book1 = true -> Pat.book_ext book2 = true ->
  (compareTwoDirs [book1] [book2] = mkLists [Pat.base_name book1] [] []
   <-> forall c, occurrences c (Pat.base_name book1)
                 = occurrences c (Pat.base_name book2)).
Proof.
  intros H1 H2. rewrite <- same_characters.
  unfold compareTwoDirs. cbn [compareTwoDirs_from compareTwoDirs_inner].
  rewrite H1, H2.
  destruct (is_one _) eqn:Hone.
  - cbn. split; reflexivity.
  - destruct (at_least_09 _); cbn; split; discriminate.
Qed.

Lemma compareTwoDirs_identical_same_characters_witness :
  compareTwoDirs ["listen.epub"] ["silent.pdf"] = mkLists ["listen"] [] []
  <-> forall c, occurrences c "listen" = occurrences c "silent".
Proof.
  apply (compareTwoDirs_identical_same_characters "listen.epub" "silent.pdf");
    reflexivity.
Defined.

(** ** Apostrophes *)

Section Apostrophes.

Lemma us_match_len prev c (s : string) :
  Re.match_len Pat.us_between_letters prev (String c s)
  = if alpha_before prev && Ascii.eqb "_" c && first_alpha s
    then Some 1%nat else None.
Proof.
  unfold Re.match_len, Re.match_here, Pat.us_between_letters, Re.Lit.
  cbn [Re.exec Re.exactly]. unfold alpha_before, first_alpha.
  destruct prev as [p|]; [|reflexivity].
  destruct (Re.is_alpha p); [|reflexivity].
  destruct (Ascii.eqb "_" c); [|reflexivity].
  destruct s as [|d s]; [reflexivity|].
  destruct (Re.is_alpha d); [|reflexivity].
  cbn [andb String.length]. f_equal. lia.
Qed.

Lemma sub_apostrophes : forall (s : string) prev,
  Re.sub_go Pat.us_between_letters "'" None 0 prev s = apostrophes prev s.
Proof.
  induction s as [|c s IH]; intros prev; [reflexivity|].
  cbn [Re.sub_go apostrophes]. rewrite us_match_len.
  destruct (alpha_before prev && Ascii.eqb "_" c && first_alpha s).
  - cbn [option_map String.append]. rewrite IH. reflexivity.
  - rewrite IH. reflexivity.
Qed.

Lemma apostrophes_length : forall (s : string) prev,
  String.length (apostrophes prev s) = String.length s.
Proof.
  induction s as [|c s IH]; intros prev; [reflexivity|].
  cbn [apostrophes String.length]. rewrite IH. reflexivity.
Qed.

Lemma lul_match_len prev (s : string) :
  Re.match_len Pat.letter_us_letter prev s
  = if starts_letter_us_letter s then Some 3%nat else None.
Proof.
  unfold Re.match_len, Re.match_here, Pat.letter_us_letter, Re.Lit.
  cbn [Re.exec Re.exactly]. unfold starts_letter_us_letter.
  destruct s as [|a [|b [|c s]]]; try reflexivity.
  - destruct (Re.is_alpha a); reflexivity.
  - destruct (Re.is_alpha a); [|reflexivity].
    destruct (Ascii.eqb "_" b); reflexivity.
  - destruct (Re.is_alpha a); [|reflexivity].
    destruct (Ascii.eqb "_" b); [|reflexivity].
    destruct (Re.is_alpha c); [|reflexivity].
    cbn [andb String.length]. f_equal. lia.
Qed.

Lemma found_letter_us_letter : forall (s : string) prev,
  match Re.search_from Pat.letter_us_letter prev s with
  | Some _ => true
  | None => false
  end = has_letter_us_letter s.
Proof.
  induction s as [|c s IH]; intros prev.
  - reflexivity.
  - cbn [Re.search_from has_letter_us_letter]. rewrite lul_match_len.
    destruct (starts_letter_us_letter (String c s)); [reflexivity|].
    cbn [orb]. rewrite <- (IH (Some c)).
    destruct (Re.search_from Pat.letter_us_letter (Some c) s) as [[pre m]|];
      reflexivity.
Qed.

Lemma first_alpha_apostrophes prev (s : string) :
  first_alpha (apostrophes prev s) = first_alpha s.
Proof.
  destruct s as [|c s]; [reflexivity|]. cbn [apostrophes first_alpha].
  destruct (alpha_before prev && Ascii.eqb "_" c && first_alpha s) eqn:H;
    [|reflexivity].
  apply andb_true_iff in H as [H _]. apply andb_true_iff in H as [_ H].
  apply Ascii.eqb_eq in H. subst c. reflexivity.
Qed.

Lemma apostrophes_clean : forall (s : string) prev,
  has_letter_us_letter (apostrophes prev s) = false.
Proof.
  induction s as [|c s IH]; intros prev; [reflexivity|].
  cbn [apostrophes has_letter_us_letter]. rewrite IH, orb_false_r.
  destruct s as [|d s]; [reflexivity|].
  cbn [apostrophes]. destruct s as [|e s]; [reflexivity|].
  cbn [apostrophes starts_letter_us_letter first_alpha alpha_before].
  set (o3 := if Re.is_alpha d && Ascii.eqb "_" e && first_alpha s
             then "'"%char else e).
  assert (H3 : Re.is_alpha o3 = true -> Re.is_alpha e = true).
  { unfold o3. destruct (Re.is_alpha d && Ascii.eqb "_" e && first_alpha s);
      [discriminate|auto]. }
  destruct (alpha_before prev && Ascii.eqb "_" c && Re.is_alpha d) eqn:H1.
  { reflexivity. }
  destruct (Re.is_alpha c) eqn:Hc; [|reflexivity].
  destruct (Ascii.eqb "_" d) eqn:Hd.
  - destruct (Re.is_alpha e) eqn:He.
    + reflexivity.
    + cbn [andb]. destruct (Re.is_alpha o3); [|rewrite andb_false_r; reflexivity].
      discriminate H3. reflexivity.
  - cbn [andb]. rewrite Hd. reflexivity.
Qed.

Lemma apostrophes_changed : forall (s : string) prev,
  has_letter_us_letter s = true -> apostrophes prev s <> s.
Proof.
  induction s as [|c s IH]; intros prev H; [discriminate|].
  cbn [has_letter_us_letter] in H. cbn [apostrophes].
  destruct (has_letter_us_letter s) eqn:Hs.
  - intros He. injection He as _ He. exact (IH (Some c) eq_refl He).
  - rewrite orb_false_r in H. unfold starts_letter_us_letter in H.
    destruct s as [|b [|d s]]; try discriminate.
    apply andb_true_iff in H as [H Hd]. apply andb_true_iff in H as [Hc Hb].
    cbn [apostrophes alpha_before first_alpha]. rewrite Hc, Hb, Hd.
    apply Ascii.eqb_eq in Hb. subst b. cbn [andb].
    intros He. injection He as _ He. discriminate He.
Qed.

Lemma apostrophes_unchanged : forall (s : string) prev,
  alpha_before prev
  && match s with
     | String c s' => Ascii.eqb "_" c && first_alpha s'
     | EmptyString => false
     end = false ->
  has_letter_us_letter s = false -> apostrophes prev s = s.
Proof.
  induction s as [|c s IH]; intros prev Hp H; [reflexivity|].
  cbn [has_letter_us_letter] in H. apply orb_false_iff in H as [Hst Hs].
  cbn [apostrophes]. rewrite andb_assoc in Hp. rewrite Hp. f_equal.
  apply IH; [|exact Hs].
  unfold starts_letter_us_letter in Hst. cbn [alpha_before].
  destruct s as [|b [|d s]].
  - apply andb_false_r.
  - cbn [first_alpha]. rewrite !andb_false_r. reflexivity.
  - cbn [first_alpha]. rewrite andb_assoc. exact Hst.
Qed.

End Apostrophes.

(** X12: the name [fixApostrophes] gives a file holds no underscore between
    two letters any more, has the length of the old name, and differs from
    the old name exactly when the old name held such an underscore, which is
    when the file is renamed and counted. *)
Theorem fixApostrophes_new_name (book : string) :
  Re.found Pat.letter_us_letter (Re.sub Pat.us_between_letters "'" book)
  = false
  /\ String.length (Re.sub Pat.us_between_letters "'" book)
     = String.length book
  /\ String.eqb (Re.sub Pat.us_between_letters "'" book) book
     = negb (Re.found Pat.letter_us_letter book).
Proof.
  unfold Re.sub, Re.found, Re.search. rewrite sub_apostrophes.
  rewrite !found_letter_us_letter. split; [|split].
  - apply apostrophes_clean.
  - apply apostrophes_length.
  - destruct (has_letter_us_letter book) eqn:H; cbn [negb].
    + apply String.eqb_neq. apply apostrophes_changed. exact H.
    + apply String.eqb_eq. apply apostrophes_unchanged; [reflexivity|exact H].
Qed.

(** ** Spacing *)

Section Spacing.

Lemma leading_spaces_le (s : string) :
  (leading_spaces s <= String.length s)%nat.
Proof.
  induction s as [|c s IH]; simpl; [lia|]. destruct (Re.is_space c); lia.
Qed.

Lemma star_greedy_spaces : forall (s : string) prev,
  Re.star_greedy Re.is_space prev s (fun _ rest => Some rest)
  = Some (Str.drop (leading_spaces s) s).
Proof.
  induction s as [|c s IH]; intros prev; [reflexivity|].
  cbn [Re.star_greedy leading_spaces]. destruct (Re.is_space c); [|reflexivity].
  rewrite IH. reflexivity.
Qed.

Lemma multi_match_len prev c (s : string) :
  Re.match_len Pat.multi_space prev (String c s)
  = if Re.is_space c && first_space s then Some (S (leading_spaces s))
    else None.
Proof.
  unfold Re.match_len, Re.match_here, Pat.multi_space.
  cbn [Re.exec Re.exactly]. unfold first_space.
  destruct (Re.is_space c); [|reflexivity].
  destruct s as [|d s]; [reflexivity|].
  cbn [leading_spaces]. destruct (Re.is_space d); [|reflexivity].
  rewrite star_greedy_spaces. cbn [andb]. f_equal.
  rewrite drop_length. pose proof (leading_spaces_le s).
  cbn [String.length]. lia.
Qed.

Lemma sub_squeeze : forall s : string,
  (forall prev,
     Re.sub_go Pat.multi_space " " None 0 prev s = squeeze false s)
  /\ (forall prev,
        Re.sub_go Pat.multi_space " " None (leading_spaces s) prev s
        = squeeze true s).
Proof.
  induction s as [|c s [IH1 IH2]].
  - split; reflexivity.
  - assert (H1 : forall prev,
      Re.sub_go Pat.multi_space " " None 0 prev (String c s)
      = squeeze false (String c s)).
    { intros prev. cbn [Re.sub_go squeeze]. rewrite multi_match_len.
      destruct (Re.is_space c && first_space s).
      - cbn [option_map String.append]. rewrite IH2. reflexivity.
      - rewrite IH1. reflexivity. }
    split; [exact H1|]. intros prev.
    cbn [leading_spaces]. destruct (Re.is_space c) eqn:Hc.
    + cbn [Re.sub_go squeeze]. rewrite Hc. apply IH2.
    + rewrite H1. cbn [squeeze]. rewrite Hc. reflexivity.
Qed.

Lemma found_two_spaces : forall (s : string) prev,
  match Re.search_from Pat.multi_space prev s with
  | Some _ => true
  | None => false
  end = has_two_spaces s.
Proof.
  induction s as [|c s IH]; intros prev.
  - reflexivity.
  - cbn [Re.search_from has_two_spaces]. rewrite multi_match_len.
    destruct (Re.is_space c && first_space s); [reflexivity|].
    cbn [orb]. rewrite <- (IH (Some c)).
    destruct (Re.search_from Pat.multi_space (Some c) s) as [[pre m]|];
      reflexivity.
Qed.

Lemma first_space_squeeze_true : forall s : string,
  first_space (squeeze true s) = false.
Proof.
  induction s as [|c s IH]; [reflexivity|]. cbn [squeeze].
  destruct (Re.is_space c) eqn:Hc; [exact IH|]. cbn [first_space]. exact Hc.
Qed.

Lemma first_space_squeeze_false (s : string) :
  first_space (squeeze false s) = first_space s.
Proof.
  destruct s as [|c s]; [reflexivity|]. cbn [squeeze].
  destruct (Re.is_space c && first_space s) eqn:H; [|reflexivity].
  apply andb_true_iff in H as [Hc _]. cbn [first_space]. rewrite Hc.
  reflexivity.
Qed.

Lemma squeeze_clean : forall (s : string) skipping,
  has_two_spaces (squeeze skipping s) = false.
Proof.
  induction s as [|c s IH]; intros skipping; [destruct skipping; reflexivity|].
  destruct skipping; cbn [squeeze].
  - destruct (Re.is_space c) eqn:Hc; [apply IH|].
    cbn [has_two_spaces]. rewrite Hc, IH. reflexivity.
  - destruct (Re.is_space c && first_space s) eqn:H.
    + cbn [has_two_spaces]. rewrite first_space_squeeze_true, IH.
      rewrite andb_false_r. reflexivity.
    + cbn [has_two_spaces]. rewrite first_space_squeeze_false, H, IH.
      reflexivity.
Qed.

Lemma squeeze_nonspaces : forall (s : string) skipping,
  nonspaces (squeeze skipping s) = nonspaces s.
Proof.
  induction s as [|c s IH]; intros skipping; [destruct skipping; reflexivity|].
  destruct skipping; cbn [squeeze nonspaces].
  - destruct (Re.is_space c) eqn:Hc; [apply IH|].
    cbn [nonspaces]. rewrite Hc, IH. reflexivity.
  - destruct (Re.is_space c && first_space s) eqn:H.
    + apply andb_true_iff in H as [Hc _]. rewrite Hc.
      cbn [nonspaces]. change (Re.is_space " ") with true. cbn iota. apply IH.
    + cbn [nonspaces]. destruct (Re.is_space c); rewrite IH; reflexivity.
Qed.

Lemma spaces_snoc : forall n, spaces (S n) = spaces n +:+ " ".
Proof.
  induction n as [|n IH]; [reflexivity|].
  cbn [spaces String.append] in *. rewrite <- IH. reflexivity.
Qed.

Lemma get_app_head : forall (a : string) c (b : string),
  String.get (String.length a) (a +:+ String c b) = Some c.
Proof. induction a as [|x a IH]; intros c b; [reflexivity|]. apply IH. Qed.

Lemma take_app : forall a b : string, Str.take (String.length a) (a +:+ b) = a.
Proof.
  induction a as [|x a IH]; intros b; cbn; [destruct b; reflexivity|].
  rewrite IH. reflexivity.
Qed.

Lemma from_end_app (a : string) c (suf : string) :
  Str.from_end (S (String.length suf)) (a +:+ String c suf) = Some c.
Proof.
  unfold Str.from_end. rewrite slen_app. cbn [String.length].
  destruct (Nat.leb_spec (S (String.length suf))
              (String.length a + S (String.length suf))) as [_|H]; [|lia].
  replace (String.length a + S (String.length suf) - S (String.length suf))%nat
    with (String.length a) by lia.
  apply get_app_head.
Qed.

Lemma from_end_short (s : string) k :
  (String.length s <= k)%nat -> Str.from_end (S k) s = None.
Proof.
  intros H. unfold Str.from_end.
  destruct (Nat.leb_spec (S k) (String.length s)); [lia|reflexivity].
Qed.

Lemma drop_last_app (a : string) c (suf : string) :
  Str.drop_last (S (String.length suf)) (a +:+ String c suf) = a.
Proof.
  unfold Str.drop_last. rewrite slen_app. cbn [String.length].
  replace (String.length a + S (String.length suf) - S (String.length suf))%nat
    with (String.length a) by lia.
  apply take_app.
Qed.

Lemma take_last_suffix (a suf : string) :
  Str.take_last (String.length suf) (a +:+ suf) = suf.
Proof.
  unfold Str.take_last. rewrite slen_app.
  replace (String.length a + String.length suf - String.length suf)%nat
    with (String.length a) by lia.
  apply drop_app.
Qed.

Lemma strip_end_space_spec (suf : string) : forall n (pre : string) spacing fuel,
  Str.last pre <> Some " "%char -> (n < fuel)%nat ->
  strip_end_space fuel (String.length suf) (pre +:+ spaces n +:+ suf) spacing
  = if nonempty pre then Ok (pre +:+ suf, spacing || (0 <? n)%nat)
    else Raise IndexError.
Proof.
  induction n as [|n IH]; intros pre spacing fuel Hpre Hfuel.
  - destruct fuel as [|fuel]; [lia|]. cbn [spaces String.append strip_end_space].
    destruct pre as [|x pre].
    + cbn [String.append nonempty]. rewrite from_end_short by lia. reflexivity.
    + cbn [nonempty]. rewrite orb_false_r.
      assert (Hsplit : exists a c, String x pre = a +:+ String c EmptyString).
      { clear. revert x. induction pre as [|y pre IH]; intros x.
        - exists EmptyString, x. reflexivity.
        - destruct (IH y) as (a & c & He). exists (String x a), c.
          cbn [String.append]. rewrite <- He. reflexivity. }
      destruct Hsplit as (a & c & He). rewrite He in *.
      rewrite sapp_assoc. cbn [String.append]. rewrite from_end_app.
      destruct (Ascii.eqb_spec c " ") as [->|Hc]; [|reflexivity].
      exfalso. apply Hpre. unfold Str.last.
      change 1%nat with (S (String.length EmptyString)).
      apply from_end_app.
  - destruct fuel as [|fuel]; [lia|]. cbn [strip_end_space].
    rewrite spaces_snoc, !sapp_assoc. cbn [String.append].
    rewrite <- sapp_assoc, from_end_app, drop_last_app.
    change (Ascii.eqb " " " ") with true. cbn iota.
    replace ((pre +:+ spaces n) +:+ String " " suf)
      with (((pre +:+ spaces n) +:+ " ") +:+ suf)
      by (rewrite (sapp_assoc _ " " suf); reflexivity).
    rewrite take_last_suffix, sapp_assoc.
    rewrite IH by (auto; lia).
    destruct (nonempty pre); [|reflexivity].
    rewrite !orb_true_r. destruct spacing; reflexivity.
Qed.

End Spacing.

(** X13: where [removeMultipleSpacing] replaces [\s{2,}] by a space, the new
    name holds no two whitespace characters in a row, and the characters that
    are not whitespace are those of the old name, in their order. *)
Theorem removeMultipleSpacing_leaves_single_spacing (book : string) :
  Re.found Pat.multi_space (Re.sub Pat.multi_space " " book) = false
  /\ nonspaces (Re.sub Pat.multi_space " " book) = nonspaces book.
Proof.
  unfold Re.sub, Re.found, Re.search.
  rewrite (proj1 (sub_squeeze book)), found_two_spaces.
  split; [apply squeeze_clean|apply squeeze_nonspaces].
Qed.

(** X14: the loop of [removeMultipleSpacing] that looks at the character in
    front of the extension takes away all the spaces that end the stem; when
    nothing but spaces stands in front of the extension, the loop runs off
    the front of the name and raises IndexError. *)
Theorem strip_end_space_strips
    (pre : string) (n : nat) (suf : string) (spacing : bool) :
  Str.last pre <> Some " "%char ->
  strip_end_space (S (String.length (pre +:+ spaces n +:+ suf)))
    (String.length suf) (pre +:+ spaces n +:+ suf) spacing
  = if nonempty pre then Ok (pre +:+ suf, spacing || (0 <? n)%nat)
    else Raise IndexError.
Proof.
  intros Hpre. apply strip_end_space_spec; [exact Hpre|].
  rewrite !slen_app.
  assert (H : String.length (spaces n) = n)
    by (induction n as [|m IH]; simpl; congruence).
  lia.
Qed.

Lemma strip_end_space_strips_witness :
  strip_end_space (S (String.length ("Book Name" +:+ spaces 2 +:+ ".epub")))
    (String.length ".epub") ("Book Name" +:+ spaces 2 +:+ ".epub") false
  = Ok ("Book Name.epub", true).
Proof.
  apply (strip_end_space_strips "Book Name" 2 ".epub" false). discriminate.
Defined.

(** ** Commas *)

Section Commas.

Lemma comma_match_len prev c (s : string) :
  Re.match_len Pat.comma prev (String c s)
  = if Ascii.eqb "," c then Some 1%nat else None.
Proof.
  unfold Re.match_len, Re.match_here, Pat.comma, Re.Lit.
  cbn [Re.exec Re.exactly]. destruct (Ascii.eqb "," c); [|reflexivity].
  cbn [String.length]. f_equal. lia.
Qed.

Lemma sub_commas : forall (s : string) prev,
  Re.sub_go Pat.comma ", " None 0 prev s = space_after_commas s.
Proof.
  induction s as [|c s IH]; intros prev; [reflexivity|].
  cbn [Re.sub_go space_after_commas]. rewrite comma_match_len.
  destruct (Ascii.eqb_spec "," c) as [<-|Hne].
  - cbn [option_map String.append]. rewrite IH. reflexivity.
  - rewrite IH. reflexivity.
Qed.

Lemma comma_nonspace_match_len prev c (s : string) :
  Re.match_len Pat.comma_nonspace prev (String c s)
  = if Ascii.eqb "," c && first_nonspace s then Some 2%nat else None.
Proof.
  unfold Re.match_len, Re.match_here, Pat.comma_nonspace, Re.Lit.
  cbn [Re.exec Re.exactly]. unfold first_nonspace.
  destruct (Ascii.eqb "," c); [|reflexivity].
  destruct s as [|d s]; [reflexivity|].
  destruct (Re.not_space d); [|reflexivity].
  cbn [andb String.length]. f_equal. lia.
Qed.

Lemma found_comma_nonspace : forall (s : string) prev,
  match Re.search_from Pat.comma_nonspace prev s with
  | Some _ => true
  | None => false
  end = has_comma_nonspace s.
Proof.
  induction s as [|c s IH]; intros prev.
  - reflexivity.
  - cbn [Re.search_from has_comma_nonspace]. rewrite comma_nonspace_match_len.
    destruct (Ascii.eqb "," c && first_nonspace s); [reflexivity|].
    cbn [orb]. rewrite <- (IH (Some c)).
    destruct (Re.search_from Pat.comma_nonspace (Some c) s) as [[pre m]|];
      reflexivity.
Qed.

Lemma space_after_commas_clean : forall s : string,
  has_comma_nonspace (space_after_commas s) = false.
Proof.
  induction s as [|c s IH]; [reflexivity|].
  cbn [space_after_commas]. destruct (Ascii.eqb_spec "," c) as [<-|Hne].
  - cbn [has_comma_nonspace first_nonspace]. rewrite IH. reflexivity.
  - cbn [has_comma_nonspace]. rewrite IH.
    destruct (Ascii.eqb_spec "," c) as [He|_]; [contradiction|reflexivity].
Qed.

End Commas.

(** X15: where [fixCommaSpacing] replaces every comma by a comma and a space,
    no comma of the new name is followed by a character that is not
    whitespace. *)
Theorem fixCommaSpacing_spaces_every_comma (book : string) :
  Re.found Pat.comma_nonspace (Re.sub Pat.comma ", " book) = false.
Proof.
  unfold Re.sub, Re.found, Re.search.
  rewrite sub_commas, found_comma_nonspace. apply space_after_commas_clean.
Qed.

(** ** A pass and its undoing *)

Section RoundTrip.

Variable path : string.

Lemma distinct_nodup xs : distinct xs = true -> List.NoDup xs.
Proof.
  induction xs as [|x xs IH]; intros H; [constructor|].
  simpl in H. apply andb_true_iff in H as [Hx Hd].
  constructor; [|apply IH; exact Hd].
  intros Hin. apply negb_true_iff in Hx.
  assert (He : existsb (String.eqb x) xs = true).
  { apply existsb_exists. exists x. split; [exact Hin|apply String.eqb_refl]. }
  congruence.
Qed.

Lemma nonempty_ne (s : string) : nonempty s = true -> s <> EmptyString.
Proof. destruct s; [discriminate|discriminate]. Qed.

Lemma clean_plan_spec dir plan :
  clean_plan dir plan = true ->
  List.NoDup (map fst plan) /\ List.NoDup (map snd plan)
  /\ forall new old, In (new, old) plan ->
       (old ∈ dir) /\ (new ∉ dir) /\ new <> EmptyString /\ old <> EmptyString.
Proof.
  unfold clean_plan. intros H.
  apply andb_true_iff in H as [H H3]. apply andb_true_iff in H as [H1 H2].
  split; [apply distinct_nodup; exact H1|].
  split; [apply distinct_nodup; exact H2|].
  intros new old Hin. rewrite forallb_forall in H3.
  specialize (H3 _ Hin). cbn [fst snd] in H3.
  apply andb_true_iff in H3 as [H3 Ho]. apply andb_true_iff in H3 as [H3 Hn].
  apply andb_true_iff in H3 as [Hi Hni].
  apply bool_decide_eq_true_1 in Hi. apply negb_true_iff in Hni.
  apply bool_decide_eq_false_1 in Hni.
  repeat split; auto using nonempty_ne.
Qed.

Lemma elem_of_renamed x dir plan :
  (x ∈ renamed dir plan)
  <-> ((x ∈ dir) /\ ~ In x (map snd plan)) \/ In x (map fst plan).
Proof.
  unfold renamed.
  rewrite elem_of_union, elem_of_difference, !elem_of_list_to_set.
  rewrite !list_elem_of_In. reflexivity.
Qed.

Lemma renamed_nil dir : renamed dir [] = dir.
Proof.
  apply set_eq. intros x. rewrite elem_of_renamed. simpl. tauto.
Qed.

Lemma dict_set_fresh k v : forall d,
  ~ In k (map fst d) -> Dict.set k v d = (d ++ [(k, v)])%list.
Proof.
  induction d as [|[k' v'] d IH]; intros H; [reflexivity|].
  simpl in *. destruct (String.eqb_spec k k') as [->|Hne].
  - exfalso. apply H. left. reflexivity.
  - rewrite IH; [reflexivity|]. intros Hin. apply H. right. exact Hin.
Qed.

(** Undoing a clean plan: every rename back succeeds. *)
Lemma restore_clean_plan dir : forall plan w counter,
  List.NoDup (map fst plan) -> List.NoDup (map snd plan) ->
  (forall new old, In (new, old) plan ->
     (old ∈ dir) /\ (new ∉ dir) /\ new <> EmptyString /\ old <> EmptyString) ->
  fs w = renamed dir plan ->
  exists w',
    for_fold plan counter (restore_step path) w
    = (w', Ok (counter + length plan)%nat)
    /\ fs w' = dir /\ undo w' = undo w /\ stdout w' = stdout w
    /\ stdin w' = stdin w.
Proof.
  induction plan as [|[new old] plan IH]; intros w counter Hn Ho Hall Hfs.
  - exists w. simpl. rewrite Nat.add_0_r. rewrite renamed_nil in Hfs. auto.
  - simpl in Hn, Ho. inversion Hn as [|? ? Hn1 Hn2]. inversion Ho as [|? ? Ho1 Ho2].
    subst. destruct (Hall new old (or_introl eq_refl)) as (Hod & Hnd & Hne & Hoe).
    assert (Hall' : forall n o, In (n, o) plan ->
              (o ∈ dir) /\ (n ∉ dir) /\ n <> EmptyString /\ o <> EmptyString).
    { intros n o Hin. apply Hall. right. exact Hin. }
    assert (Hnew_in : new ∈ fs w).
    { rewrite Hfs, elem_of_renamed. right. left. reflexivity. }
    assert (Hold_out : old ∉ fs w).
    { rewrite Hfs, elem_of_renamed. intros [[_ H]|H].
      - apply H. left. reflexivity.
      - simpl in H. destruct H as [H|H]; [subst; contradiction|].
        apply in_map_iff in H as [[n o] [He Hin]]. simpl in He. subst n.
        destruct (Hall' _ _ Hin) as (_ & H & _). contradiction. }
    assert (Hr : rename_outcome (fs w) new old
                 = Ok ({[ old ]} ∪ (fs w ∖ {[ new ]}))).
    { unfold rename_outcome.
      destruct (decide (new ∈ fs w)); [|contradiction].
      destruct (decide (old = new)) as [->|_]; [contradiction|].
      destruct (decide (old ∈ fs w)); [contradiction|].
      destruct (decide (old = EmptyString)); [contradiction|reflexivity]. }
    cbn [for_fold]. unfold bind at 1, restore_step at 1, try_except.
    unfold bind at 1, os_rename at 1. rewrite Hr. unfold ret at 1.
    set (w1 := mkWorld _ _ _ _ _).
    destruct (IH w1 (S counter) Hn2 Ho2 Hall') as (w' & Hrun & H1 & H2 & H3 & H4).
    { unfold w1. cbn [fs]. apply set_eq. intros x.
      rewrite elem_of_union, elem_of_singleton, elem_of_difference,
        elem_of_singleton, Hfs, !elem_of_renamed. simpl.
      split.
      - intros [Hx|[[[Hx Hx']|[Hx|Hx]] Hxn]].
        + subst x. left. split; [exact Hod|exact Ho1].
        + left. split; [exact Hx|]. intros H. apply Hx'. right. exact H.
        + congruence.
        + right. exact Hx.
      - intros [[Hx Hx']|Hx].
        + destruct (decide (x = old)) as [Hxo|Hxo]; [left; exact Hxo|].
          right. split.
          * left. split; [exact Hx|]. intros [H|H]; [congruence|contradiction].
          * intros Hxn. subst x. contradiction.
        + right. split; [right; right; exact Hx|].
          intros Hxn. subst x. contradiction. }
    exists w'. rewrite Hrun. replace (S counter + length plan)%nat
      with (counter + length ((new, old) :: plan))%nat by (simpl; lia).
    auto.
Qed.

Section Forward.

Variable guard : string -> bool.
Variable rn : string -> string.
Variable msg : string -> string.
Variable other : nat -> string -> M nat.
Hypothesis other_quiet : forall counter book w,
  exists out,
    other counter book w
    = (mkWorld (fs w) (undo w) (stdout w ++ out) (stdin w) (renames w),
       Ok counter).

(** A pass that renames, records and reports, on a clean plan: every rename
    succeeds and the dictionary ends as the plan. *)
Lemma pass_clean_plan dir : forall books done w counter,
  List.NoDup (map fst (done ++ plan_of guard rn books)) ->
  List.NoDup (map snd (done ++ plan_of guard rn books)) ->
  (forall new old, In (new, old) (done ++ plan_of guard rn books) ->
     (old ∈ dir) /\ (new ∉ dir) /\ new <> EmptyString /\ old <> EmptyString) ->
  fs w = renamed dir done -> undo w = done ->
  exists w',
    for_fold books counter (fun counter book =>
      if guard book then
        os_rename book (rn book) ;;
        undo_set (rn book) book ;;
        print (msg book) ;;
        ret (S counter)
      else other counter book) w
    = (w', Ok (counter + length (plan_of guard rn books))%nat)
    /\ fs w' = renamed dir (done ++ plan_of guard rn books)
    /\ undo w' = (done ++ plan_of guard rn books)%list
    /\ stdin w' = stdin w.
Proof.
  induction books as [|book books IH]; intros done w counter Hn Ho Hall Hfs Hun.
  - exists w. simpl. rewrite Nat.add_0_r, app_nil_r. auto.
  - cbn [for_fold]. unfold plan_of in *. cbn [flat_map] in *.
    fold (plan_of guard rn books) in *.
    destruct (guard book) eqn:Hg.
    + cbn [app] in *.
      destruct (Hall (rn book) book) as (Hod & Hnd & Hne & Hoe).
      { apply in_or_app. right. left. reflexivity. }
      rewrite map_app in Hn, Ho. cbn [map fst snd] in Hn, Ho.
      pose proof (NoDup_remove_2 _ _ _ Hn) as Hn1.
      pose proof (NoDup_remove_2 _ _ _ Ho) as Ho1.
      assert (Hnew_done : ~ In (rn book) (map fst done)).
      { intros H. apply Hn1. apply in_or_app. left. exact H. }
      assert (Hold_done : ~ In book (map snd done)).
      { intros H. apply Ho1. apply in_or_app. left. exact H. }
      assert (Hdone : forall n o, In (n, o) done -> (o ∈ dir) /\ (n ∉ dir)).
      { intros n o Hin. destruct (Hall n o) as (H1 & H2 & _); [|auto].
        apply in_or_app. left. exact Hin. }
      assert (Hr : rename_outcome (fs w) book (rn book)
                   = Ok ({[ rn book ]} ∪ (fs w ∖ {[ book ]}))).
      { unfold rename_outcome.
        destruct (decide (book ∈ fs w)) as [_|H].
        2:{ exfalso. apply H. rewrite Hfs, elem_of_renamed. left. auto. }
        destruct (decide (rn book = book)) as [He|_].
        { rewrite He in Hnd. contradiction. }
        destruct (decide (rn book ∈ fs w)) as [H|_].
        { exfalso. rewrite Hfs, elem_of_renamed in H.
          destruct H as [[H _]|H]; contradiction. }
        destruct (decide (rn book = EmptyString)); [contradiction|reflexivity]. }
      unfold bind at 1. unfold bind at 1, os_rename at 1. rewrite Hr.
      unfold bind at 1, undo_set at 1. cbn [fs undo stdout stdin renames].
      unfold bind at 1, print at 1, ret at 1.
      cbn [fs undo stdout stdin renames].
      set (w1 := mkWorld _ _ _ _ _).
      destruct (IH (done ++ [(rn book, book)])%list w1 (S counter))
        as (w' & Hrun & H1 & H2 & H3).
      * rewrite <- app_assoc. cbn [app]. rewrite map_app. exact Hn.
      * rewrite <- app_assoc. cbn [app]. rewrite map_app. exact Ho.
      * intros n o Hin. apply Hall. rewrite <- app_assoc in Hin. exact Hin.
      * unfold w1. cbn [fs]. apply set_eq. intros x.
        rewrite elem_of_union, elem_of_singleton, elem_of_difference,
          elem_of_singleton, Hfs, !elem_of_renamed.
        rewrite !map_app, !in_app_iff. cbn [map fst snd In].
        split.
        -- intros [Hx|[[[Hx Hx']|Hx] Hxb]].
           ++ right. right. left. symmetry. exact Hx.
           ++ left. split; [exact Hx|]. intros [H|[H|[]]]; [contradiction|congruence].
           ++ right. left. exact Hx.
        -- intros [[Hx Hx']|[Hx|[Hx|[]]]].
           ++ right. split.
              ** left. split; [exact Hx|]. intros H. apply Hx'. left. exact H.
              ** intros Hxb. apply Hx'. right. left. symmetry. exact Hxb.
           ++ right. split; [right; exact Hx|].
              intros Hxb. subst x.
              apply in_map_iff in Hx as [[n o] [He Hin]].
              simpl in He. subst n. destruct (Hdone _ _ Hin). contradiction.
           ++ left. symmetry. exact Hx.
      * unfold w1. cbn [undo]. rewrite Hun. apply dict_set_fresh.
        exact Hnew_done.
      * exists w'. rewrite Hrun. rewrite <- !app_assoc in *. cbn [app] in *.
        replace (S counter + length (plan_of guard rn books))%nat
          with (counter + length ((rn book, book) :: plan_of guard rn books))%nat
          by (simpl; lia).
        auto.
    + cbn [app] in *. unfold bind at 1.
      destruct (other_quiet counter book w) as [out Hout]. rewrite Hout.
      set (w1 := mkWorld _ _ _ _ _).
      destruct (IH done w1 counter Hn Ho Hall Hfs Hun)
        as (w' & Hrun & H1 & H2 & H3).
      exists w'. auto.
Qed.

End Forward.

End RoundTrip.

Lemma restoreOld_clean_plan path dir plan w1 :
  clean_plan dir plan = true ->
  undo w1 = plan -> fs w1 = renamed dir plan ->
  exists w2, restoreOld path w1 = (w2, Ok tt) /\ fs w2 = dir.
Proof.
  intros Hc Hun Hfs. apply clean_plan_spec in Hc as (Hn & Ho & Hall).
  rewrite restoreOld_run, Hun.
  destruct plan as [|p plan'].
  - eexists. split; [reflexivity|]. cbn [print fs].
    rewrite Hfs. apply renamed_nil.
  - destruct (restore_clean_plan path dir (p :: plan') w1 0%nat Hn Ho Hall Hfs)
      as (w' & Hrun & H1 & _).
    rewrite Hrun. eexists. split; [reflexivity|].
    cbn [print fs]. exact H1.
Qed.

Lemma ret_quiet (counter : nat) (w : World) :
  exists out,
    ret counter w
    = (mkWorld (fs w) (undo w) (stdout w ++ out) (stdin w) (renames w),
       Ok counter).
Proof. exists []. rewrite app_nil_r. destruct w; reflexivity. Qed.

(** X16: when the renames of [fixApostrophes] do not get in each other's way
    (the new names are pairwise different and none is a file of the
    directory, the renamed books are files of the directory, each listed
    once), the pass renames every book that holds an underscore between
    letters, the dictionary ends as the list of these renames, and
    [restoreOld] then gives the directory its former content. *)
Theorem fixApostrophes_undone_by_restoreOld
    (path : string) (books : list string) (w : World) :
  clean_plan (fs w)
    (plan_of (Re.found Pat.letter_us_letter)
             (Re.sub Pat.us_between_letters "'") books) = true ->
  exists w1 w2,
    fixApostrophes path books w = (w1, Ok tt)
    /\ undo w1 = plan_of (Re.found Pat.letter_us_letter)
                         (Re.sub Pat.us_between_letters "'") books
    /\ fs w1 = renamed (fs w)
                 (plan_of (Re.found Pat.letter_us_letter)
                          (Re.sub Pat.us_between_letters "'") books)
    /\ restoreOld path w1 = (w2, Ok tt)
    /\ fs w2 = fs w.
Proof.
  intros Hc. pose proof Hc as Hc'.
  apply clean_plan_spec in Hc' as (Hn & Ho & Hall).
  set (w0 := mkWorld (fs w) [] (stdout w) (stdin w) (renames w)).
  destruct (pass_clean_plan (Re.found Pat.letter_us_letter)
              (Re.sub Pat.us_between_letters "'")
              (fun book => book +:+ " changed to "
                           +:+ Re.sub Pat.us_between_letters "'" book)
              (fun counter _ => ret counter)
              (fun counter _ w => ret_quiet counter w)
              (fs w) books [] w0 0%nat Hn Ho Hall)
    as (w' & Hrun & H1 & H2 & H3);
    [symmetry; apply renamed_nil|reflexivity|].
  cbn [app] in H1, H2.
  assert (Hpass : exists w1,
    fixApostrophes path books w = (w1, Ok tt)
    /\ undo w1 = undo w' /\ fs w1 = fs w').
  { unfold fixApostrophes. unfold bind at 1, undo_clear at 1. fold w0.
    unfold bind at 1. cbv zeta. rewrite Hrun.
    eexists. split; [reflexivity|]. split; reflexivity. }
  destruct Hpass as (w1 & Hpass & Hu1 & Hf1).
  rewrite <- Hu1 in H2. rewrite <- Hf1 in H1.
  destruct (restoreOld_clean_plan path (fs w) _ w1 Hc H2 H1) as (w2 & Hr & Hfs).
  exists w1, w2. auto.
Qed.

Lemma fixApostrophes_undone_by_restoreOld_witness :
  exists w1 w2,
    fixApostrophes books_dir ["Don_t Panic.epub"; "Code.epub"; "It_s.pdf"]
      (session ["Don_t Panic.epub"; "Code.epub"; "It_s.pdf"; "cover.jpg"] [])
    = (w1, Ok tt)
    /\ undo w1 = [("Don't Panic.epub", "Don_t Panic.epub");
                  ("It's.pdf", "It_s.pdf")]
    /\ fs w1 = renamed (list_to_set ["Don_t Panic.epub"; "Code.epub";
                                     "It_s.pdf"; "cover.jpg"])
                 [("Don't Panic.epub", "Don_t Panic.epub");
                  ("It's.pdf", "It_s.pdf")]
    /\ restoreOld books_dir w1 = (w2, Ok tt)
    /\ fs w2 = list_to_set ["Don_t Panic.epub"; "Code.epub"; "It_s.pdf";
                            "cover.jpg"].
Proof.
  apply (fixApostrophes_undone_by_restoreOld books_dir
           ["Don_t Panic.epub"; "Code.epub"; "It_s.pdf"]
           (session ["Don_t Panic.epub"; "Code.epub"; "It_s.pdf"; "cover.jpg"]
                    [])).
  vm_compute. reflexivity.
Defined.

Lemma print_quiet (line : string) (counter : nat) (w : World) :
  exists out,
    (print line ;; ret counter) w
    = (mkWorld (fs w) (undo w) (stdout w ++ out) (stdin w) (renames w),
       Ok counter).
Proof. exists [line]. reflexivity. Qed.

(** X17: when the renames of [removeSubstring] do not get in each other's
    way, the pass takes the first occurrence of the substring out of the
    name of every book that holds it, the dictionary ends as the list of
    these renames, and [restoreOld] then gives the directory its former
    content. *)
Theorem removeSubstring_undone_by_restoreOld
    (path : string) (books : list string) (w : World)
    (substring : string) (rest : list string) :
  stdin w = substring :: rest ->
  clean_plan (fs w)
    (plan_of (Str.contains substring)
             (Str.replace_count substring EmptyString 1) books) = true ->
  exists w1 w2,
    removeSubstring path books w = (w1, Ok tt)
    /\ undo w1 = plan_of (Str.contains substring)
                         (Str.replace_count substring EmptyString 1) books
    /\ fs w1 = renamed (fs w)
                 (plan_of (Str.contains substring)
                          (Str.replace_count substring EmptyString 1) books)
    /\ restoreOld path w1 = (w2, Ok tt)
    /\ fs w2 = fs w.
Proof.
  intros Hin Hc. pose proof Hc as Hc'.
  apply clean_plan_spec in Hc' as (Hn & Ho & Hall).
  set (w0 := mkWorld (fs w) []
               (stdout w ++ ["Enter substring to remove from filename(s): "])
               rest (renames w)).
  destruct (pass_clean_plan (Str.contains substring)
              (Str.replace_count substring EmptyString 1)
              (fun book => book +:+ " changed to "
                           +:+ Str.replace_count substring EmptyString 1 book)
              (fun counter book =>
                 print (book +:+ " contains no substring " +:+ substring) ;;
                 ret counter)
              (fun counter book w => print_quiet _ counter w)
              (fs w) books [] w0 0%nat Hn Ho Hall)
    as (w' & Hrun & H1 & H2 & H3);
    [symmetry; apply renamed_nil|reflexivity|].
  cbn [app] in H1, H2.
  assert (Hpass : exists w1,
    removeSubstring path books w = (w1, Ok tt)
    /\ undo w1 = undo w' /\ fs w1 = fs w').
  { unfold removeSubstring. unfold bind at 1, undo_clear at 1.
    unfold bind at 1, input at 1. cbn [fs undo stdout stdin renames].
    rewrite Hin. fold w0.
    unfold bind at 1. cbv zeta. rewrite Hrun.
    eexists. split; [reflexivity|]. split; reflexivity. }
  destruct Hpass as (w1 & Hpass & Hu1 & Hf1).
  rewrite <- Hu1 in H2. rewrite <- Hf1 in H1.
  destruct (restoreOld_clean_plan path (fs w) _ w1 Hc H2 H1) as (w2 & Hr & Hfs).
  exists w1, w2. auto.
Qed.

Lemma removeSubstring_undone_by_restoreOld_witness :
  exists w1 w2,
    removeSubstring books_dir ["Code (retail).epub"; "Emma.epub"]
      (session ["Code (retail).epub"; "Emma.epub"] [" (retail)"])
    = (w1, Ok tt)
    /\ undo w1 = [("Code.epub", "Code (retail).epub")]
    /\ fs w1 = renamed (list_to_set ["Code (retail).epub"; "Emma.epub"])
                 [("Code.epub", "Code (retail).epub")]
    /\ restoreOld books_dir w1 = (w2, Ok tt)
    /\ fs w2 = list_to_set ["Code (retail).epub"; "Emma.epub"].
Proof.
  apply (removeSubstring_undone_by_restoreOld books_dir
           ["Code (retail).epub"; "Emma.epub"]
           (session ["Code (retail).epub"; "Emma.epub"] [" (retail)"])
           " (retail)" []).
  - reflexivity.
  - vm_compute. reflexivity.
Defined.

(** ** Edges of [restoreAuthors] and [removeSubstring] *)

(** X18: when the first book has none of the extensions epub, mobi, pdf in
    its name (as a book with the extension azw, which [getBooks] lists) and
    the second directory is not empty, [restoreAuthors] reads [title2] before
    it was assigned: it ends with UnboundLocalError, after clearing the
    dictionary and before any rename. *)
Theorem restoreAuthors_unbound_title2
    (path book1 : string) (books : list string)
    (book2 : string) (books2 : list string)
    (w : World) (path2 : string) (rest : list string) :
  stdin w = path2 :: rest ->
  Pat.book_ext book1 = false ->
  restoreAuthors path (book1 :: books) (book2 :: books2) w
  = (mkWorld (fs w) []
       (stdout w ++ ["Enter path to other directory with books to compare: "])
       rest (renames w),
     Raise UnboundLocalError).
Proof.
  intros Hin Hext. unfold restoreAuthors.
  unfold bind at 1, undo_clear at 1.
  unfold bind at 1, input at 1. cbn [fs undo stdout stdin renames].
  rewrite Hin. unfold bind at 1. cbn [for_fold].
  unfold bind at 1. unfold bind at 1.
  cbn [restoreAuthors_inner]. rewrite Hext. reflexivity.
Qed.

Lemma restoreAuthors_unbound_title2_witness :
  restoreAuthors books_dir ("Code.azw" :: ["Emma.epub"])
    ("Petzold, Charles - Code.epub" :: [])
    (session ["Code.azw"; "Emma.epub"] ["D:\reference\"])
  = (mkWorld (list_to_set ["Code.azw"; "Emma.epub"]) []
       ([] ++ ["Enter path to other directory with books to compare: "])
       [] [],
     Raise UnboundLocalError).
Proof.
  apply (restoreAuthors_unbound_title2 books_dir "Code.azw" ["Emma.epub"]
           "Petzold, Charles - Code.epub" []
           (session ["Code.azw"; "Emma.epub"] ["D:\reference\"])
           "D:\reference\" []); reflexivity.
Defined.

Section FirstOccurrence.

Variable old : string.

Lemma replace_go_rest new : forall (a b : string),
  Str.replace_go old new (Some 0%nat) (String.length a) (a +:+ b) = b.
Proof.
  induction a as [|c a IH]; intros b.
  - cbn [String.length String.append]. destruct b; reflexivity.
  - cbn [String.length String.append Str.replace_go]. apply IH.
Qed.

Lemma replace_first new : forall (pre post : string),
  nonempty old = true ->
  (forall i, (i < String.length pre)%nat ->
     Str.startswith old (Str.drop i (pre +:+ old +:+ post)) = false) ->
  Str.replace_go old new (Some 1%nat) 0 (pre +:+ old +:+ post)
  = pre +:+ new +:+ post.
Proof.
  intros pre post Hne. induction pre as [|c pre IH]; intros Hfirst.
  - cbn [String.append]. destruct old as [|x o] eqn:Ho; [discriminate|].
    cbn [String.append Str.replace_go].
    assert (Hs : Str.startswith (String x o) (String x (o +:+ post)) = true)
      by (apply (startswith_app (String x o) post)).
    rewrite Hs. cbn [option_map Nat.pred String.length].
    f_equal. rewrite <- Ho. apply replace_go_rest.
  - cbn [String.append Str.replace_go].
    pose proof (Hfirst 0%nat ltac:(cbn; lia)) as H0. cbn [Str.drop String.append] in H0.
    rewrite H0. f_equal. apply IH.
    intros i Hi. apply (Hfirst (S i)). cbn. lia.
Qed.

Lemma contains_startswith : forall s : string,
  Str.contains old s = true <->
  exists i, Str.startswith old (Str.drop i s) = true.
Proof.
  induction s as [|c s IH].
  - cbn [Str.contains]. rewrite orb_false_r. split.
    + intros H. exists 0%nat. exact H.
    + intros [i H]. destruct i; exact H.
  - cbn [Str.contains]. rewrite orb_true_iff, IH. split.
    + intros [H|[i H]]; [exists 0%nat; exact H|exists (S i); exact H].
    + intros [[|i] H]; [left; exact H|right; exists i; exact H].
Qed.

End FirstOccurrence.

(** X19: [removeSubstring] takes the first occurrence of the substring out of
    a name and leaves the later ones: when no occurrence starts in front of
    the one shown, the name passes the test and the new name is what stands
    around that occurrence. *)
Theorem removeSubstring_takes_first_occurrence (substring pre post : string) :
  nonempty substring = true ->
  (forall i, (i < String.length pre)%nat ->
     Str.startswith substring (Str.drop i (pre +:+ substring +:+ post))
     = false) ->
  Str.contains substring (pre +:+ substring +:+ post) = true
  /\ Str.replace_count substring EmptyString 1 (pre +:+ substring +:+ post)
     = pre +:+ post.
Proof.
  intros Hne Hfirst. split.
  - apply contains_startswith. exists (String.length pre).
    rewrite drop_app. apply startswith_app.
  - unfold Str.replace_count.
    rewrite (replace_first substring EmptyString pre post Hne Hfirst).
    reflexivity.
Qed.

Lemma removeSubstring_takes_first_occurrence_witness :
  Str.contains "ab" ("xa" +:+ "ab" +:+ "-ab.epub") = true
  /\ Str.replace_count "ab" EmptyString 1 ("xa" +:+ "ab" +:+ "-ab.epub")
     = "xa" +:+ "-ab.epub".
Proof.
  apply (removeSubstring_takes_first_occurrence "ab" "xa" "-ab.epub").
  - reflexivity.
  - intros i Hi. destruct i as [|[|i]]; [reflexivity|reflexivity|].
    simpl in Hi. lia.
Defined.

(** ** Restoring the authors *)

Section RestoreAuthors.

Lemma search_at (r : Re.regex) (m rest : string) : forall (pre : string) prev,
  (forall n, (n < String.length pre)%nat ->
     unmatched r (Str.drop n (pre +:+ m +:+ rest))) ->
  Re.match_here r (last_of prev pre) (m +:+ rest) = Some rest ->
  Re.search_from r prev (pre +:+ m +:+ rest) = Some (pre, m).
Proof.
  induction pre as [|c pre IH]; intros prev Hun Hm.
  - cbn [String.append last_of] in *.
    assert (Hlen : Re.match_len r prev (m +:+ rest) = Some (String.length m)).
    { unfold Re.match_len. rewrite Hm. f_equal. rewrite slen_app. lia. }
    destruct (m +:+ rest) as [|d s] eqn:Hs.
    + cbn [Re.search_from]. rewrite Hlen. rewrite <- Hs, take_app. reflexivity.
    + cbn [Re.search_from]. rewrite Hlen. rewrite <- Hs, take_app. reflexivity.
  - cbn [String.append Re.search_from].
    rewrite match_len_none by (apply (Hun 0%nat); cbn; lia).
    rewrite IH; [reflexivity| |exact Hm].
    intros n Hn. apply (Hun (S n)). cbn. lia.
Qed.

Lemma first_match_at (r : Re.regex) (pre m rest : string) :
  (forall n, (n < String.length pre)%nat ->
     unmatched r (Str.drop n (pre +:+ m +:+ rest))) ->
  Re.match_here r (last_of None pre) (m +:+ rest) = Some rest ->
  Re.first_match r (pre +:+ m +:+ rest) = Some m.
Proof.
  intros Hun Hm. unfold Re.first_match, Re.search.
  rewrite (search_at r m rest pre None Hun Hm). reflexivity.
Qed.

Lemma word_no_dot : forall e : string,
  all_chars Re.is_word e = true -> no_dot e = true.
Proof.
  induction e as [|c e IH]; intros H; [reflexivity|].
  cbn [all_chars] in H. apply andb_true_iff in H as [Hc He].
  unfold no_dot. cbn [all_chars]. fold (no_dot e). rewrite (IH He).
  unfold is_dot. destruct (Ascii.eqb_spec "." c) as [<-|_]; [discriminate Hc|].
  reflexivity.
Qed.

(** [re.findall(r".+\.", book)[0]]: the name up to its last dot. *)
Lemma stem_of_name (s e : string) :
  nonempty s = true -> plain s = true -> no_dot e = true ->
  Re.first_match Pat.upto_dot (s +:+ "." +:+ e) = Some (s +:+ ".").
Proof.
  intros Hne Hp He.
  pose proof (first_match_at Pat.upto_dot EmptyString (s +:+ ".") e) as H.
  cbn [String.append String.length last_of] in H.
  rewrite sapp_assoc in H. apply H; [intros n Hn; lia|].
  apply (upto_match "." eq_refl s e None Hne Hp He).
Qed.

Lemma drop_last_one (s : string) c :
  Str.drop_last 1 (s +:+ String c EmptyString) = s.
Proof. apply (drop_last_app s c EmptyString). Qed.

Lemma title_of_name (t e : string) :
  nonempty t = true -> plain t = true -> no_dot e = true ->
  title_of (t +:+ "." +:+ e) = Some t.
Proof.
  intros Hne Hp He. unfold title_of. rewrite stem_of_name by assumption.
  cbn [option_map]. rewrite drop_last_one. reflexivity.
Qed.

Lemma star_greedy_all p : forall (e : string) prev,
  all_chars p e = true ->
  Re.star_greedy p prev e (fun _ rest => Some rest) = Some EmptyString.
Proof.
  induction e as [|c e IH]; intros prev H; [reflexivity|].
  cbn [all_chars] in H. apply andb_true_iff in H as [Hc He].
  cbn [Re.star_greedy]. rewrite Hc, IH by exact He. reflexivity.
Qed.

Lemma dot_word_unmatched (s : string) :
  first_dot s = false -> unmatched Pat.dot_word s.
Proof.
  intros H prev. unfold Re.match_here, Pat.dot_word, Re.Lit.
  cbn [Re.exec Re.exactly]. destruct s as [|c s]; [reflexivity|].
  cbn [first_dot] in H. unfold is_dot in H. rewrite H. reflexivity.
Qed.

Lemma extension_of_name (t e : string) :
  no_dot t = true -> nonempty e = true -> all_chars Re.is_word e = true ->
  extension_of (t +:+ "." +:+ e) = Some e.
Proof.
  intros Ht Hne He. unfold extension_of.
  pose proof (first_match_at Pat.dot_word t ("." +:+ e) EmptyString) as H.
  rewrite !sapp_nil_r in H. rewrite H; [reflexivity| |].
  - intros n Hn. apply dot_word_unmatched. rewrite drop_app_le by lia.
    pose proof (all_chars_drop _ n t Ht) as Hd. pose proof (drop_length n t) as Hl.
    destruct (Str.drop n t) as [|c u]; [cbn in Hl; lia|].
    cbn [String.append first_dot]. cbn [all_chars] in Hd.
    apply andb_true_iff in Hd as [Hc _]. apply negb_true_iff in Hc. exact Hc.
  - destruct e as [|c e]; [discriminate|].
    cbn [all_chars] in He. apply andb_true_iff in He as [Hc He].
    unfold Re.match_here, Pat.dot_word, Re.Lit.
    cbn [String.append Re.exec Re.exactly]. rewrite Ascii.eqb_refl, Hc.
    apply star_greedy_all. exact He.
Qed.

Lemma sep_title_unmatched (s : string) :
  starts_sep s = false -> unmatched Pat.sep_title_dot s.
Proof.
  intros H prev. unfold Re.match_here, Pat.sep_title_dot.
  cbn [Re.exec]. apply exec_separator_none. exact H.
Qed.

Lemma ref_title_of_name (a t e : string) :
  has_separator (a +:+ " -") = false ->
  nonempty t = true -> plain t = true -> no_dot e = true ->
  ref_title_of (a +:+ " - " +:+ t +:+ "." +:+ e) = Some t.
Proof.
  intros Ha Hne Hp He. unfold ref_title_of.
  pose proof (first_match_at Pat.sep_title_dot a (" - " +:+ t +:+ ".") e) as H.
  replace (a +:+ (" - " +:+ t +:+ ".") +:+ e)
    with (a +:+ " - " +:+ t +:+ "." +:+ e) in H
    by (rewrite !sapp_assoc; reflexivity).
  rewrite H.
  - cbn [option_map String.append Str.drop]. rewrite drop_last_one. reflexivity.
  - intros n Hn. apply sep_title_unmatched. rewrite drop_app_le by lia.
    pose proof (drop_length n a) as Hl.
    destruct (Str.drop n a) as [|c u] eqn:Hd; [cbn in Hl; lia|].
    rewrite starts_sep_head. rewrite <- Hd, <- drop_app_le by lia.
    pose proof (has_separator_drop n _ Ha) as Hs.
    destruct (Str.drop n (a +:+ " -")) as [|d v]; [reflexivity|].
    apply has_separator_cons in Hs as [Hs _]. exact Hs.
  - unfold Re.match_here, Pat.sep_title_dot. cbn [Re.exec].
    rewrite exec_separator. rewrite !sapp_assoc. cbn [String.append starts_sep].
    change (Re.is_space " ") with true. change (Ascii.eqb "-" "-") with true.
    cbn [andb].
    apply (upto_match "." eq_refl t e (Some " "%char) Hne Hp He).
Qed.

End RestoreAuthors.

(** X20: [restoreAuthors] on the one book [Title.ext], the second directory
    holding the one name [Authors - Title.ext2]: the book is given the name
    [Authors - Title.ext], the name of the reference up to its last dot, then
    the extension of the book.  The rename is recorded in the dictionary, one
    file is counted, and the line that reports missing author data is
    printed all the same.  This needs: a line of input for the path; a book
    name that holds [.epub], [.mobi] or [.pdf] when lowered, as the function
    tests; authors without line feed and without separator; a title that is
    not empty and holds no line feed and no dot; an extension of the book
    that is not empty and made of word characters; an extension of the
    reference without dot; the book a file of the directory and the new name
    not. *)
Theorem restoreAuthors_gives_reference_name
    (path a t e1 e2 : string) (w : World) (path2 : string)
    (rest : list string) :
  stdin w = path2 :: rest ->
  plain a = true -> has_separator (a +:+ " -") = false ->
  nonempty t = true -> plain t = true -> no_dot t = true ->
  nonempty e1 = true -> all_chars Re.is_word e1 = true ->
  no_dot e2 = true ->
  Pat.book_ext (t +:+ "." +:+ e1) = true ->
  (t +:+ "." +:+ e1) ∈ fs w ->
  (a +:+ " - " +:+ t +:+ "." +:+ e1) ∉ fs w ->
  restoreAuthors path [t +:+ "." +:+ e1] [a +:+ " - " +:+ t +:+ "." +:+ e2] w
  = (mkWorld
       ({[ a +:+ " - " +:+ t +:+ "." +:+ e1 ]} ∪ (fs w ∖ {[ t +:+ "." +:+ e1 ]}))
       [(a +:+ " - " +:+ t +:+ "." +:+ e1, t +:+ "." +:+ e1)]
       (stdout w
        ++ ["Enter path to other directory with books to compare: ";
            (t +:+ "." +:+ e1) +:+ " changed to "
              +:+ (a +:+ " - " +:+ t +:+ "." +:+ e1);
            "Author(s) data not found for " +:+ (t +:+ "." +:+ e1);
            nl +:+ "Process finished. Author(s) data restored to 1 filenames."])
       rest
       (renames w
        ++ [RenameCall (t +:+ "." +:+ e1) (a +:+ " - " +:+ t +:+ "." +:+ e1)
              None]),
     Ok tt).
Proof.
  intros Hin Hpa Hsa Hnt Hpt Hdt Hne1 Hw1 Hd2 Hext Hold Hnew.
  set (new := a +:+ " - " +:+ t +:+ "." +:+ e1) in *.
  set (old := t +:+ "." +:+ e1) in *.
  assert (Ht1 : title_of old = Some t)
    by (apply title_of_name; auto using word_no_dot).
  assert (Hx1 : extension_of old = Some e1)
    by (apply extension_of_name; assumption).
  assert (Ht2 : ref_title_of (a +:+ " - " +:+ t +:+ "." +:+ e2) = Some t)
    by (apply ref_title_of_name; assumption).
  assert (Hstem : Re.first_match Pat.upto_dot
                    (a +:+ " - " +:+ t +:+ "." +:+ e2)
                  = Some (a +:+ " - " +:+ t +:+ ".")).
  { pose proof (stem_of_name (a +:+ " - " +:+ t) e2) as H.
    rewrite !sapp_assoc in H. apply H; [|  |exact Hd2].
    - destruct a; reflexivity.
    - unfold plain in *. rewrite !all_chars_app, Hpa, Hpt. reflexivity. }
  assert (Hr : rename_outcome (fs w) old new
               = Ok ({[ new ]} ∪ (fs w ∖ {[ old ]}))).
  { unfold rename_outcome.
    destruct (decide (old ∈ fs w)); [|contradiction].
    destruct (decide (new = old)) as [He|_]; [rewrite He in Hnew; contradiction|].
    destruct (decide (new ∈ fs w)); [contradiction|].
    destruct (decide (new = EmptyString)) as [He|_]; [|reflexivity].
    exfalso. unfold new in He. destruct a; discriminate He. }
  unfold restoreAuthors.
  unfold bind at 1, undo_clear at 1.
  unfold bind at 1, input at 1. cbn [fs undo stdout stdin renames].
  rewrite Hin. unfold bind at 1. cbn [for_fold].
  unfold bind at 1. unfold bind at 1.
  cbn [restoreAuthors_inner]. rewrite Hext, Ht2, Ht1.
  unfold bind at 1, lift at 1, first at 1. rewrite String.eqb_refl.
  unfold bind at 1, lift at 1. rewrite Hstem. unfold first at 1.
  unfold bind at 1, lift at 1. rewrite Hx1. unfold first at 1.
  replace ((a +:+ " - " +:+ t +:+ ".") +:+ e1) with new
    by (unfold new; rewrite !sapp_assoc; reflexivity).
  unfold bind at 1, os_rename at 1. cbn [fs undo stdout stdin renames].
  rewrite Hr.
  unfold bind, undo_set, print, ret. cbn [fs undo stdout stdin renames].
  cbn [Dict.set snd]. rewrite <- !app_assoc. reflexivity.
Qed.

Lemma restoreAuthors_gives_reference_name_witness :
  restoreAuthors books_dir ["Code" +:+ "." +:+ "epub"]
    ["Petzold, Charles" +:+ " - " +:+ "Code" +:+ "." +:+ "pdf"]
    (session ["Code.epub"] ["D:\reference\"])
  = (mkWorld
       ({[ "Petzold, Charles - Code.epub" ]}
        ∪ (list_to_set ["Code.epub"] ∖ {[ "Code.epub" ]}))
       [("Petzold, Charles - Code.epub", "Code.epub")]
       ["Enter path to other directory with books to compare: ";
        "Code.epub changed to Petzold, Charles - Code.epub";
        "Author(s) data not found for Code.epub";
        nl +:+ "Process finished. Author(s) data restored to 1 filenames."]
       []
       [RenameCall "Code.epub" "Petzold, Charles - Code.epub" None],
     Ok tt).
Proof.
  apply (restoreAuthors_gives_reference_name books_dir "Petzold, Charles"
           "Code" "epub" "pdf" (session ["Code.epub"] ["D:\reference\"])
           "D:\reference\" []); try reflexivity.
  vm_compute. discriminate.
Defined.

(** ** Listing the books *)

Section Listing.

Lemma any_ext_exec ext prev c (s : string) :
  Re.exec (any_ext ext) prev (String c s)
    (fun _ rest => if at_end rest then Some tt else None)
  = if Re.dot c && Str.startswith ext s
       && at_end (Str.drop (String.length ext) s)
    then Some tt else None.
Proof.
  unfold any_ext. cbn [Re.exec Re.exactly].
  destruct (Re.dot c); [|reflexivity]. rewrite exec_lits.
  destruct (Str.startswith ext s); reflexivity.
Qed.

Lemma any_ext_exec_nil ext prev :
  Re.exec (any_ext ext) prev EmptyString
    (fun _ rest => if at_end rest then Some tt else None) = None.
Proof. reflexivity. Qed.

Lemma found_at_end_ext ext : forall (book : string) prev,
  found_at_end_from (any_ext ext) prev book = true <-> ends_with_ext ext book.
Proof.
  induction book as [|c book IH]; intros prev.
  - cbn [found_at_end_from]. rewrite any_ext_exec_nil. split; [discriminate|].
    intros (stem & x & tail & He & _). destruct stem; discriminate.
  - cbn [found_at_end_from]. rewrite any_ext_exec.
    destruct (Re.dot c && Str.startswith ext book
              && at_end (Str.drop (String.length ext) book)) eqn:Hh.
    + split; [|reflexivity]. intros _.
      apply andb_true_iff in Hh as [Hh Hend].
      apply andb_true_iff in Hh as [Hc Hs].
      exists EmptyString, c, (Str.drop (String.length ext) book).
      repeat split; [|exact Hc|exact Hend].
      cbn [String.append]. f_equal. apply startswith_inv. exact Hs.
    + rewrite IH. split.
      * intros (stem & x & tail & He & Hx & Ht).
        exists (String c stem), x, tail. rewrite He. auto.
      * intros (stem & x & tail & He & Hx & Ht).
        destruct stem as [|d stem].
        -- exfalso. cbn [String.append] in He. injection He as -> ->.
           rewrite Hx, startswith_app, drop_app, Ht in Hh. discriminate.
        -- cbn [String.append] in He. injection He as _ ->.
           exists stem, x, tail. auto.
Qed.

Lemma list_remove_head_absent book : forall kept rest,
  ~ In book kept ->
  list_remove book (kept ++ book :: rest) = Some (kept ++ rest)%list.
Proof.
  induction kept as [|x kept IH]; intros rest Hnin.
  - simpl. rewrite String.eqb_refl. reflexivity.
  - cbn [app list_remove]. destruct (String.eqb_spec x book) as [->|Hne].
    + exfalso. apply Hnin. left. reflexivity.
    + rewrite IH; [reflexivity|]. intros H. apply Hnin. right. exact H.
Qed.

Lemma getBooks_loop_filter : forall copy kept,
  Forall (fun b => listed b = true) kept ->
  getBooks_loop copy (kept ++ copy)
  = Some (kept ++ List.filter listed copy)%list.
Proof.
  induction copy as [|book copy IH]; intros kept Hk.
  - reflexivity.
  - cbn [getBooks_loop List.filter]. destruct (listed book) eqn:Hb.
    + replace (kept ++ book :: copy)%list with ((kept ++ [book]) ++ copy)%list
        by (rewrite <- app_assoc; reflexivity).
      rewrite IH.
      * rewrite <- app_assoc. reflexivity.
      * apply Forall_app. split; [exact Hk|]. constructor; [exact Hb|constructor].
    + rewrite list_remove_head_absent.
      * apply IH. exact Hk.
      * intros Hin. apply list_elem_of_In in Hin.
        rewrite Forall_forall in Hk. specialize (Hk _ Hin). congruence.
Qed.

End Listing.

(** X21: [getBooks] keeps the names of the listing that pass its test, in the
    order of the listing, and [books.remove] never fails, also when a name
    is listed twice. *)
Theorem getBooks_filters_listing (listing : list string) :
  getBooks listing = Some (List.filter listed listing).
Proof. apply (getBooks_loop_filter listing []). constructor. Qed.

(** X22: a name passes the test of [getBooks] exactly when it ends with a
    character and one of pdf, azw, epub, mobi (and possibly a line feed after
    them).  The character in front of the extension is any but a line feed:
    the dot of the patterns is not escaped, so the name need not hold a dot. *)
Theorem getBooks_test_ignores_dot (book : string) :
  listed book = true
  <-> ends_with_ext "pdf" book \/ ends_with_ext "azw" book
      \/ ends_with_ext "epub" book \/ ends_with_ext "mobi" book.
Proof.
  unfold listed, found_at_end. rewrite !orb_true_iff, !found_at_end_ext.
  tauto.
Qed.

(** ** Keeping the authors: [renameBook] on well-formed names *)

Section KeepAuthors.

(** What follows the last occurrence of a character is determined. *)
Lemma last_unique (x : ascii) : forall (u v u' v' : string),
  all_chars (fun c => negb (Ascii.eqb x c)) v = true ->
  all_chars (fun c => negb (Ascii.eqb x c)) v' = true ->
  u +:+ String x v = u' +:+ String x v' -> u = u' /\ v = v'.
Proof.
  induction u as [|c u IH]; intros v u' v' Hv Hv' He.
  - destruct u' as [|c' u']; cbn [String.append] in He.
    + injection He as ->. auto.
    + injection He as <- ->. rewrite all_chars_app in Hv.
      cbn [all_chars] in Hv. rewrite Ascii.eqb_refl in Hv.
      rewrite andb_false_r in Hv. discriminate.
  - destruct u' as [|c' u']; cbn [String.append] in He.
    + injection He as -> <-. rewrite all_chars_app in Hv'.
      cbn [all_chars] in Hv'. rewrite Ascii.eqb_refl in Hv'.
      rewrite andb_false_r in Hv'. discriminate.
    + injection He as <- He. destruct (IH _ _ _ Hv Hv' He) as [-> ->]. auto.
Qed.

Lemma endswith_other_article (a a' body : string) :
  no_comma a = true -> no_comma a' = true -> a' <> a ->
  endswith (", " +:+ a') (body +:+ ", " +:+ a) = false.
Proof.
  intros Ha Ha' Hne.
  destruct (endswith (", " +:+ a') (body +:+ ", " +:+ a)) eqn:He;
    [|reflexivity].
  exfalso. apply endswith_inv in He as [u He].
  cbn [String.append] in He.
  apply (last_unique "," body (String " " a) u (String " " a')) in He
    as [_ He]; [injection He as He; congruence| |].
  - cbn [all_chars]. exact Ha.
  - cbn [all_chars]. exact Ha'.
Qed.

Lemma article_facts (art : string) (w : nat) :
  In (art, w) articles ->
  no_comma art = true /\ no_dot art = true /\ w = (String.length art + 8)%nat.
Proof.
  intros Hin.
  assert (H : forallb (fun p => no_comma (fst p) && no_dot (fst p)
                        && (snd p =? String.length (fst p) + 8)%nat)
                articles = true) by reflexivity.
  rewrite forallb_forall in H. specialize (H _ Hin). cbn [fst snd] in H.
  apply andb_true_iff in H as [H H3]. apply andb_true_iff in H as [H1 H2].
  apply Nat.eqb_eq in H3. auto.
Qed.

Lemma renameBook_from_article (book art : string) : forall arts,
  (forall a' w', In (a', w') arts -> a' <> art ->
                 has_article a' w' book = false) ->
  (forall w, In (art, w) arts -> has_article art w book = true) ->
  In art (map fst arts) ->
  renameBook_from arts book = put_article art (drop_article_subtitle art book).
Proof.
  induction arts as [|[a' w'] arts IH]; intros Hother Hart Hin; [contradiction|].
  cbn [renameBook_from]. destruct (String.eqb_spec a' art) as [->|Hne].
  - rewrite (Hart w') by (left; reflexivity). reflexivity.
  - rewrite (Hother a' w') by (auto; left; reflexivity).
    apply IH.
    + intros a'' w'' H. apply Hother. right. exact H.
    + intros w H. apply Hart. right. exact H.
    + destruct Hin as [H|H]; [contradiction|exact H].
Qed.

Lemma renameBook_from_plain (book : string) : forall arts,
  (forall a' w', In (a', w') arts -> has_article a' w' book = false) ->
  renameBook_from arts book = Re.sub_count Pat.pattern2 EmptyString book 1.
Proof.
  induction arts as [|[a' w'] arts IH]; intros Hnone; [reflexivity|].
  cbn [renameBook_from]. rewrite (Hnone a' w') by (left; reflexivity).
  apply IH. intros a'' w'' H. apply Hnone. right. exact H.
Qed.

Lemma starts_sep_in_authors (a rest : string) (n : nat) :
  has_separator (a +:+ " -") = false -> (n < String.length a)%nat ->
  starts_sep (Str.drop n (a +:+ " - " +:+ rest)) = false.
Proof.
  intros Ha Hn. rewrite drop_app_le by lia.
  pose proof (drop_length n a) as Hl.
  destruct (Str.drop n a) as [|c u] eqn:Hd; [cbn in Hl; lia|].
  rewrite starts_sep_head. rewrite <- Hd, <- drop_app_le by lia.
  pose proof (has_separator_drop n _ Ha) as Hs.
  destruct (Str.drop n (a +:+ " -")) as [|d v]; [reflexivity|].
  apply has_separator_cons in Hs as [Hs _]. exact Hs.
Qed.

Lemma separator_unmatched (s : string) :
  starts_sep s = false -> unmatched Pat.separator s.
Proof.
  intros H prev. unfold Re.match_here. apply exec_separator_none. exact H.
Qed.

(** The article goes behind the first separator. *)
Lemma put_article_first (art a rest : string) :
  has_separator (a +:+ " -") = false ->
  put_article art (a +:+ " - " +:+ rest)
  = a +:+ " - " +:+ art +:+ " " +:+ rest.
Proof.
  intros Ha. unfold put_article, Re.sub_count. rewrite sub_go_prefix.
  - f_equal.
    change (" - " +:+ rest) with (String " " "- " +:+ rest).
    rewrite sub_go_match; [| |discriminate].
    + cbn [option_map Nat.pred]. rewrite sub_go_done.
      rewrite !sapp_assoc. reflexivity.
    + unfold Re.match_here. rewrite exec_separator. reflexivity.
  - intros n Hn. apply separator_unmatched.
    apply starts_sep_in_authors; assumption.
Qed.

Variable n : book_name.
Hypothesis Hwf : well_formed_with_authors n = true.

Lemma wfa_parts :
  (nonempty (authors n) = true /\ plain (authors n) = true
   /\ no_dot (authors n) = true
   /\ has_separator (authors n +:+ " -") = false
   /\ has_marker (authors n +:+ " - " +:+ title n +:+ " ") = false)
  /\ (nonempty (title n) = true /\ plain (title n) = true
      /\ no_dot (title n) = true)
  /\ on_option (fun s => nonempty s && plain s && no_dot s) (subtitle n) = true
  /\ on_option (fun a => existsb (String.eqb a) (map fst articles))
       (article n) = true
  /\ one_of ["pdf"; "azw"; "epub"; "mobi"] (ext n) = true
  /\ match article n with
     | None =>
         forallb (fun p => negb (endswith (", " +:+ fst p)
                                   (authors n +:+ " - " +:+ stem n)))
                 articles
     | Some _ => true
     end = true.
Proof.
  unfold well_formed_with_authors in Hwf.
  repeat (apply andb_true_iff in Hwf; destruct Hwf as [Hwf ?]).
  repeat match goal with
         | H : negb _ = true |- _ => apply negb_true_iff in H
         end.
  repeat split; assumption.
Qed.

(** Authors, separator, title and subtitle: the part in front of the
    article. *)
Lemma front_facts :
  nonempty (authors n +:+ " - " +:+ stem n) = true
  /\ plain (authors n +:+ " - " +:+ stem n) = true
  /\ no_dot (authors n +:+ " - " +:+ stem n) = true.
Proof.
  destruct wfa_parts as ((Ha1 & Ha2 & Ha3 & _) & (Ht1 & Ht2 & Ht3) & Hsub & _).
  assert (Hstem : plain (stem n) = true /\ no_dot (stem n) = true).
  { unfold stem, subtitle_part. destruct (subtitle n) as [s|]; cbn in Hsub.
    - apply andb_true_iff in Hsub as [Hsub Hs3].
      apply andb_true_iff in Hsub as [Hs1 Hs2].
      unfold plain, no_dot in *. rewrite !all_chars_app, Ht2, Ht3, Hs2, Hs3.
      split; reflexivity.
    - rewrite sapp_nil_r. auto. }
  destruct Hstem as [Hs2 Hs3].
  unfold plain, no_dot in *. rewrite !all_chars_app, Ha2, Ha3, Hs2, Hs3.
  repeat split; try reflexivity.
  destruct (authors n); [discriminate|reflexivity].
Qed.

(** The subtitle pattern takes the subtitle, if there is one, and nothing
    else. *)
Lemma strip_subtitle_with_authors :
  Re.sub_count Pat.pattern2 EmptyString
    (authors n +:+ " - " +:+ stem n +:+ "." +:+ ext n) 1
  = authors n +:+ " - " +:+ title n +:+ "." +:+ ext n.
Proof.
  destruct wfa_parts as ((_ & _ & _ & _ & Hm) & _ & Hsub & _ & Hext & _).
  destruct (known_ext _ Hext) as (He1 & He2 & He3 & He4 & He5 & He6 & He7).
  unfold stem, subtitle_part. destruct (subtitle n) as [s|]; cbn in Hsub.
  - apply andb_true_iff in Hsub as [Hsub Hs3].
    apply andb_true_iff in Hsub as [Hs1 Hs2].
    pose proof (remove_subtitle (authors n +:+ " - " +:+ title n) s (ext n))
      as H.
    rewrite !sapp_assoc in *. apply H; assumption.
  - rewrite sapp_nil_r.
    pose proof (has_marker_app (authors n +:+ " - " +:+ title n)
                  ("." +:+ ext n)) as H.
    rewrite !sapp_assoc in *. apply keep_without_marker. apply H; assumption.
Qed.

Lemma renameBook_rendered : renameBook (render n) = without_subtitle n.
Proof.
  destruct wfa_parts
    as ((Ha1 & Ha2 & Ha3 & Hsep & Hm) & _ & _ & Hart & Hext & Htail).
  destruct (known_ext _ Hext) as (He1 & He2 & He3 & He4 & He5 & He6 & He7).
  destruct front_facts as (Hf1 & Hf2 & Hf3).
  unfold renameBook, render, without_subtitle, out_title, article_part.
  destruct (article n) as [a|].
  - cbn [on_option] in Hart. apply existsb_exists in Hart as [a' [Hin He]].
    apply String.eqb_eq in He. subst a'.
    assert (Hbook : authors n +:+ " - " +:+ stem n +:+ (", " +:+ a)
                      +:+ "." +:+ ext n
                    = (authors n +:+ " - " +:+ stem n) +:+ ", " +:+ a
                        +:+ "." +:+ ext n)
      by (rewrite !sapp_assoc; reflexivity).
    rewrite Hbook.
    assert (Ha : no_comma a = true /\ no_dot a = true).
    { apply in_map_iff in Hin as [[a0 w0] [He Hin]]. cbn in He. subst a0.
      destruct (article_facts _ _ Hin) as (H1 & H2 & _). auto. }
    destruct Ha as [Hac Had].
    rewrite (renameBook_from_article _ a).
    + unfold drop_article_subtitle.
      rewrite remove_article_dot by assumption.
      rewrite !sapp_assoc, strip_subtitle_with_authors.
      rewrite put_article_first by exact Hsep.
      rewrite ?sapp_assoc. reflexivity.
    + intros a' w' Hin' Hne.
      destruct (article_facts _ _ Hin') as (H1 & H2 & _).
      replace ((authors n +:+ " - " +:+ stem n) +:+ ", " +:+ a
               +:+ "." +:+ ext n)
        with (((authors n +:+ " - " +:+ stem n) +:+ ", " +:+ a)
              +:+ "." +:+ ext n)
        by (rewrite !sapp_assoc; reflexivity).
      apply has_article_false; [|exact He2|].
      * unfold no_dot in *. rewrite !all_chars_app in *.
        rewrite Had. cbn [all_chars]. 
        apply andb_true_iff in Hf3 as [Hx Hy]. rewrite Hx.
        apply andb_true_iff in Hy as [Hy Hz]. rewrite Hz. reflexivity.
      * apply endswith_other_article; assumption.
    + intros w Hin'. destruct (article_facts _ _ Hin') as (_ & _ & Hw).
      apply has_article_true; [exact Hf1|exact Hf2|lia].
    + exact Hin.
  - change (authors n +:+ " - " +:+ stem n +:+ EmptyString +:+ "." +:+ ext n)
      with (authors n +:+ " - " +:+ stem n +:+ "." +:+ ext n).
    rewrite renameBook_from_plain.
    + apply strip_subtitle_with_authors.
    + intros a' w' Hin'. rewrite forallb_forall in Htail.
      specialize (Htail _ Hin'). cbn [fst] in Htail.
      apply negb_true_iff in Htail.
      replace (authors n +:+ " - " +:+ stem n +:+ "." +:+ ext n)
        with ((authors n +:+ " - " +:+ stem n) +:+ "." +:+ ext n)
        by (rewrite !sapp_assoc; reflexivity).
      apply has_article_false; assumption.
Qed.

End KeepAuthors.

(** X23: on a file name [Authors - Title[_ Subtitle][, Article].ext] whose
    segments are unambiguous ([well_formed_with_authors]), with any of the 21
    articles of the cascade, [renameBook] returns
    [Authors - [Article ]Title.ext]: the subtitle is gone, the article
    stands in front of the title, the authors are kept. *)
Theorem renameBook_keeps_authors (n : book_name) :
  well_formed_with_authors n = true ->
  renameBook (render n) = without_subtitle n.
Proof. apply renameBook_rendered. Qed.

Lemma renameBook_keeps_authors_witness :
  renameBook "Camus, Albert - Etranger_ Roman, L'.epub"
  = "Camus, Albert - L' Etranger.epub".
Proof.
  apply (renameBook_keeps_authors
           (mkName "Camus, Albert" "Etranger" (Some "Roman") (Some "L'")
                   "epub")).
  reflexivity.
Defined.

Section WithAuthorsRun.

Lemma no_occurrence_behind_dot (old front e : string) :
  no_dot front = true -> no_dot e = true ->
  Str.startswith old ("." +:+ e) = false ->
  first_dot old = true ->
  Str.contains old (front +:+ "." +:+ e) = false.
Proof.
  intros Hf He Hs Hold.
  destruct (Str.contains old (front +:+ "." +:+ e)) eqn:Hc; [|reflexivity].
  exfalso. apply contains_startswith in Hc as [i Hi].
  destruct old as [|c o]; [discriminate|].
  cbn [first_dot] in Hold. unfold is_dot in Hold.
  apply Ascii.eqb_eq in Hold. subst c.
  pose proof (startswith_inv _ _ Hi) as Hd.
  set (rest := Str.drop (String.length (String "." o))
                 (Str.drop i (front +:+ "." +:+ e))) in Hd.
  pose proof (take_drop i (front +:+ "." +:+ e)) as Htd.
  rewrite Hd in Htd. cbn [String.append] in Htd.
  symmetry in Htd.
  apply (dot_unique front (Str.take i (front +:+ "." +:+ e)) e) in Htd
    as [_ Htd]; [| exact Hf | exact He].
  pose proof (startswith_app (String "." o) rest) as Hs'.
  cbn [String.append] in Hs'. rewrite <- Htd in Hs'.
  cbn [String.append] in Hs. congruence.
Qed.

Variable n : book_name.
Hypothesis Hwf : well_formed_with_authors n = true.

Lemma rendered_no_kepub : Str.contains ".kepub" (render n) = false.
Proof.
  destruct (wfa_parts n Hwf) as (_ & _ & _ & Hart & Hext & _).
  destruct (known_ext _ Hext) as (_ & He2 & _).
  destruct (front_facts n Hwf) as (_ & _ & Hf3).
  unfold render.
  replace (authors n +:+ " - " +:+ stem n +:+ article_part n +:+ "." +:+ ext n)
    with (((authors n +:+ " - " +:+ stem n) +:+ article_part n)
          +:+ "." +:+ ext n)
    by (rewrite !sapp_assoc; reflexivity).
  apply no_occurrence_behind_dot; [|exact He2| |reflexivity].
  - unfold no_dot in *. rewrite all_chars_app, Hf3. cbn [andb].
    unfold article_part. destruct (article n) as [a|]; [|reflexivity].
    cbn [on_option] in Hart. apply existsb_exists in Hart as [a' [Hin He]].
    apply String.eqb_eq in He. subst a'.
    apply in_map_iff in Hin as [[a0 w0] [He Hin]]. cbn in He. subst a0.
    destruct (article_facts _ _ Hin) as (_ & H & _).
    rewrite all_chars_app. cbn [all_chars]. exact H.
  - unfold one_of in Hext. cbn [existsb] in Hext.
    rewrite !orb_true_iff, !String.eqb_eq in Hext.
    destruct Hext as [->|[->|[->|[->|H]]]]; [| | | |discriminate]; reflexivity.
Qed.

Lemma without_subtitle_last :
  last_is "_" (without_subtitle n) = Ok false.
Proof.
  destruct (wfa_parts n Hwf) as (_ & _ & _ & _ & Hext & _).
  destruct (known_ext _ Hext) as (_ & _ & _ & _ & _ & _ & He7).
  unfold without_subtitle.
  replace (authors n +:+ " - " +:+ out_title n +:+ "." +:+ ext n)
    with ((authors n +:+ " - " +:+ out_title n) +:+ "." +:+ ext n)
    by (rewrite !sapp_assoc; reflexivity).
  apply He7.
Qed.

End WithAuthorsRun.

(** X24: [withAuthors] on one well-formed book that is a file of the
    directory, when the new name is free: the book is renamed to
    [Authors - [Article ]Title.ext], the rename is recorded in the
    dictionary and reported, and one file is counted. *)
Theorem withAuthors_renames_well_formed
    (path : string) (n : book_name) (w : World) :
  well_formed_with_authors n = true ->
  render n ∈ fs w -> without_subtitle n ∉ fs w ->
  withAuthors path [render n] w
  = (mkWorld ({[ without_subtitle n ]} ∪ (fs w ∖ {[ render n ]}))
       [(without_subtitle n, render n)]
       (stdout w
        ++ [render n +:+ " changed to " +:+ without_subtitle n;
            nl +:+ "Process finished. 1 filenames renamed with subtitles removed and authors retained."])
       (stdin w)
       (renames w ++ [RenameCall (render n) (without_subtitle n) None]),
     Ok tt).
Proof.
  intros Hwf Hold Hnew.
  assert (Hne : without_subtitle n <> EmptyString).
  { destruct (wfa_parts n Hwf) as ((Ha1 & _) & _).
    unfold without_subtitle. destruct (authors n); discriminate. }
  assert (Hr : rename_outcome (fs w) (render n) (without_subtitle n)
               = Ok ({[ without_subtitle n ]} ∪ (fs w ∖ {[ render n ]}))).
  { unfold rename_outcome.
    destruct (decide (render n ∈ fs w)); [|contradiction].
    destruct (decide (without_subtitle n = render n)) as [He|_];
      [rewrite He in Hnew; contradiction|].
    destruct (decide (without_subtitle n ∈ fs w)); [contradiction|].
    destruct (decide (without_subtitle n = EmptyString)); [contradiction|].
    reflexivity. }
  unfold withAuthors. cbn [to_rename_of Dict.set].
  rewrite (rendered_no_kepub n Hwf), (renameBook_rendered n Hwf).
  unfold bind at 1, undo_clear at 1.
  unfold bind at 1. cbn [for_each length].
  unfold bind at 1. unfold bind at 1, lift at 1.
  rewrite (without_subtitle_last n Hwf).
  unfold bind at 1, undo_set at 1. cbn [fs undo stdout stdin renames Dict.set].
  unfold try_except, bind at 1, os_rename at 1.
  cbn [fs undo stdout stdin renames]. rewrite Hr.
  unfold print, ret. cbn [fs undo stdout stdin renames].
  rewrite <- !app_assoc. reflexivity.
Qed.

Lemma withAuthors_renames_well_formed_witness :
  withAuthors books_dir
    [render (mkName "Camus, Albert" "Etranger" (Some "Roman") (Some "L'")
               "epub")]
    (session ["Camus, Albert - Etranger_ Roman, L'.epub"; "cover.jpg"] [])
  = (mkWorld
       ({[ "Camus, Albert - L' Etranger.epub" ]}
        ∪ (list_to_set ["Camus, Albert - Etranger_ Roman, L'.epub"; "cover.jpg"]
           ∖ {[ "Camus, Albert - Etranger_ Roman, L'.epub" ]}))
       [("Camus, Albert - L' Etranger.epub",
         "Camus, Albert - Etranger_ Roman, L'.epub")]
       ["Camus, Albert - Etranger_ Roman, L'.epub changed to Camus, Albert - L' Etranger.epub";
        nl +:+ "Process finished. 1 filenames renamed with subtitles removed and authors retained."]
       []
       [RenameCall "Camus, Albert - Etranger_ Roman, L'.epub"
          "Camus, Albert - L' Etranger.epub" None],
     Ok tt).
Proof.
  apply (withAuthors_renames_well_formed books_dir
           (mkName "Camus, Albert" "Etranger" (Some "Roman") (Some "L'")
                   "epub")
           (session ["Camus, Albert - Etranger_ Roman, L'.epub"; "cover.jpg"]
                    [])).
  - reflexivity.
  - reflexivity.
  - vm_compute. discriminate.
Defined.

Section Kepub.

Lemma replace_go_no_dot (old new : string) :
  first_dot old = true ->
  forall front rest : string,
    no_dot front = true ->
    Str.replace_go old new None 0 (front +:+ rest)
    = front +:+ Str.replace_go old new None 0 rest.
Proof.
  intros Hold. destruct old as [|d o]; [discriminate|].
  cbn [first_dot] in Hold. unfold is_dot in Hold.
  apply Ascii.eqb_eq in Hold. subst d.
  induction front as [|c front IH]; intros rest Hf; [reflexivity|].
  unfold no_dot in Hf. cbn [all_chars] in Hf.
  apply andb_true_iff in Hf as [Hc Hf]. apply negb_true_iff in Hc.
  unfold is_dot in Hc.
  cbn [String.append Str.replace_go Str.startswith]. rewrite Hc.
  cbn [andb]. f_equal. apply IH. exact Hf.
Qed.

Variable n : book_name.
Hypothesis Hwf : well_formed_with_authors n = true.
Hypothesis Hepub : ext n = "epub".

Lemma front_no_dot :
  no_dot (authors n +:+ " - " +:+ stem n +:+ article_part n) = true.
Proof.
  destruct (wfa_parts n Hwf) as (_ & _ & _ & Hart & _).
  destruct (front_facts n Hwf) as (_ & _ & Hf3).
  replace (authors n +:+ " - " +:+ stem n +:+ article_part n)
    with ((authors n +:+ " - " +:+ stem n) +:+ article_part n)
    by (rewrite !sapp_assoc; reflexivity).
  unfold no_dot in *. rewrite all_chars_app, Hf3. cbn [andb].
  unfold article_part. destruct (article n) as [a|]; [|reflexivity].
  cbn [on_option] in Hart. apply existsb_exists in Hart as [a' [Hin He]].
  apply String.eqb_eq in He. subst a'.
  apply in_map_iff in Hin as [[a0 w0] [He Hin]]. cbn in He. subst a0.
  destruct (article_facts _ _ Hin) as (_ & H & _).
  rewrite all_chars_app. cbn [all_chars]. exact H.
Qed.

Lemma out_front_no_dot :
  no_dot (authors n +:+ " - " +:+ out_title n) = true.
Proof.
  destruct (wfa_parts n Hwf)
    as ((_ & _ & Ha3 & _) & (_ & _ & Ht3) & _ & Hart & _).
  unfold no_dot in *. rewrite !all_chars_app, Ha3. cbn [all_chars andb].
  unfold out_title. destruct (article n) as [a|]; [|exact Ht3].
  cbn [on_option] in Hart. apply existsb_exists in Hart as [a' [Hin He]].
  apply String.eqb_eq in He. subst a'.
  apply in_map_iff in Hin as [[a0 w0] [He Hin]]. cbn in He. subst a0.
  destruct (article_facts _ _ Hin) as (_ & H & _). unfold no_dot in H.
  rewrite !all_chars_app, H, Ht3. reflexivity.
Qed.

Lemma kepub_entry :
  to_rename_of [render_kepub n] []
  = [(render_kepub n,
      authors n +:+ " - " +:+ out_title n +:+ ".kepub.epub")].
Proof.
  pose proof front_no_dot as Hf. pose proof out_front_no_dot as Ho.
  cbn [to_rename_of Dict.set].
  assert (Hc : Str.contains ".kepub" (render_kepub n) = true).
  { apply contains_startswith.
    exists (String.length (authors n +:+ " - " +:+ stem n +:+ article_part n)).
    unfold render_kepub.
    replace (authors n +:+ " - " +:+ stem n +:+ article_part n
             +:+ ".kepub.epub")
      with ((authors n +:+ " - " +:+ stem n +:+ article_part n)
            +:+ ".kepub.epub")
      by (rewrite !sapp_assoc; reflexivity).
    rewrite drop_app. reflexivity. }
  rewrite Hc. f_equal. f_equal.
  assert (Hr : Str.replace ".kepub" EmptyString (render_kepub n) = render n).
  { unfold Str.replace, render_kepub, render. rewrite Hepub.
    replace (authors n +:+ " - " +:+ stem n +:+ article_part n
             +:+ ".kepub.epub")
      with ((authors n +:+ " - " +:+ stem n +:+ article_part n)
            +:+ ".kepub.epub")
      by (rewrite !sapp_assoc; reflexivity).
    rewrite replace_go_no_dot by (try exact Hf; reflexivity).
    rewrite !sapp_assoc. reflexivity. }
  rewrite Hr, (renameBook_rendered n Hwf).
  unfold Str.replace, without_subtitle. rewrite Hepub.
  replace (authors n +:+ " - " +:+ out_title n +:+ "." +:+ "epub")
    with ((authors n +:+ " - " +:+ out_title n) +:+ ".epub")
    by (rewrite !sapp_assoc; reflexivity).
  rewrite replace_go_no_dot by (try exact Ho; reflexivity).
  rewrite !sapp_assoc. reflexivity.
Qed.

End Kepub.

(** X25: a Kobo file [Authors - Title[_ Subtitle][, Article].kepub.epub] is
    treated by [withAuthors] like the [.epub] file of the same name and keeps
    its double extension: the new name in [to_rename] is
    [Authors - [Article ]Title.kepub.epub]. *)
Theorem withAuthors_keeps_kepub (n : book_name) :
  well_formed_with_authors n = true -> ext n = "epub" ->
  to_rename_of [render_kepub n] []
  = [(render_kepub n,
      authors n +:+ " - " +:+ out_title n +:+ ".kepub.epub")].
Proof. apply kepub_entry. Qed.

Lemma withAuthors_keeps_kepub_witness :
  to_rename_of ["Adams, Douglas - Hitchhiker_ A Trilogy, The.kepub.epub"] []
  = [("Adams, Douglas - Hitchhiker_ A Trilogy, The.kepub.epub",
      "Adams, Douglas - The Hitchhiker.kepub.epub")].
Proof.
  apply (withAuthors_keeps_kepub
           (mkName "Adams, Douglas" "Hitchhiker" (Some "A Trilogy")
                   (Some "The") "epub")); reflexivity.
Defined.

(** X26: [withoutAuthors] on one well-formed book that is a file of the
    directory, when the name without authors and the name that is left are
    free: the book ends as [[Article ]Title.ext], the dictionary holds this
    one rename, and [restoreOld] then gives the book its name back and the
    directory its former content. *)
Theorem withoutAuthors_undone_by_restoreOld
    (path : string) (n : book_name) (w : World) :
  well_formed n = true ->
  render n ∈ fs w -> without_authors n ∉ fs w -> stripped n ∉ fs w ->
  exists w1 w2,
    withoutAuthors path [render n] w = (w1, Ok tt)
    /\ fs w1 = {[ stripped n ]} ∪ (fs w ∖ {[ render n ]})
    /\ undo w1 = [(stripped n, render n)]
    /\ restoreOld path w1 = (w2, Ok tt)
    /\ fs w2 = fs w.
Proof.
  intros Hwf Hold Hmid Hnew.
  destruct (wf_parts n Hwf) as ((Ha1 & Ha2 & Ha3) & (Ht1 & _) & _ & _ & Hext & _).
  destruct (known_ext _ Hext) as (_ & _ & _ & _ & _ & _ & He7).
  assert (Hna : Re.sub_count Pat.pattern1 EmptyString (render n) 1
                = without_authors n).
  { unfold render, without_authors. rewrite remove_authors by assumption.
    reflexivity. }
  assert (Hst : withoutAuthors_new (without_authors n) = stripped n)
    by (apply new_of_stem; exact Hwf).
  assert (Hlast : last_is "_" (stripped n) = Ok false)
    by (unfold stripped; apply He7).
  assert (Hne_mid : without_authors n <> EmptyString).
  { unfold without_authors, stem. destruct (title n); discriminate. }
  assert (Hne_new : stripped n <> EmptyString).
  { unfold stripped, out_title.
    destruct (article n) as [a|]; [destruct a|];
      destruct (title n); discriminate. }
  assert (Hne_old : render n <> EmptyString).
  { unfold render. destruct (authors n); discriminate. }
  assert (Hr1 : rename_outcome (fs w) (render n) (without_authors n)
                = Ok ({[ without_authors n ]} ∪ (fs w ∖ {[ render n ]}))).
  { unfold rename_outcome.
    destruct (decide (render n ∈ fs w)); [|contradiction].
    destruct (decide (without_authors n = render n)) as [He|_];
      [rewrite He in Hmid; contradiction|].
    destruct (decide (without_authors n ∈ fs w)); [contradiction|].
    destruct (decide (without_authors n = EmptyString)); [contradiction|].
    reflexivity. }
  set (fs1 := {[ without_authors n ]} ∪ (fs w ∖ {[ render n ]})) in *.
  assert (Hr2 : exists fs2,
            rename_outcome fs1 (without_authors n) (stripped n) = Ok fs2
            /\ fs2 = {[ stripped n ]} ∪ (fs w ∖ {[ render n ]})).
  { unfold rename_outcome.
    destruct (decide (without_authors n ∈ fs1)) as [_|H].
    2:{ exfalso. apply H. unfold fs1. apply elem_of_union. left.
        apply elem_of_singleton. reflexivity. }
    destruct (decide (stripped n = without_authors n)) as [He|Hd].
    - eexists. split; [reflexivity|]. unfold fs1. rewrite He. reflexivity.
    - destruct (decide (stripped n ∈ fs1)) as [H|_].
      { exfalso. unfold fs1 in H. apply elem_of_union in H as [H|H].
        - apply elem_of_singleton in H. contradiction.
        - apply elem_of_difference in H as [H _]. contradiction. }
      destruct (decide (stripped n = EmptyString)); [contradiction|].
      eexists. split; [reflexivity|]. unfold fs1. apply set_eq. intros x.
      rewrite !elem_of_union, !elem_of_difference, !elem_of_union,
        !elem_of_difference, !elem_of_singleton.
      split.
      + intros [H|[[H|H] H']]; [left; exact H|contradiction|right; exact H].
      + intros [H|[H H']]; [left; exact H|].
        right. split; [right; split; assumption|].
        intros Hx. subst x. contradiction. }
  destruct Hr2 as (fs2 & Hr2 & Hfs2).
  assert (Hrun : exists w1,
            withoutAuthors path [render n] w = (w1, Ok tt)
            /\ fs w1 = fs2 /\ undo w1 = [(stripped n, render n)]).
  { unfold withoutAuthors. unfold bind at 1, undo_clear at 1.
    cbn [for_each]. unfold bind at 1. rewrite Hna, Hst.
    unfold bind at 1, os_rename at 1. cbn [fs undo stdout stdin renames].
    rewrite Hr1.
    unfold bind at 1, os_rename at 1. cbn [fs undo stdout stdin renames].
    rewrite Hr2.
    unfold bind at 1, lift at 1. rewrite Hlast.
    unfold bind at 1, ret at 1.
    unfold bind, undo_set, print, ret. cbn [fs undo stdout stdin renames].
    eexists. split; [reflexivity|]. split; reflexivity. }
  destruct Hrun as (w1 & Hrun & Hf1 & Hu1).
  destruct (restoreOld_clean_plan path (fs w) [(stripped n, render n)] w1)
    as (w2 & Hres & Hf2).
  - unfold clean_plan. cbn [map fst snd distinct existsb forallb negb andb].
    rewrite (bool_decide_eq_true_2 _ Hold), (bool_decide_eq_false_2 _ Hnew).
    destruct (stripped n); [contradiction|].
    destruct (render n); [contradiction|]. reflexivity.
  - exact Hu1.
  - rewrite Hf1, Hfs2. apply set_eq. intros x.
    rewrite elem_of_renamed, elem_of_union, elem_of_difference,
      !elem_of_singleton. cbn [map fst snd In]. split.
    + intros [H|[H H']]; [right; left; symmetry; exact H|].
      left. split; [exact H|]. intros [He|[]]. apply H'. symmetry. exact He.
    + intros [[H H']|[H|[]]]; [|left; symmetry; exact H].
      right. split; [exact H|]. intros He. apply H'. left. symmetry. exact He.
  - exists w1, w2. rewrite Hf1, Hfs2. auto.
Qed.

Lemma withoutAuthors_undone_by_restoreOld_witness :
  exists w1 w2,
    withoutAuthors books_dir
      [render (mkName "Smith, John" "Great War" (Some "A History")
                 (Some "The") "epub")]
      (session ["Smith, John - Great War_ A History, The.epub"; "cover.jpg"] [])
    = (w1, Ok tt)
    /\ fs w1 = {[ "The Great War.epub" ]}
               ∪ (list_to_set ["Smith, John - Great War_ A History, The.epub";
                               "cover.jpg"]
                  ∖ {[ "Smith, John - Great War_ A History, The.epub" ]})
    /\ undo w1 = [("The Great War.epub",
                   "Smith, John - Great War_ A History, The.epub")]
    /\ restoreOld books_dir w1 = (w2, Ok tt)
    /\ fs w2 = list_to_set ["Smith, John - Great War_ A History, The.epub";
                            "cover.jpg"].
Proof.
  apply (withoutAuthors_undone_by_restoreOld books_dir
           (mkName "Smith, John" "Great War" (Some "A History") (Some "The")
                   "epub")
           (session ["Smith, John - Great War_ A History, The.epub";
                     "cover.jpg"] [])).
  - reflexivity.
  - reflexivity.
  - vm_compute. discriminate.
  - vm_compute. discriminate.
Defined.

(** ** Strip-to-title applied twice *)

Section Idempotence.

Lemma sapp_eq_sapp : forall (u v q w : string),
  u +:+ v = q +:+ w ->
  (exists m, q = u +:+ m /\ v = m +:+ w)
  \/ (exists m, u = q +:+ m /\ w = m +:+ v).
Proof.
  induction u as [|c u IH]; intros v q w H.
  - left. exists q. split; [reflexivity|exact H].
  - destruct q as [|d q].
    + right. exists (String c u). split; [reflexivity|].
      symmetry. exact H.
    + cbn [String.append] in H. injection H as -> H.
      destruct (IH _ _ _ H) as [[m [-> ->]]|[m [-> ->]]].
      * left. exists m. split; reflexivity.
      * right. exists m. split; reflexivity.
Qed.

(** A character that is no dot and does not occur in [e] stands in front
    of the last dot. *)
Lemma before_last_dot (p : ascii -> bool) (a : string) c (b q e : string) :
  p c = true -> p "."%char = false ->
  all_chars (fun x => negb (p x)) e = true ->
  a +:+ String c b = q +:+ "." +:+ e ->
  exists q2, b = q2 +:+ "." +:+ e /\ q = a +:+ String c q2.
Proof.
  intros Hc Hdot He H.
  destruct (sapp_eq_sapp _ _ _ _ H) as [[m [Hq Hv]]|[m [Ha Hw]]].
  - destruct m as [|d m]; cbn [String.append] in Hv.
    + injection Hv as -> _. congruence.
    + injection Hv as <- Hb. exists m. split; [exact Hb|exact Hq].
  - destruct m as [|d m]; cbn [String.append] in Hw.
    + injection Hw as <- _. congruence.
    + injection Hw as _ He'. rewrite He', all_chars_app in He.
      cbn [all_chars] in He. rewrite Hc in He.
      rewrite andb_false_r in He. discriminate.
Qed.

(** A dot is the last one or stands in front of it. *)
Lemma at_last_dot (a rest q e : string) :
  no_dot e = true ->
  a +:+ "." +:+ rest = q +:+ "." +:+ e ->
  (rest = e /\ q = a)
  \/ exists q2, rest = q2 +:+ "." +:+ e /\ q = a +:+ "." +:+ q2.
Proof.
  intros He H.
  destruct (sapp_eq_sapp _ _ _ _ H) as [[m [Hq Hv]]|[m [Ha Hw]]].
  - destruct m as [|d m]; cbn [String.append] in Hv.
    + injection Hv as ->. left. rewrite sapp_nil_r in Hq. auto.
    + injection Hv as <- Hb. right. exists m. auto.
  - destruct m as [|d m]; cbn [String.append] in Hw.
    + injection Hw as ->. left. rewrite sapp_nil_r in Ha. auto.
    + injection Hw as _ He'. rewrite He' in He.
      unfold no_dot in He. rewrite all_chars_app in He.
      cbn in He. rewrite andb_false_r in He. discriminate.
Qed.

Lemma sub_go_next r repl lim prev c (s : string) :
  Re.match_here r prev (String c s) = None ->
  Re.sub_go r repl lim 0 prev (String c s)
  = String c (Re.sub_go r repl lim 0 (Some c) s).
Proof.
  intros H. apply (match_len_none r) in H.
  destruct lim as [[|k]|]; cbn [Re.sub_go].
  - rewrite sub_go_done. reflexivity.
  - rewrite H. reflexivity.
  - rewrite H. reflexivity.
Qed.

(** *** The author prefix *)

Lemma star_lazy_inv {R : Type} p (k : option ascii -> string -> option R) :
  forall (t : string) prev r,
    Re.star_lazy p prev t k = Some r ->
    exists u v, t = u +:+ v /\ k (last_of prev u) v = Some r.
Proof.
  induction t as [|c t IH]; intros prev r H; cbn [Re.star_lazy] in H.
  - destruct (k prev EmptyString) eqn:Hk; [|discriminate].
    exists EmptyString, EmptyString. split; [reflexivity|].
    cbn [last_of]. congruence.
  - destruct (k prev (String c t)) eqn:Hk.
    + exists EmptyString, (String c t). split; [reflexivity|].
      cbn [last_of]. congruence.
    + destruct (p c); [|discriminate].
      apply IH in H as (u & v & -> & Hv).
      exists (String c u), v. split; [reflexivity|exact Hv].
Qed.

(** A match of the author pattern ends with whitespace. *)
Lemma pattern1_inv prev (t rest : string) :
  Re.match_here Pat.pattern1 prev t = Some rest ->
  exists c u w, t = String c u +:+ String w rest /\ Re.is_space w = true.
Proof.
  unfold Re.match_here, Pat.pattern1. cbn [Re.exec Re.exactly].
  destruct t as [|c t]; [discriminate|].
  destruct (Re.dot c); [|discriminate]. intros H.
  apply star_lazy_inv in H as (u & v & -> & Hk).
  rewrite exec_separator in Hk.
  destruct v as [|a [|b [|w v]]]; try discriminate.
  destruct (starts_sep (String a (String b (String w v)))) eqn:Hs;
    [|discriminate].
  injection Hk as <-.
  exists c, (u +:+ String a (String b EmptyString)), w. split.
  - cbn [String.append]. rewrite sapp_assoc. reflexivity.
  - cbn [starts_sep] in Hs. apply andb_true_iff in Hs as [_ Hs]. exact Hs.
Qed.

Lemma pattern1_tail_unmatched (s : string) :
  has_separator (Str.drop 1 s) = false -> unmatched Pat.pattern1 s.
Proof.
  intros Hs prev. unfold Re.match_here, Pat.pattern1.
  cbn [Re.exec Re.exactly].
  destruct s as [|c s]; [reflexivity|]. cbn [Str.drop] in Hs.
  destruct (Re.dot c); [|reflexivity].
  apply star_lazy_no_separator. exact Hs.
Qed.

Lemma drop_comm (n m : nat) (s : string) :
  Str.drop n (Str.drop m s) = Str.drop m (Str.drop n s).
Proof. rewrite !drop_drop. f_equal. lia. Qed.

(** A name without separator behind its first character keeps its
    front. *)
Lemma keep_settled_front (y : string) :
  has_separator (Str.drop 1 y) = false ->
  Re.sub_count Pat.pattern1 EmptyString y 1 = y.
Proof.
  intros Hs. unfold Re.sub_count. apply sub_go_unmatched.
  intros n. apply pattern1_tail_unmatched. rewrite drop_comm.
  apply has_separator_drop. exact Hs.
Qed.

Variable e : string.
Hypothesis Hext : one_of ["pdf"; "azw"; "epub"; "mobi"] e = true.

Lemma ext_not_space :
  all_chars (fun x => negb (Re.is_space x)) e = true.
Proof.
  destruct (known_ext e Hext) as (_ & _ & _ & _ & _ & He6 & _).
  change ("." +:+ e) with (String "." e) in He6.
  unfold no_space in He6. cbn [all_chars] in He6.
  apply andb_true_iff in He6 as [_ He6]. exact He6.
Qed.

(** Without its author prefix the name still ends with the extension. *)
Lemma remove_authors_shape : forall (s : string) prev,
  plain s = true ->
  exists s1,
    Re.sub_go Pat.pattern1 EmptyString (Some 1%nat) 0 prev (s +:+ "." +:+ e)
    = s1 +:+ "." +:+ e
    /\ plain s1 = true.
Proof.
  destruct (known_ext e Hext) as (_ & _ & _ & _ & _ & He6 & _).
  induction s as [|c s IH]; intros prev Hs.
  - exists EmptyString. split; [|reflexivity].
    apply sub_go_unmatched. intros n. apply pattern1_unmatched.
    apply has_separator_no_space. apply all_chars_drop. exact He6.
  - pose proof Hs as Hs'. cbn [plain all_chars] in Hs'.
    unfold plain in Hs'. cbn [all_chars] in Hs'.
    apply andb_true_iff in Hs' as [Hc Hs'].
    destruct (Re.match_here Pat.pattern1 prev (String c s +:+ "." +:+ e))
      as [rest|] eqn:Hm.
    + pose proof Hm as Hm'.
      apply pattern1_inv in Hm' as (c' & u & w & Ht & Hw).
      symmetry in Ht.
      apply (before_last_dot Re.is_space) in Ht
        as (q2 & Hrest & Hq); [|exact Hw|reflexivity|exact ext_not_space].
      exists q2. split.
      * rewrite Hq, Hrest in *.
        replace ((String c' u +:+ String w q2) +:+ "." +:+ e)
          with (String c' (u +:+ String w EmptyString) +:+ (q2 +:+ "." +:+ e))
          in *
          by (cbn [String.append]; rewrite !sapp_assoc; reflexivity).
        rewrite sub_go_match; [|exact Hm|discriminate].
        cbn [option_map Nat.pred]. rewrite sub_go_done. reflexivity.
      * rewrite Hq in Hs. unfold plain in *.
        rewrite all_chars_app in Hs. apply andb_true_iff in Hs as [_ Hs].
        cbn [all_chars] in Hs. apply andb_true_iff in Hs as [_ Hs]. exact Hs.
    + change (String c s +:+ "." +:+ e) with (String c (s +:+ "." +:+ e))
        in *.
      rewrite sub_go_next by exact Hm.
      destruct (IH (Some c) Hs') as (s1 & H1 & H2).
      exists (String c s1). split.
      * rewrite H1. reflexivity.
      * unfold plain in *. cbn [all_chars]. rewrite Hc, H2. reflexivity.
Qed.

(** *** The subtitle *)

Lemma us_greedy_some : forall (q : string) prev,
  plain q = true -> marked q || spaced q = true ->
  Re.star_greedy (Ascii.eqb "_") prev (q +:+ "." +:+ e)
    (after_underscores (fun _ rest => Some rest))
  = Some ("." +:+ e).
Proof.
  destruct (known_ext e Hext) as (_ & He2 & _).
  induction q as [|c q IH]; intros prev Hq H; [discriminate|].
  unfold plain in Hq. cbn [all_chars] in Hq.
  apply andb_true_iff in Hq as [Hc Hq].
  change (String c q +:+ "." +:+ e) with (String c (q +:+ "." +:+ e)).
  cbn [Re.star_greedy].
  destruct (Ascii.eqb "_" c) eqn:Ec.
  - assert (Hin : marked q || spaced q = true).
    { apply Ascii.eqb_eq in Ec. subst c.
      apply orb_true_iff in H as [H|H].
      - cbn [marked] in H. apply andb_true_iff in H as [_ H]. exact H.
      - destruct q as [|d q]; discriminate. }
    rewrite (IH (Some c) Hq Hin). reflexivity.
  - assert (Hsp : spaced (String c q) = true).
    { apply orb_true_iff in H as [H|H]; [|exact H].
      cbn [marked] in H. unfold is_underscore in H. rewrite Ec in H.
      discriminate. }
    destruct q as [|d q]; [discriminate|]. cbn [spaced] in Hsp.
    unfold plain in Hq. cbn [all_chars] in Hq.
    apply andb_true_iff in Hq as [Hd Hq].
    unfold after_underscores.
    change (String d q +:+ "." +:+ e) with (String d (q +:+ "." +:+ e)).
    cbn [Re.exec Re.exactly]. rewrite Hsp, Hd.
    apply (greedy_to_last_dot e He2 q (Some d) Hq).
Qed.

Lemma us_greedy_none : forall (q : string) prev,
  plain q = true -> marked q || spaced q = false ->
  Re.star_greedy (Ascii.eqb "_") prev (q +:+ "." +:+ e)
    (after_underscores (fun _ rest => Some rest))
  = None.
Proof.
  destruct (known_ext e Hext) as (_ & He2 & _).
  induction q as [|c q IH]; intros prev Hq H.
  - change (EmptyString +:+ "." +:+ e) with (String "." e).
    cbn [Re.star_greedy]. change (Ascii.eqb "_" ".") with false. cbn iota.
    apply after_underscores_none. reflexivity.
  - unfold plain in Hq. cbn [all_chars] in Hq.
    apply andb_true_iff in Hq as [Hc Hq].
    apply orb_false_iff in H as [Hm Hsp].
    change (String c q +:+ "." +:+ e) with (String c (q +:+ "." +:+ e)).
    cbn [Re.star_greedy].
    destruct (Ascii.eqb "_" c) eqn:Ec.
    + cbn [marked] in Hm. unfold is_underscore in Hm. rewrite Ec in Hm.
      cbn [andb] in Hm. rewrite (IH (Some c) Hq Hm).
      apply after_underscores_none. apply Ascii.eqb_eq in Ec. subst c.
      reflexivity.
    + destruct (Re.is_space c) eqn:Es.
      * destruct q as [|d q]; [|cbn [spaced] in Hsp; congruence].
        change (EmptyString +:+ "." +:+ e) with (String "." e).
        unfold after_underscores. cbn [Re.exec Re.exactly].
        rewrite Es. change (Re.dot ".") with true. cbn iota.
        apply (greedy_no_dot e (Some "."%char) He2).
      * apply after_underscores_none. cbn [first_space]. exact Es.
Qed.

Lemma pattern2_marked (q : string) prev :
  plain q = true -> marked q = true ->
  Re.match_here Pat.pattern2 prev (q +:+ "." +:+ e) = Some ("." +:+ e).
Proof.
  intros Hq Hm. destruct q as [|c q]; [discriminate|].
  cbn [marked] in Hm. apply andb_true_iff in Hm as [Hc Hm].
  unfold is_underscore in Hc.
  unfold plain in Hq. cbn [all_chars] in Hq.
  apply andb_true_iff in Hq as [_ Hq].
  unfold Re.match_here, Pat.pattern2.
  change (String c q +:+ "." +:+ e) with (String c (q +:+ "." +:+ e)).
  cbn [Re.exec Re.exactly]. rewrite Hc.
  apply (us_greedy_some q (Some c) Hq Hm).
Qed.

Lemma pattern2_unmarked (q : string) :
  plain q = true -> marked q = false ->
  unmatched Pat.pattern2 (q +:+ "." +:+ e).
Proof.
  intros Hq Hm prev. unfold Re.match_here, Pat.pattern2.
  destruct q as [|c q].
  - change (EmptyString +:+ "." +:+ e) with (String "." e).
    cbn [Re.exec Re.exactly]. reflexivity.
  - change (String c q +:+ "." +:+ e) with (String c (q +:+ "." +:+ e)).
    cbn [Re.exec Re.exactly].
    destruct (Ascii.eqb "_" c) eqn:Ec; [|reflexivity].
    cbn [marked] in Hm. unfold is_underscore in Hm. rewrite Ec in Hm.
    cbn [andb] in Hm.
    unfold plain in Hq. cbn [all_chars] in Hq.
    apply andb_true_iff in Hq as [_ Hq].
    assert (Hsp : marked q || spaced q = false) by exact Hm.
    apply (us_greedy_none q (Some c) Hq Hsp).
Qed.

Lemma spaced_app (u v : string) :
  spaced u = true -> spaced (u +:+ v) = true.
Proof. destruct u as [|a [|b u]]; try discriminate. intros H; exact H. Qed.

Lemma marked_app : forall (u v : string),
  marked u = true -> marked (u +:+ v) = true.
Proof.
  induction u as [|c u IH]; intros v H; [discriminate|].
  cbn [String.append marked] in *.
  apply andb_true_iff in H as [Hc H]. rewrite Hc. cbn [andb].
  apply orb_true_iff in H as [H|H].
  - rewrite (IH v H). reflexivity.
  - rewrite (spaced_app u v H). apply orb_true_r.
Qed.

Lemma cut_prefix : forall s : string, exists m, s = cut s +:+ m.
Proof.
  induction s as [|c s [m IH]].
  - exists EmptyString. reflexivity.
  - destruct (marked (String c s)) eqn:Hm.
    + exists (String c s). cbn [cut]. rewrite Hm. reflexivity.
    + exists m. cbn [cut]. rewrite Hm. cbn [String.append].
      rewrite <- IH. reflexivity.
Qed.

Lemma cut_unmarked : forall s : string, has_marked (cut s) = false.
Proof.
  induction s as [|c s IH]; [reflexivity|].
  cbn [cut]. destruct (marked (String c s)) eqn:Hm; [reflexivity|].
  cbn [has_marked]. rewrite IH, orb_false_r.
  destruct (marked (String c (cut s))) eqn:Hm'; [|reflexivity].
  destruct (cut_prefix s) as [m Hs].
  apply (marked_app _ m) in Hm'. cbn [String.append] in Hm'.
  rewrite <- Hs, Hm in Hm'. discriminate.
Qed.

Lemma cut_plain : forall s : string, plain s = true -> plain (cut s) = true.
Proof.
  intros s Hs. destruct (cut_prefix s) as [m Hm]. rewrite Hm in Hs.
  unfold plain in *. rewrite all_chars_app in Hs.
  apply andb_true_iff in Hs as [Hs _]. exact Hs.
Qed.

Lemma has_marked_drop : forall (n : nat) (s : string),
  has_marked s = false -> marked (Str.drop n s) = false.
Proof.
  induction n as [|n IH]; intros s H.
  - rewrite drop_0. destruct s; [reflexivity|].
    cbn [has_marked] in H. apply orb_false_iff in H as [H _]. exact H.
  - destruct s as [|c s]; [reflexivity|]. cbn [Str.drop].
    cbn [has_marked] in H. apply orb_false_iff in H as [_ H].
    apply IH. exact H.
Qed.

(** No subtitle starts in a name that holds no marked place. *)
Lemma unmarked_unmatched (p : string) :
  plain p = true -> has_marked p = false ->
  forall n, unmatched Pat.pattern2 (Str.drop n (p +:+ "." +:+ e)).
Proof.
  destruct (known_ext e Hext) as (_ & _ & _ & _ & He5 & _).
  intros Hp Hm n.
  destruct (Nat.le_gt_cases n (String.length p)) as [Hn|Hn].
  - rewrite drop_app_le by exact Hn.
    apply pattern2_unmarked.
    + apply all_chars_drop. exact Hp.
    + apply has_marked_drop. exact Hm.
  - replace n with (String.length p + (n - String.length p))%nat by lia.
    rewrite drop_app_ge. apply pattern2_unmatched.
    apply has_marker_starts. apply has_marker_drop. exact He5.
Qed.

Lemma keep_unmarked (p : string) :
  plain p = true -> has_marked p = false ->
  Re.sub_count Pat.pattern2 EmptyString (p +:+ "." +:+ e) 1
  = p +:+ "." +:+ e.
Proof.
  intros Hp Hm. unfold Re.sub_count. apply sub_go_unmatched.
  apply unmarked_unmatched; assumption.
Qed.

(** The subtitle pattern takes what stands between the first marked place
    and the last dot. *)
Lemma remove_subtitle_cut : forall (q : string) prev,
  plain q = true ->
  Re.sub_go Pat.pattern2 EmptyString (Some 1%nat) 0 prev (q +:+ "." +:+ e)
  = cut q +:+ "." +:+ e.
Proof.
  induction q as [|c q IH]; intros prev Hq.
  - cbn [cut marked]. apply sub_go_unmatched.
    apply (unmarked_unmatched EmptyString); reflexivity.
  - cbn [cut]. destruct (marked (String c q)) eqn:Hm.
    + pose proof (pattern2_marked (String c q) prev Hq Hm) as Hmatch.
      rewrite sub_go_match; [|exact Hmatch|discriminate].
      cbn [option_map Nat.pred]. rewrite sub_go_done. reflexivity.
    + pose proof (pattern2_unmarked (String c q) Hq Hm prev) as Hnone.
      change (String c q +:+ "." +:+ e) with (String c (q +:+ "." +:+ e))
        in *.
      rewrite sub_go_next by exact Hnone.
      unfold plain in Hq. cbn [all_chars] in Hq.
      apply andb_true_iff in Hq as [_ Hq].
      rewrite (IH (Some c) Hq). reflexivity.
Qed.

(** *** The article *)

Lemma article_dot_comma art prev c (s : string) :
  Ascii.eqb "," c = false ->
  Re.match_here (Pat.article_dot art) prev (String c s) = None.
Proof.
  intros Hc. unfold Re.match_here, Pat.article_dot, Re.Lit.
  cbn [Re.exec Re.exactly]. rewrite Hc. reflexivity.
Qed.

Lemma article_dot_ext art :
  forall n, unmatched (Pat.article_dot art) (Str.drop n ("." +:+ e)).
Proof.
  destruct (known_ext e Hext) as (_ & _ & He3 & _).
  assert (H : no_comma ("." +:+ e) = true).
  { change ("." +:+ e) with (String "." e). unfold no_comma in *.
    cbn [all_chars]. rewrite He3. reflexivity. }
  intros n prev.
  pose proof (all_chars_drop _ n _ H) as Hd.
  destruct (Str.drop n ("." +:+ e)) as [|c s]; [reflexivity|].
  apply article_dot_comma. cbn [all_chars] in Hd.
  apply andb_true_iff in Hd as [Hc _]. apply negb_true_iff in Hc. exact Hc.
Qed.

(** At a match of the article pattern a dot is written and the match
    passed over. *)
Lemma article_sub_match art prev (s rest : string) :
  Re.match_here (Pat.article_dot art) prev s = Some rest ->
  exists w,
    s = String "," (String w art) +:+ "." +:+ rest
    /\ Re.sub_go (Pat.article_dot art) "." None 0 prev s
       = "." +:+ Re.sub_go (Pat.article_dot art) "." None 0
                   (last_of (Some ","%char) (String w (art +:+ "."))) rest.
Proof.
  intros Hm. pose proof Hm as Hm'. apply article_dot_inv in Hm' as [w Ht].
  exists w. split; [rewrite Ht; reflexivity|].
  rewrite Ht.
  replace (String "," (String w (art +:+ "." +:+ rest)))
    with (String "," (String w (art +:+ ".")) +:+ rest)
    by (cbn [String.append]; rewrite sapp_assoc; reflexivity).
  apply sub_go_match; [|discriminate].
  replace (String "," (String w (art +:+ ".")) +:+ rest)
    with (String "," (String w (art +:+ "." +:+ rest)))
    by (cbn [String.append]; rewrite sapp_assoc; reflexivity).
  rewrite <- Ht. exact Hm.
Qed.

(** With the article forms taken out the name still ends with the
    extension. *)
Lemma remove_article_shape art : forall (k : nat) (q : string) prev,
  (String.length q <= k)%nat -> plain q = true ->
  exists q',
    Re.sub_go (Pat.article_dot art) "." None 0 prev (q +:+ "." +:+ e)
    = q' +:+ "." +:+ e
    /\ plain q' = true.
Proof.
  destruct (known_ext e Hext) as (_ & He2 & _).
  induction k as [|k IH]; intros q prev Hlen Hq.
  - destruct q as [|c q]; [|cbn in Hlen; lia].
    exists EmptyString. split; [|reflexivity].
    apply sub_go_unmatched. apply article_dot_ext.
  - destruct q as [|c q].
    + exists EmptyString. split; [|reflexivity].
      apply sub_go_unmatched. apply article_dot_ext.
    + pose proof Hq as Hq'. unfold plain in Hq'. cbn [all_chars] in Hq'.
      apply andb_true_iff in Hq' as [Hc Hq'].
      destruct (Re.match_here (Pat.article_dot art) prev
                  (String c q +:+ "." +:+ e)) as [rest|] eqn:Hm.
      * destruct (article_sub_match art prev _ rest Hm) as (w & Ht & Hgo).
        symmetry in Ht. rename Ht into Ht'.
        rewrite Hgo.
        apply at_last_dot in Ht' as [[-> Hq2]|(q2 & -> & Hq2)];
          [| |exact He2].
        -- exists EmptyString. split; [|reflexivity].
           cbn [String.append]. f_equal.
           apply sub_go_unmatched. intros n.
           pose proof (article_dot_ext art (S n)) as H.
           change ("." +:+ e) with (String "." e) in H. exact H.
        -- assert (Hl : (String.length q2 <= k)%nat).
           { apply (f_equal String.length) in Hq2.
             rewrite !slen_app in Hq2. cbn [String.length] in *. lia. }
           assert (Hp2 : plain q2 = true).
           { rewrite Hq2 in Hq. unfold plain in *.
             rewrite !all_chars_app in Hq.
             apply andb_true_iff in Hq as [_ Hq].
             apply andb_true_iff in Hq as [_ Hq]. exact Hq. }
           destruct (IH q2 (last_of (Some ","%char) (String w (art +:+ ".")))
                       Hl Hp2) as (q' & H1 & H2).
           exists ("." +:+ q'). split.
           ++ rewrite H1. rewrite !sapp_assoc. reflexivity.
           ++ unfold plain in *. rewrite all_chars_app, H2. reflexivity.
      * change (String c q +:+ "." +:+ e) with (String c (q +:+ "." +:+ e))
          in *.
        rewrite sub_go_next by exact Hm.
        assert (Hl : (String.length q <= k)%nat) by (cbn in Hlen; lia).
        destruct (IH q (Some c) Hl Hq') as (q' & H1 & H2).
        exists (String c q'). split.
        -- rewrite H1. reflexivity.
        -- unfold plain in *. cbn [all_chars]. rewrite Hc, H2. reflexivity.
Qed.

Lemma contains_none (t : string) : forall (s : string),
  Str.contains t s = false ->
  forall i, Str.startswith t (Str.drop i s) = false.
Proof.
  induction s as [|c s IH]; intros H i.
  - cbn [Str.contains] in H. rewrite orb_false_r in H.
    destruct i; exact H.
  - cbn [Str.contains] in H. apply orb_false_iff in H as [H0 H].
    destruct i as [|i]; [exact H0|]. cbn [Str.drop]. apply IH. exact H.
Qed.

Lemma article_tail_behind art (s : string) :
  (forall i, Str.startswith (tail_text art) (Str.drop (S i) s) = false) ->
  unmatched (Pat.article_tail art) s.
Proof.
  intros H prev. unfold Re.match_here, Pat.article_tail.
  fold (tail_pattern art). cbn [Re.exec Re.exactly].
  destruct s as [|c s]; [reflexivity|].
  destruct (Re.dot c); [|reflexivity].
  apply star_greedy_none. intros i prev'.
  apply exec_tail_none. apply (H i).
Qed.

(** Where the tail holds no article form the test for it fails. *)
Lemma has_article_none art w (y : string) :
  article_in_tail art w y = false -> has_article art w y = false.
Proof.
  unfold article_in_tail, has_article, Re.found, Re.search. intros H.
  rewrite search_none; [reflexivity|].
  intros n. apply article_tail_behind. intros i.
  replace (Str.drop (S i) (Str.drop n (Str.take_last w y)))
    with (Str.drop (i + n) (Str.drop 1 (Str.take_last w y))).
  - apply contains_none. exact H.
  - rewrite !drop_drop. f_equal. lia.
Qed.

(** *** One pass *)

(** What [withoutAuthors] makes of a name without line feed: a name that
    ends with the extension and holds no place for a subtitle to start. *)
Lemma new_shape (s1 : string) :
  plain s1 = true ->
  exists p,
    withoutAuthors_new (s1 +:+ "." +:+ e) = p +:+ "." +:+ e
    /\ plain p = true /\ has_marked p = false.
Proof.
  intros Hs1.
  assert (Hart : forall art, plain art = true ->
            (forall v, has_marked ((art +:+ " ") +:+ v) = has_marked v) ->
            exists p,
              (art +:+ " ") +:+ drop_article_subtitle art (s1 +:+ "." +:+ e)
              = p +:+ "." +:+ e
              /\ plain p = true /\ has_marked p = false).
  { intros art Ha Hm. unfold drop_article_subtitle, Re.sub, Re.sub_count.
    destruct (remove_article_shape art (String.length s1) s1 None
                (Nat.le_refl _) Hs1) as (q' & -> & Hq').
    rewrite remove_subtitle_cut by exact Hq'.
    exists ((art +:+ " ") +:+ cut q'). split; [|split].
    - rewrite !sapp_assoc. reflexivity.
    - pose proof (cut_plain q' Hq') as Hcut.
      unfold plain in *. rewrite !all_chars_app, Ha, Hcut. reflexivity.
    - rewrite Hm. apply cut_unmarked. }
  unfold withoutAuthors_new.
  destruct (has_article "A" 9 _);
    [apply (Hart "A"); [reflexivity|intros v; reflexivity]|].
  destruct (has_article "An" 10 _);
    [apply (Hart "An"); [reflexivity|intros v; reflexivity]|].
  destruct (has_article "The" 11 _);
    [apply (Hart "The"); [reflexivity|intros v; reflexivity]|].
  exists (cut s1). split; [|split].
  - apply remove_subtitle_cut. exact Hs1.
  - apply cut_plain. exact Hs1.
  - apply cut_unmarked.
Qed.

End Idempotence.

Section Shorter.

Lemma sub_go_limit_done r repl : forall (k : nat) (s : string) prev,
  Re.sub_go r repl (Some 0%nat) k prev s = Str.drop k s.
Proof.
  induction k as [|k IH]; intros s prev.
  - rewrite drop_0. apply sub_go_done.
  - destruct s as [|c s]; [reflexivity|]. cbn [Re.sub_go Str.drop]. apply IH.
Qed.

(** A substitution by a text of at most one character does not lengthen
    the subject. *)
Lemma sub_go_le r repl : (String.length repl <= 1)%nat ->
  forall (s : string) lim skip prev,
    (String.length (Re.sub_go r repl lim skip prev s) <= String.length s)%nat.
Proof.
  intros Hr. induction s as [|c s IH]; intros lim skip prev; [cbn; lia|].
  cbn [Re.sub_go]. destruct skip as [|k].
  - destruct lim as [[|l]|].
    + lia.
    + destruct (Re.match_len r prev (String c s)) as [[|k]|].
      * cbn [String.length]. specialize (IH (Some (S l)) 0%nat (Some c)). lia.
      * rewrite slen_app. cbn [String.length option_map].
        specialize (IH (Some (Nat.pred (S l))) k (Some c)). lia.
      * cbn [String.length]. specialize (IH (Some (S l)) 0%nat (Some c)). lia.
    + destruct (Re.match_len r prev (String c s)) as [[|k]|].
      * cbn [String.length]. specialize (IH None 0%nat (Some c)). lia.
      * rewrite slen_app. cbn [String.length option_map].
        specialize (IH None k (Some c)). lia.
      * cbn [String.length]. specialize (IH None 0%nat (Some c)). lia.
  - cbn [String.length]. specialize (IH lim k (Some c)). lia.
Qed.

(** The lazy [.+?] reaches a separator of the line. *)
Lemma star_lazy_reach : forall (t : string) prev,
  plain t = true -> has_separator t = true ->
  exists rest,
    Re.star_lazy Re.dot prev t
      (fun p s => Re.exec Pat.separator p s (fun _ rest => Some rest))
    = Some rest
    /\ (String.length rest + 3 <= String.length t)%nat.
Proof.
  induction t as [|c t IH]; intros prev Hp Hs; [discriminate|].
  unfold plain in Hp. cbn [all_chars] in Hp.
  apply andb_true_iff in Hp as [Hc Hp].
  cbn [Re.star_lazy]. rewrite exec_separator.
  destruct (starts_sep (String c t)) eqn:Hh.
  - destruct t as [|b [|w t]]; try discriminate.
    exists t. split; [reflexivity|]. cbn [String.length]. lia.
  - cbn [has_separator] in Hs. rewrite Hh in Hs. cbn [orb] in Hs.
    destruct (IH (Some c) Hp Hs) as (rest & H1 & H2).
    exists rest. rewrite Hc.
    split; [|cbn [String.length]; lia].
    destruct t as [|b [|w t]]; exact H1.
Qed.

(** A separator behind the first character is taken with what stands in
    front of it. *)
Lemma remove_front_shorter (y : string) :
  plain y = true -> has_separator (Str.drop 1 y) = true ->
  (String.length (Re.sub_count Pat.pattern1 EmptyString y 1) + 4
   <= String.length y)%nat.
Proof.
  intros Hp Hs. destruct y as [|c y]; [discriminate|].
  cbn [Str.drop] in Hs.
  unfold plain in Hp. cbn [all_chars] in Hp.
  apply andb_true_iff in Hp as [Hc Hp].
  destruct (star_lazy_reach y (Some c) Hp Hs) as (rest & H1 & H2).
  assert (Hm : Re.match_here Pat.pattern1 None (String c y) = Some rest).
  { unfold Re.match_here, Pat.pattern1. cbn [Re.exec Re.exactly].
    rewrite Hc. exact H1. }
  unfold Re.sub_count. cbn [Re.sub_go]. unfold Re.match_len. rewrite Hm.
  cbn [String.length].
  replace (S (String.length y) - String.length rest)%nat
    with (S (String.length y - String.length rest)) by lia.
  cbn [option_map Nat.pred String.append].
  rewrite sub_go_limit_done, drop_length. lia.
Qed.

(** The article pattern does not look behind. *)
Lemma article_dot_text art prev (s : string) :
  Str.startswith (tail_text art) s = true ->
  exists rest,
    Re.match_here (Pat.article_dot art) prev s = Some rest
    /\ (String.length rest + String.length art + 3 = String.length s)%nat.
Proof.
  intros H. apply startswith_inv in H.
  set (rest := Str.drop (String.length (tail_text art)) s) in H.
  exists rest. split.
  - rewrite H. unfold tail_text.
    replace ((", " +:+ art +:+ ".") +:+ rest)
      with (String "," (String " " (art +:+ ".")) +:+ rest)
      by (cbn [String.append]; rewrite !sapp_assoc; reflexivity).
    apply article_dot_match.
  - apply (f_equal String.length) in H. unfold tail_text in H.
    rewrite !slen_app in H. cbn [String.length] in H. fold rest in H.
    unfold tail_text in rest. lia.
Qed.

(** Where the article form occurs, taking it out shortens the name by more
    than the article and the space that are put in front. *)
Lemma remove_article_shorter art : forall (s : string) i prev,
  Str.startswith (tail_text art) (Str.drop i s) = true ->
  (String.length (Re.sub_go (Pat.article_dot art) "." None 0 prev s)
   + String.length art + 2 <= String.length s)%nat.
Proof.
  induction s as [|c s IH]; intros i prev Hi.
  - destruct i; discriminate.
  - destruct (Re.match_here (Pat.article_dot art) prev (String c s))
      as [rest|] eqn:Hm.
    + destruct (article_sub_match art prev _ rest Hm) as (w & Hs & Hgo).
      rewrite Hgo, Hs. cbn [String.append String.length].
      rewrite !slen_app. cbn [String.length].
      pose proof (sub_go_le (Pat.article_dot art) "." (Nat.le_refl 1) rest
                    None 0%nat
                    (last_of (Some ","%char) (String w (art +:+ "."))))
        as Hle.
      lia.
    + destruct i as [|i].
      * rewrite drop_0 in Hi.
        destruct (article_dot_text art prev _ Hi) as (rest & H1 & _).
        congruence.
      * cbn [Str.drop] in Hi. rewrite sub_go_next by exact Hm.
        cbn [String.length]. specialize (IH i (Some c) Hi). lia.
Qed.

Lemma all_chars_take p : forall (n : nat) (s : string),
  all_chars p s = true -> all_chars p (Str.take n s) = true.
Proof.
  intros n s H. rewrite <- (take_drop n s), all_chars_app in H.
  apply andb_true_iff in H as [H _]. exact H.
Qed.

(** The test for an article finds a form that stands in the tail. *)
Lemma has_article_some art w (y : string) :
  plain y = true -> article_in_tail art w y = true ->
  has_article art w y = true.
Proof.
  unfold article_in_tail, has_article. intros Hp H.
  assert (Hw : plain (Str.take_last w y) = true)
    by (apply all_chars_drop; exact Hp).
  destruct (Str.take_last w y) as [|c u]; [discriminate|].
  cbn [Str.drop] in H.
  apply contains_startswith in H as [i Hi].
  apply startswith_inv in Hi.
  unfold plain in Hw. cbn [all_chars] in Hw.
  apply andb_true_iff in Hw as [Hc Hu].
  apply found_at_head. unfold Re.match_here, Pat.article_tail.
  fold (tail_pattern art). cbn [Re.exec Re.exactly]. rewrite Hc.
  rewrite <- (take_drop i u), Hi.
  apply star_greedy_reach.
  - intros prev. rewrite exec_tail_app. discriminate.
  - apply all_chars_take. exact Hu.
Qed.

Lemma contains_all (t : string) : forall s : string,
  (forall i, Str.startswith t (Str.drop i s) = false) ->
  Str.contains t s = false.
Proof.
  induction s as [|c s IH]; intros H.
  - cbn [Str.contains]. rewrite orb_false_r. apply (H 0%nat).
  - cbn [Str.contains]. apply orb_false_iff. split; [apply (H 0%nat)|].
    apply IH. intros i. apply (H (S i)).
Qed.

(** Where the test for an article succeeds, the form occurs in the name. *)
Lemma has_article_occurs art w (y : string) :
  has_article art w y = true ->
  exists i, Str.startswith (tail_text art) (Str.drop i y) = true.
Proof.
  intros H. destruct (Str.contains (tail_text art) y) eqn:Hc.
  - apply contains_startswith in Hc. exact Hc.
  - exfalso. rewrite has_article_none in H; [discriminate|].
    unfold article_in_tail. apply contains_all. intros i.
    unfold Str.take_last. rewrite !drop_drop.
    apply contains_none. exact Hc.
Qed.

(** [withoutAuthors] never lengthens a name, and shortens it when it finds
    an article. *)
Lemma new_shorter (y : string) :
  (String.length (withoutAuthors_new y) <= String.length y)%nat
  /\ (has_article "A" 9 y || has_article "An" 10 y || has_article "The" 11 y
      = true ->
      (String.length (withoutAuthors_new y) < String.length y)%nat).
Proof.
  assert (Hart : forall art w, has_article art w y = true ->
            (String.length ((art +:+ " ") +:+ drop_article_subtitle art y)
             < String.length y)%nat).
  { intros art w H. apply has_article_occurs in H as [i Hi].
    pose proof (remove_article_shorter art y i None Hi) as H1.
    unfold drop_article_subtitle, Re.sub_count, Re.sub.
    pose proof (sub_go_le Pat.pattern2 EmptyString (Nat.le_0_l 1)
                  (Re.sub_go (Pat.article_dot art) "." None 0 None y)
                  (Some 1%nat) 0%nat None) as H2.
    rewrite !slen_app. cbn [String.length]. lia. }
  unfold withoutAuthors_new.
  destruct (has_article "A" 9 y) eqn:HA.
  { pose proof (Hart "A" 9%nat HA) as H. split; [|intros _]; (try exact H; cbn [String.append String.length] in *; rewrite ?slen_app in *; cbn [String.length] in *; lia). }
  destruct (has_article "An" 10 y) eqn:HAn.
  { pose proof (Hart "An" 10%nat HAn) as H. split; [|intros _]; (try exact H; cbn [String.append String.length] in *; rewrite ?slen_app in *; cbn [String.length] in *; lia). }
  destruct (has_article "The" 11 y) eqn:HThe.
  { pose proof (Hart "The" 11%nat HThe) as H.
    split; [|intros _]; (try exact H; cbn [String.append String.length] in *; rewrite ?slen_app in *; cbn [String.length] in *; lia). }
  split; [|discriminate].
  apply (sub_go_le Pat.pattern2 EmptyString (Nat.le_0_l 1)).
Qed.

Lemma strip_shorter (z y : string) :
  strip_to_title z = Ok y ->
  (String.length y
   <= String.length
        (withoutAuthors_new (Re.sub_count Pat.pattern1 EmptyString z 1)))%nat.
Proof.
  unfold strip_to_title.
  destruct (last_is "_" _) as [[|]|err]; [| |discriminate];
    intros H; injection H as <-; [|lia].
  unfold Str.drop_last.
  set (new := withoutAuthors_new _).
  pose proof (take_drop (String.length new - 1) new) as Htd.
  apply (f_equal String.length) in Htd. rewrite slen_app in Htd. lia.
Qed.

(** A name that strip-to-title leaves as it is, is settled. *)
Lemma unchanged_settled (y : string) :
  plain y = true -> strip_to_title y = Ok y -> settled y = true.
Proof.
  intros Hp H. pose proof (strip_shorter y y H) as Hlen.
  destruct (has_separator (Str.drop 1 y)) eqn:Hs.
  { pose proof (remove_front_shorter y Hp Hs) as H1.
    pose proof (proj1 (new_shorter
                         (Re.sub_count Pat.pattern1 EmptyString y 1))) as H2.
    lia. }
  rewrite (keep_settled_front y Hs) in Hlen.
  unfold settled. rewrite Hs. cbn [negb andb].
  destruct (article_in_tail "A" 9 y) eqn:HA.
  { apply (has_article_some _ _ _ Hp) in HA.
    pose proof (proj2 (new_shorter y)) as H2. rewrite HA in H2.
    specialize (H2 eq_refl). lia. }
  destruct (article_in_tail "An" 10 y) eqn:HAn.
  { apply (has_article_some _ _ _ Hp) in HAn.
    pose proof (proj2 (new_shorter y)) as H2. rewrite HAn in H2.
    rewrite orb_true_r in H2. specialize (H2 eq_refl). lia. }
  destruct (article_in_tail "The" 11 y) eqn:HThe.
  { apply (has_article_some _ _ _ Hp) in HThe.
    pose proof (proj2 (new_shorter y)) as H2. rewrite HThe in H2.
    rewrite orb_true_r in H2. specialize (H2 eq_refl). lia. }
  reflexivity.
Qed.

End Shorter.

(** C8: on a file name without line feed that ends with a dot and one of
    the extensions pdf, azw, epub and mobi, as every name
    [Authors - Title[_ Subtitle][, Article].ext] does, strip-to-title
    returns a name; and applied to that name it returns it again exactly
    when the name is [settled]: it holds no separator behind its first
    character, and none of [, A.], [, An.] and [, The.] stands in its
    last 9, 10 and 11 characters behind the first of them. *)
Theorem strip_to_title_idempotent (s e : string) :
  plain s = true ->
  one_of ["pdf"; "azw"; "epub"; "mobi"] e = true ->
  (exists y, strip_to_title (s +:+ "." +:+ e) = Ok y)
  /\ (forall y,
        strip_to_title (s +:+ "." +:+ e) = Ok y ->
        (strip_to_title y = Ok y <-> settled y = true)).
Proof.
  intros Hs He.
  destruct (known_ext e He) as (He1 & _ & _ & _ & _ & _ & He7).
  destruct (remove_authors_shape e He s None Hs) as (s1 & H1 & Hs1).
  destruct (new_shape e He s1 Hs1) as (p & H2 & Hp & Hm).
  assert (Hstrip : strip_to_title (s +:+ "." +:+ e) = Ok (p +:+ "." +:+ e)).
  { unfold strip_to_title, Re.sub_count. rewrite H1, H2, He7. reflexivity. }
  split; [exists (p +:+ "." +:+ e); exact Hstrip|].
  intros y Hy. rewrite Hstrip in Hy. injection Hy as <-.
  change (String "." e) with ("." +:+ e) in *.
  split.
  - apply unchanged_settled. unfold plain in *.
    rewrite !all_chars_app, Hp, He1. reflexivity.
  - intros Hset. unfold settled in Hset.
    apply andb_true_iff in Hset as [Hset H4].
    apply andb_true_iff in Hset as [Hset H3].
    apply andb_true_iff in Hset as [H0 H2'].
    apply negb_true_iff in H0, H2', H3, H4.
    unfold strip_to_title. rewrite (keep_settled_front _ H0).
    unfold withoutAuthors_new.
    rewrite (has_article_none _ _ _ H2'), (has_article_none _ _ _ H3),
      (has_article_none _ _ _ H4).
    rewrite (keep_unmarked e He p Hp Hm), He7. reflexivity.
Qed.

(** C8 at a title that holds dots. *)
Lemma strip_to_title_idempotent_witness :
  strip_to_title "Fleming, Ian - Dr. No_ A Novel.epub" = Ok "Dr. No.epub"
  /\ (strip_to_title "Dr. No.epub" = Ok "Dr. No.epub"
      <-> settled "Dr. No.epub" = true).
Proof.
  split; [reflexivity|].
  apply (proj2 (strip_to_title_idempotent "Fleming, Ian - Dr. No_ A Novel"
                  "epub" eq_refl eq_refl)).
  reflexivity.
Defined.

(** C8 as stated fails for names of the grammar whose stripped name is not
    settled: a title that holds a separator loses what stands in front of
    it on the second pass, and a title that ends with an article form has
    this article moved on the second pass.  It also fails when a line feed
    stands in the subtitle, which the subtitle pattern does not cross. *)
Lemma strip_to_title_twice_differs :
  (strip_to_title "Verne, Jules - Journey - Part Two.epub"
   = Ok "Journey - Part Two.epub"
   /\ strip_to_title "Journey - Part Two.epub" = Ok "Part Two.epub")
  /\ (strip_to_title "Christie, Agatha - Murder, A_ Novel.epub"
      = Ok "Murder, A.epub"
      /\ strip_to_title "Murder, A.epub" = Ok "A Murder.epub")
  /\ (strip_to_title "Greene, Graham - Affair, An_ Novel.epub"
      = Ok "Affair, An.epub"
      /\ strip_to_title "Affair, An.epub" = Ok "An Affair.epub")
  /\ (strip_to_title "Barnes, Julian - Ending, The_ Novel.epub"
      = Ok "Ending, The.epub"
      /\ strip_to_title "Ending, The.epub" = Ok "The Ending.epub")
  /\ (strip_to_title
        ("Eco, Umberto - Baudolino_ Part 1_" +:+ nl +:+ "Part 2.epub")
      = Ok "Baudolino_ Part 1.epub"
      /\ settled "Baudolino_ Part 1.epub" = true
      /\ strip_to_title "Baudolino_ Part 1.epub" = Ok "Baudolino.epub").
Proof. repeat split; vm_compute; reflexivity. Qed.
